(** * Vorio Agent: controller adapter, cloud client and sync service

    A shallow embedding of the TypeScript sources of the agent:
    - [types]                    the raw UniFi records and the normalized ones,
    - [core/errors]              the error classes,
    - [core/logger]              [formatErrorForUser], [logConnectivityResult],
    - [adapters/unifi]           [UniFiAdapter],
    - [services/vorio-client]    [VorioClient],
    - [services/sync-service]    [SyncService].

    JavaScript numbers that come out of JSON documents are modelled as [Z]
    (counts, minutes, kbps, Unix seconds); the one place where the code can
    produce [NaN] (a date that does not parse) has its own type.  Objects
    with optional fields are records of [option]s, [undefined] being [None].
    Asynchronous methods are computations in a state-and-exception monad
    over a [World] that holds the three singletons, the outside world and
    the trace of the observable effects; awaits are sequential composition. *)

From Stdlib Require Import ZArith List String Ascii Bool Lia DecimalString RelationClasses.
Import ListNotations.

Local Open Scope string_scope.
Local Open Scope Z_scope.
Local Open Scope list_scope.

Set Implicit Arguments.

(* ====================================================================== *)
(** * JavaScript values                                                    *)
(* ====================================================================== *)

(** Truthiness: [0] and the empty string are falsy, [undefined] is falsy. *)
Class Truthy (A : Type) := truthy : A -> bool.

#[global] Instance truthy_Z : Truthy Z := fun z => negb (z =? 0).
#[global] Instance truthy_string : Truthy string :=
  fun s => match s with EmptyString => false | String _ _ => true end.
#[global] Instance truthy_bool : Truthy bool := fun b => b.
#[global] Instance truthy_option {A} `{Truthy A} : Truthy (option A) :=
  fun o => match o with Some a => truthy a | None => false end.

(** [a || b] where both sides may be [undefined]. *)
Definition jsOr {A} `{Truthy A} (a b : option A) : option A :=
  if truthy a then a else b.

(** [a || d] where [d] is always defined. *)
Definition jsOrDefault {A} `{Truthy A} (a : option A) (d : A) : A :=
  match a with
  | Some x => if truthy x then x else d
  | None => d
  end.

(** The value of [a] when the test [if (a)] succeeds. *)
Definition ifTruthy {A} `{Truthy A} (a : option A) : option A :=
  match a with
  | Some x => if truthy x then Some x else None
  | None => None
  end.

(** [a ?? b] and [a ?? d]: only [undefined] falls through. *)
Definition nullish {A} (a b : option A) : option A :=
  match a with Some x => Some x | None => b end.

Definition nullishDefault {A} (a : option A) (d : A) : A :=
  match a with Some x => x | None => d end.

Notation "a ||| b" := (jsOr a b) (at level 50, left associativity).
Notation "a ||: d" := (jsOrDefault a d) (at level 50, left associativity).
Notation "a ??? b" := (nullish a b) (at level 50, left associativity).
Notation "a ??: d" := (nullishDefault a d) (at level 50, left associativity).

(** A number that may be [NaN]: [Math.floor(new Date(s).getTime() / 1000)]. *)
Inductive JsNumber : Type :=
| Num (z : Z)
| NaN.

(** Template-literal rendering of an integer and of a possibly missing
    string ([`${undefined}`] is the text "undefined"). *)
Definition showZ (z : Z) : string := NilZero.string_of_int (Z.to_int z).

Definition showOpt (s : option string) : string :=
  match s with Some x => x | None => "undefined" end.

(** [String.prototype.includes]. *)
Fixpoint includes (needle hay : string) : bool :=
  if String.prefix needle hay then true
  else match hay with
       | EmptyString => false
       | String _ rest => includes needle rest
       end.

(** [String.prototype.toLowerCase] on the ASCII letters. *)
Definition lowerAscii (c : ascii) : ascii :=
  let n := nat_of_ascii c in
  if (Nat.leb 65 n && Nat.leb n 90)%bool then ascii_of_nat (n + 32) else c.

Fixpoint toLowerCase (s : string) : string :=
  match s with
  | EmptyString => EmptyString
  | String c rest => String (lowerAscii c) (toLowerCase rest)
  end.

(** [s.split(';')[0]]: the text before the first semicolon. *)
Fixpoint beforeSemicolon (s : string) : string :=
  match s with
  | EmptyString => EmptyString
  | String c rest =>
      if Ascii.eqb c ";"%char then EmptyString else String c (beforeSemicolon rest)
  end.

(** [parts.join(sep)]. *)
Definition join (sep : string) (parts : list string) : string :=
  String.concat sep parts.

(* ====================================================================== *)
(** * types: records exchanged with the controller and with the cloud      *)
(* ====================================================================== *)

(** [UniFiVoucher]: the raw voucher, legacy (snake_case) and Integration
    API (camelCase) fields side by side. *)
Module UniFiVoucher.
Record t : Type := mk {
  (* legacy API *)
  _id : option string;
  site_id : option string;
  create_time : option Z;
  code : string;
  for_hotspot : option bool;
  admin_name : option string;
  quota : option Z;
  duration : option Z;
  used : option Z;
  qos_overwrite : option bool;
  qos_usage_quota : option Z;
  qos_rate_max_up : option Z;
  qos_rate_max_down : option Z;
  note : option string;
  status : option string;
  status_expires : option Z;
  start_time : option Z;
  end_time : option Z;
  (* Integration API *)
  id : option string;
  createdAt : option string;
  name : option string;
  authorizedGuestLimit : option Z;
  authorizedGuestCount : option Z;
  activatedAt : option string;
  expiresAt : option string;
  expired : option bool;
  timeLimitMinutes : option Z;
  dataUsageLimitMBytes : option Z;
  rxRateLimitKbps : option Z;
  txRateLimitKbps : option Z
}.

(** A record that carries nothing but its code. *)
Definition blank (c : string) : t :=
  mk None None None c None None None None None None None None None None None
     None None None None None None None None None None None None None None None.

Definition with_quota (q : option Z) (v : t) : t :=
  let '(mk a1 a2 a3 a4 a5 a6 _ a8 a9 a10 a11 a12 a13 a14 a15 a16 a17 a18 a19
           a20 a21 a22 a23 a24 a25 a26 a27 a28 a29 a30) := v in
  mk a1 a2 a3 a4 a5 a6 q a8 a9 a10 a11 a12 a13 a14 a15 a16 a17 a18 a19
     a20 a21 a22 a23 a24 a25 a26 a27 a28 a29 a30.

Definition with_used (u : option Z) (v : t) : t :=
  let '(mk a1 a2 a3 a4 a5 a6 a7 a8 _ a10 a11 a12 a13 a14 a15 a16 a17 a18 a19
           a20 a21 a22 a23 a24 a25 a26 a27 a28 a29 a30) := v in
  mk a1 a2 a3 a4 a5 a6 a7 a8 u a10 a11 a12 a13 a14 a15 a16 a17 a18 a19
     a20 a21 a22 a23 a24 a25 a26 a27 a28 a29 a30.

Definition with_authorizedGuestLimit (q : option Z) (v : t) : t :=
  let '(mk a1 a2 a3 a4 a5 a6 a7 a8 a9 a10 a11 a12 a13 a14 a15 a16 a17 a18 a19
           a20 a21 _ a23 a24 a25 a26 a27 a28 a29 a30) := v in
  mk a1 a2 a3 a4 a5 a6 a7 a8 a9 a10 a11 a12 a13 a14 a15 a16 a17 a18 a19
     a20 a21 q a23 a24 a25 a26 a27 a28 a29 a30.

Definition with_authorizedGuestCount (u : option Z) (v : t) : t :=
  let '(mk a1 a2 a3 a4 a5 a6 a7 a8 a9 a10 a11 a12 a13 a14 a15 a16 a17 a18 a19
           a20 a21 a22 _ a24 a25 a26 a27 a28 a29 a30) := v in
  mk a1 a2 a3 a4 a5 a6 a7 a8 a9 a10 a11 a12 a13 a14 a15 a16 a17 a18 a19
     a20 a21 a22 u a24 a25 a26 a27 a28 a29 a30.

(** The legacy shape: none of the Integration API fields is present. *)
Definition legacy (v : t) : Prop :=
  id v = None /\ createdAt v = None /\ name v = None /\
  authorizedGuestLimit v = None /\ authorizedGuestCount v = None /\
  activatedAt v = None /\ expiresAt v = None /\ expired v = None /\
  timeLimitMinutes v = None /\ dataUsageLimitMBytes v = None /\
  rxRateLimitKbps v = None /\ txRateLimitKbps v = None.
End UniFiVoucher.

(** [MappedVoucher]: the normalized voucher. *)
Module MappedVoucher.
Record t : Type := mk {
  id : string;
  code : string;
  duration : Z;
  quota : Z;
  createTime : JsNumber;
  startTime : option JsNumber;
  used : Z;
  status : string;
  qosRateMaxUp : option Z;
  qosRateMaxDown : option Z;
  note : option string
}.
End MappedVoucher.

(** [UniFiWLAN]: the raw WLAN configuration. *)
Module UniFiWLAN.
Record t : Type := mk {
  _id : option string;
  name : option string;
  enabled : option bool;
  security : option string;
  x_passphrase : option string;
  is_guest : option bool;
  guest_policy : option string;
  id : option string;
  ssid : option string;
  isEnabled : option bool;
  wlanType : option string;
  securityMode : option string;
  passphrase : option string;
  isGuest : option bool
}.
End UniFiWLAN.

(** [AvailableWLAN]: the normalized WLAN. *)
Module AvailableWLAN.
Record t : Type := mk {
  ssid : string;
  name : option string;
  enabled : option bool;
  security : option string;
  isGuest : option bool
}.
End AvailableWLAN.

(** [AgentCapabilities]. *)
Record AgentCapabilities : Type := {
  canListWLANs : option bool;
  canCreateVouchers : option bool;
  canDeleteVouchers : option bool
}.

(** [AgentStatus]; [lastSync] is the clock reading of [new Date()]. *)
Record AgentStatus : Type := {
  connected : bool;
  lastSync : option Z;
  lastError : option string;
  voucherCount : Z
}.

(** [VorioCommand]; the payload of a [delete_voucher] command names the
    voucher by id or by code. *)
Module Payload.
Record t : Type := mk {
  voucherId : option string;
  voucherCode : option string
}.
End Payload.

Module VorioCommand.
Record t : Type := mk {
  id : string;
  type : string;
  payload : option Payload.t;
  createdAt : string
}.
End VorioCommand.


(* ====================================================================== *)
(** * core/errors                                                          *)
(* ====================================================================== *)

Inductive AuthMethod : Type := api_key | credentials | session | unknown.

(** The errors the modelled code throws or receives.  [AxiosError] is the
    transport's rejection: [code] is its [code] property and
    [responseStatus] is [error.response?.status]. *)
Inductive Error : Type :=
| AxiosError (message : string) (code : option string) (responseStatus : option Z)
| TypeError (message : string)
| ControllerError (message controllerType : string)
| AuthenticationError (message controllerType : string) (authMethod : AuthMethod)
| ConnectionError (message controllerType : string)
                  (host : option string) (port : option Z) (errorCode : option string)
| VorioApiError (message : string) (statusCode : option Z) (endpoint : option string).

(** [error.message]; every value above is an [Error] instance, so this is
    also [getErrorMessage(error)]. *)
Definition getErrorMessage (e : Error) : string :=
  match e with
  | AxiosError m _ _ | TypeError m | ControllerError m _
  | AuthenticationError m _ _ | ConnectionError m _ _ _ _ | VorioApiError m _ _ => m
  end.

(** [error.code]: the transport's code, or the code the error classes set. *)
Definition codeOf (e : Error) : option string :=
  match e with
  | AxiosError _ c _ => c
  | TypeError _ => None
  | ControllerError _ _ => Some "CONTROLLER_ERROR"
  | AuthenticationError _ _ _ => Some "AUTH_ERROR"
  | ConnectionError _ _ _ _ _ => Some "CONNECTION_ERROR"
  | VorioApiError _ _ _ => Some "VORIO_API_ERROR"
  end.

(** [error.response?.status]. *)
Definition responseStatusOf (e : Error) : option Z :=
  match e with
  | AxiosError _ _ s => s
  | _ => None
  end.

(** The transport's rejection of a response whose status its client's
    [validateStatus] does not accept. *)
Definition statusError (st : Z) : Error :=
  AxiosError (String.append "Request failed with status code " (showZ st))
             (if ((400 <=? st) && (st <? 500))%bool then Some "ERR_BAD_REQUEST"
              else if ((500 <=? st) && (st <? 600))%bool then Some "ERR_BAD_RESPONSE"
              else None)
             (Some st).

Definition isAuthenticationError (e : Error) : bool :=
  match e with AuthenticationError _ _ _ => true | _ => false end.

Definition isConnectionError (e : Error) : bool :=
  match e with ConnectionError _ _ _ _ _ => true | _ => false end.

(* ====================================================================== *)
(** * core/logger                                                          *)
(* ====================================================================== *)

Inductive LogLevel : Type := debug | info | warn | error.

Record FormattedError : Type := {
  fmt_message : string;
  fmt_suggestion : option string
}.

Definition codeIs (e : Error) (c : string) : bool :=
  match codeOf e with Some c' => String.eqb c' c | None => false end.

(** [formatErrorForUser]; the [details] object only feeds the log context
    and is left out. *)
Definition formatErrorForUser (e : Error) : FormattedError :=
  if codeIs e "ECONNREFUSED" then
    {| fmt_message := "Connection refused - Controller is not reachable";
       fmt_suggestion := Some "Check if the controller is running and the host/port are correct." |}
  else if (codeIs e "ETIMEDOUT" || codeIs e "ECONNABORTED")%bool then
    {| fmt_message := "Connection timed out";
       fmt_suggestion := Some "Check network connectivity and firewall settings." |}
  else if codeIs e "ENOTFOUND" then
    {| fmt_message := "Host not found - DNS resolution failed";
       fmt_suggestion := Some "Check that the hostname is spelled correctly." |}
  else if (codeIs e "UNABLE_TO_VERIFY_LEAF_SIGNATURE" || codeIs e "CERT_HAS_EXPIRED"
           || codeIs e "DEPTH_ZERO_SELF_SIGNED_CERT"
           || includes "certificate" (getErrorMessage e))%bool then
    {| fmt_message := "SSL certificate verification failed";
       fmt_suggestion := Some "Set UNIFI_SKIP_SSL_VERIFY=true for self-signed certificates." |}
  else
    match ifTruthy (responseStatusOf e) with
    | Some st =>
        if st =? 401 then
          {| fmt_message := "Authentication failed";
             fmt_suggestion := Some "Check your API key or credentials." |}
        else if st =? 403 then
          {| fmt_message := "Access denied";
             fmt_suggestion := Some "Check permissions for your API key or user." |}
        else if st =? 404 then
          {| fmt_message := "Resource not found";
             fmt_suggestion := Some "Check controller version compatibility." |}
        else if st =? 429 then
          {| fmt_message := "Rate limit exceeded";
             fmt_suggestion := Some "Reduce sync frequency." |}
        else if st =? 500 then
          {| fmt_message := "Controller internal error";
             fmt_suggestion := Some "Check controller logs." |}
        else if st =? 503 then
          {| fmt_message := "Service unavailable";
             fmt_suggestion := Some "Controller may be restarting." |}
        else
          {| fmt_message := String.append "HTTP error " (showZ st);
             fmt_suggestion := Some "Check controller logs." |}
    | None => {| fmt_message := getErrorMessage e; fmt_suggestion := None |}
    end.

(* ====================================================================== *)
(** * The controller's HTTP interface                                      *)
(* ====================================================================== *)

(** [API_BASE_PATH] and [VOUCHER_PAGE_SIZE]. *)
Definition API_BASE_PATH : string := "/proxy/network/integration/v1".
Definition VOUCHER_PAGE_SIZE : Z := 1000.

(** The requests the adapter issues, one constructor per call site. *)
Inductive CtlCall : Type :=
| GetRoot
| GetSites
| PostAuthLogin (username password : string) (remember : bool)
| PostLogin (username password : string)
| PostLogout
| GetVouchers (siteId : option string) (offset limit : Z)
| GetStatVoucher (site : string)
| DeleteVoucher (siteId : option string) (voucherId : string)
| PostCmdHotspot (site cmd _id : string)
| GetProxyWlanconf (site : string)
| GetWlanconf (site : string).

Definition ctlMethod (c : CtlCall) : string :=
  match c with
  | GetRoot | GetSites | GetVouchers _ _ _ | GetStatVoucher _
  | GetProxyWlanconf _ | GetWlanconf _ => "GET"
  | PostAuthLogin _ _ _ | PostLogin _ _ | PostLogout | PostCmdHotspot _ _ _ => "POST"
  | DeleteVoucher _ _ => "DELETE"
  end.

Definition ctlUrl (c : CtlCall) : string :=
  match c with
  | GetRoot => "/"
  | GetSites => String.append API_BASE_PATH "/sites"
  | PostAuthLogin _ _ _ => "/api/auth/login"
  | PostLogin _ _ => "/api/login"
  | PostLogout => "/api/logout"
  | GetVouchers sid _ _ =>
      String.concat "" [API_BASE_PATH; "/sites/"; showOpt sid; "/hotspot/vouchers"]
  | GetStatVoucher site => String.concat "" ["/api/s/"; site; "/stat/voucher"]
  | DeleteVoucher sid vid =>
      String.concat "" [API_BASE_PATH; "/sites/"; showOpt sid; "/hotspot/vouchers/"; vid]
  | PostCmdHotspot site _ _ => String.concat "" ["/api/s/"; site; "/cmd/hotspot"]
  | GetProxyWlanconf site =>
      String.concat "" ["/proxy/network/api/s/"; site; "/rest/wlanconf"]
  | GetWlanconf site => String.concat "" ["/api/s/"; site; "/rest/wlanconf"]
  end.

(** A request as it leaves the agent: the call and the headers the client
    and its request interceptor attach. *)
Module CtlRequest.
Record t : Type := mk {
  call : CtlCall;
  xApiKey : option string;
  cookie : option string;
  xCsrfToken : option string
}.
End CtlRequest.

Module Site.
Record t : Type := mk {
  name : option string;
  desc : option string;
  id : option string
}.
End Site.

Module Meta.
Record t : Type := mk {
  rc : option string;
  msg : option string
}.
End Meta.

(** The JSON body of a response ([response.data]).  The member [data] of
    the body is read by each endpoint at the type its caller declares:
    [sites] is the array found by [response.data.data || response.data],
    [vouchers] and [wlans] are [response.data.data] on the voucher and WLAN
    endpoints; [None] when the member is missing. *)
Module Body.
Record t : Type := mk {
  meta : option Meta.t;
  sites : option (list Site.t);
  vouchers : option (list UniFiVoucher.t);
  totalCount : option Z;
  wlans : option (list UniFiWLAN.t)
}.
End Body.

Module Response.
Record t : Type := mk {
  status : Z;
  setCookie : option (list string);
  xCsrfToken : option string;
  data : option Body.t
}.
End Response.

(** What the network gives back: a response, or a failure without one
    (refused, timed out, unresolved, TLS), carrying the transport's code. *)
Inductive HttpOutcome : Type :=
| Responded (r : Response.t)
| NetworkError (code : option string) (message : string).

(* ====================================================================== *)
(** * The cloud's HTTP interface                                           *)
(* ====================================================================== *)

Inductive CloudCall : Type :=
| PostDisconnect
| PostHeartbeat (voucherCount : option Z) (status : option string) (error : option string)
| PostSync (vouchers : list MappedVoucher.t)
| GetCommands
| PostAck (commandId : string)
| PostComplete (commandId : string) (success : bool) (error : option string).

Definition cloudUrl (c : CloudCall) : string :=
  match c with
  | PostDisconnect => "/api/agent/disconnect"
  | PostHeartbeat _ _ _ => "/api/agent/heartbeat"
  | PostSync _ => "/api/agent/sync"
  | GetCommands => "/api/agent/commands"
  | PostAck id => String.concat "" ["/api/agent/commands/"; id; "/ack"]
  | PostComplete id _ _ => String.concat "" ["/api/agent/commands/"; id; "/complete"]
  end.

(** The body of a cloud response at the declared response types
    ([VorioCommandsResponse], [VorioSyncResponse]) together with the
    members the error handler probes. *)
Module CloudData.
Record t : Type := mk {
  error : option string;
  message : option string;
  commands : list VorioCommand.t;
  syncedCount : Z
}.
End CloudData.

(** A response, a request that got no response, or a request that could
    not be sent. *)
Inductive CloudOutcome : Type :=
| CloudResponded (status : Z) (data : CloudData.t)
| CloudNoResponse (code : option string) (message : string)
| CloudNotSent (message : string).

(* ====================================================================== *)
(** * core/config and the outside world                                    *)
(* ====================================================================== *)

Record UniFiConfig : Type := {
  host : string;
  port : Z;
  apiKey : string;
  username : string;
  password : string;
  site : string;
  skipSslVerify : bool
}.

Record VorioConfig : Type := {
  apiUrl : string;
  agentToken : string
}.

Record AppConfig : Type := {
  unifi : UniFiConfig;
  vorio : VorioConfig
}.

(** Everything the agent does not control: its configuration, the
    controller and the cloud as state machines over a hidden state [Net],
    the system clock ([Date.now()], milliseconds) and the date parser
    ([new Date(s).getTime()], [None] for an invalid date). *)
Class Environment : Type := {
  config : AppConfig;
  Net : Type;
  controller : CtlRequest.t -> Net -> HttpOutcome * Net;
  cloud : CloudCall -> Net -> CloudOutcome * Net;
  dateNow : Net -> Z * Net;
  dateParse : string -> option Z
}.

(* ====================================================================== *)
(** * The agent's state and its observable effects                         *)
(* ====================================================================== *)

(** The private fields of [UniFiAdapter] ([useApiKey] is fixed by the
    configuration, see below). *)
Record AdapterState : Type := {
  isLoggedIn : bool;
  cookies : list string;
  csrfToken : option string;
  controllerVersion : option string;
  siteId : option string
}.

(** The private fields of [VorioClient]. *)
Record ClientState : Type := {
  connectionId : option string;
  projectId : option string
}.

(** The private fields of [SyncService]; a timer handle is a number. *)
Record ServiceState : Type := {
  isRunning : bool;
  syncInterval : option Z;
  commandPollInterval : option Z;
  status : AgentStatus
}.

(** What an observer of the process sees, in the order it happens: calls
    of a logger ([logger.info(...)] of the named module), HTTP exchanges
    with the controller and with the cloud, and cancelled timers. *)
Inductive Event : Type :=
| Logged (logger : string) (level : LogLevel) (message : string)
| CtlHttp (request : CtlRequest.t) (outcome : HttpOutcome)
| CloudHttp (call : CloudCall) (outcome : CloudOutcome)
| ClearInterval (handle : Z).

Record World `{Environment} : Type := {
  adapter : AdapterState;
  vorioClient : ClientState;
  service : ServiceState;
  net : Net;
  trace : list Event
}.

(** The result of running a method: a value, a thrown error, or no result
    within the allotted number of loop iterations. *)
Inductive Outcome (A : Type) : Type :=
| Ok (a : A)
| Throw (e : Error)
| Diverge.

Arguments Ok {A} a.
Arguments Throw {A} e.
Arguments Diverge {A}.

Section Effects.
Context `{Environment}.

(** Field assignments survive a throw, so the state is threaded next to
    the outcome instead of inside it. *)
Definition M (A : Type) : Type := World -> Outcome A * World.

Definition ret {A} (a : A) : M A := fun w => (Ok a, w).

Definition bind {A B} (m : M A) (k : A -> M B) : M B :=
  fun w =>
    match m w with
    | (Ok a, w') => k a w'
    | (Throw e, w') => (Throw e, w')
    | (Diverge, w') => (Diverge, w')
    end.

Definition throw {A} (e : Error) : M A := fun w => (Throw e, w).

Definition diverge {A} : M A := fun w => (Diverge, w).

(** [try { m } catch (error) { handler(error) }]. *)
Definition tryCatch {A} (m : M A) (handler : Error -> M A) : M A :=
  fun w =>
    match m w with
    | (Throw e, w') => handler e w'
    | r => r
    end.

Definition withAdapter (f : AdapterState -> AdapterState) : M unit :=
  fun w => (Ok tt, {| adapter := f (adapter w); vorioClient := vorioClient w;
                      service := service w; net := net w; trace := trace w |}).

Definition withClient (f : ClientState -> ClientState) : M unit :=
  fun w => (Ok tt, {| adapter := adapter w; vorioClient := f (vorioClient w);
                      service := service w; net := net w; trace := trace w |}).

Definition withService (f : ServiceState -> ServiceState) : M unit :=
  fun w => (Ok tt, {| adapter := adapter w; vorioClient := vorioClient w;
                      service := f (service w); net := net w; trace := trace w |}).

(** Append one event to the trace. *)
Definition emit (e : Event) : M unit :=
  fun w => (Ok tt, {| adapter := adapter w; vorioClient := vorioClient w;
                      service := service w; net := net w; trace := trace w ++ [e] |}).

(** Let the outside world answer, recording the exchange. *)
Definition exchange {R} (ask : Net -> R * Net) (record : R -> Event) : M R :=
  fun w =>
    let (r, n) := ask (net w) in
    (Ok r, {| adapter := adapter w; vorioClient := vorioClient w;
              service := service w; net := n; trace := trace w ++ [record r] |}).

(** [Date.now()]. *)
Definition now : M Z :=
  fun w =>
    let (t, n) := dateNow (net w) in
    (Ok t, {| adapter := adapter w; vorioClient := vorioClient w;
              service := service w; net := n; trace := trace w |}).

Definition getAdapter : M AdapterState := fun w => (Ok (adapter w), w).
Definition getService : M ServiceState := fun w => (Ok (service w), w).

End Effects.

Declare Scope monad_scope.
Delimit Scope monad_scope with monad.
Notation "x <- m ;; k" := (bind m (fun x => k))
  (at level 61, m at next level, right associativity) : monad_scope.
Notation "m ;; k" := (bind m (fun _ => k))
  (at level 61, right associativity) : monad_scope.
Local Open Scope monad_scope.

(* ====================================================================== *)
(** * adapters/unifi: UniFiAdapter                                         *)
(* ====================================================================== *)

Module UniFiAdapter.
Section UniFiAdapter.
Context `{Environment}.

(** [logger.<level>(message, context)] of the module logger; the context
    object is not recorded. *)
Definition log (level : LogLevel) (message : string) : M unit :=
  emit (Logged "UniFi" level message).

(** [this.useApiKey = !!config.unifi.apiKey]. *)
Definition useApiKey : bool := truthy (apiKey (unifi config)).

(** ** createHttpClient *)

(** [validateStatus: (status) => status < 400 || status === 302]. *)
Definition validateStatus (st : Z) : bool := ((st <? 400) || (st =? 302))%bool.

(** The request interceptor (session authentication only) and the static
    [X-API-KEY] header. *)
Definition outgoing (a : AdapterState) (c : CtlCall) : CtlRequest.t :=
  if useApiKey then
    {| CtlRequest.call := c;
       CtlRequest.xApiKey := Some (apiKey (unifi config));
       CtlRequest.cookie := None;
       CtlRequest.xCsrfToken := None |}
  else
    {| CtlRequest.call := c;
       CtlRequest.xApiKey := None;
       CtlRequest.cookie :=
         match cookies a with [] => None | cs => Some (join "; " cs) end;
       CtlRequest.xCsrfToken := ifTruthy (csrfToken a) |}.

(** The response interceptor (session authentication only): keep the
    cookies and the CSRF token of every response that resolves. *)
Definition captureSession (r : Response.t) (a : AdapterState) : AdapterState :=
  {| isLoggedIn := isLoggedIn a;
     cookies := match Response.setCookie r with
                | Some setCookies => map beforeSemicolon setCookies
                | None => cookies a
                end;
     csrfToken := match ifTruthy (Response.xCsrfToken r) with
                  | Some token => Some token
                  | None => csrfToken a
                  end;
     controllerVersion := controllerVersion a;
     siteId := siteId a |}.

(** [this.client.get/post/delete(...)]. *)
Definition request (c : CtlCall) : M Response.t :=
  a <- getAdapter ;;
  let req := outgoing a c in
  out <- exchange (controller req) (CtlHttp req) ;;
  match out with
  | Responded r =>
      if validateStatus (Response.status r) then
        (if useApiKey then ret tt else withAdapter (captureSession r)) ;;
        ret r
      else throw (statusError (Response.status r))
  | NetworkError code message => throw (AxiosError message code None)
  end.

(** [testClient.get('/')]: a bare client, without the headers and the
    interceptors, that accepts any status. *)
Definition probeRequest : CtlRequest.t :=
  {| CtlRequest.call := GetRoot; CtlRequest.xApiKey := None;
     CtlRequest.cookie := None; CtlRequest.xCsrfToken := None |}.

Definition probe : M unit :=
  out <- exchange (controller probeRequest) (CtlHttp probeRequest) ;;
  match out with
  | Responded _ => ret tt
  | NetworkError code message => throw (AxiosError message code None)
  end.

(** ** Connection testing *)

(** [logConnectivityResult] of core/logger. *)
Definition logConnectivityResult (success : bool) (target : string)
    (failure : option Error) : M unit :=
  if success then
    emit (Logged "Network" info (String.append target " is reachable"))
  else
    match failure with
    | Some e =>
        let formatted := formatErrorForUser e in
        emit (Logged "Network" error
                (String.concat "" ["Cannot reach "; target; ": "; fmt_message formatted])) ;;
        match ifTruthy (fmt_suggestion formatted) with
        | Some hint => emit (Logged "Network" info (String.append "Hint: " hint))
        | None => ret tt
        end
    | None => ret tt
    end.

Definition hostPort : string :=
  String.concat "" [host (unifi config); ":"; showZ (port (unifi config))].

Definition getConnectionErrorMessage (errorCode : string) : string :=
  if String.eqb errorCode "ECONNREFUSED" then
    String.concat ""
      ["Connection refused. The UniFi Controller at "; hostPort;
       " is not accepting connections. ";
       "Please verify the controller is running and the host/port are correct."]
  else if (String.eqb errorCode "ETIMEDOUT" || String.eqb errorCode "ECONNABORTED")%bool then
    String.concat ""
      ["Connection timed out. The UniFi Controller at "; hostPort; " did not respond. ";
       "Please check network connectivity and firewall settings."]
  else if String.eqb errorCode "ENOTFOUND" then
    String.concat ""
      ["Host not found. Could not resolve hostname '"; host (unifi config); "'. ";
       "Please check the hostname is spelled correctly."]
  else if (String.eqb errorCode "DEPTH_ZERO_SELF_SIGNED_CERT"
           || String.eqb errorCode "UNABLE_TO_VERIFY_LEAF_SIGNATURE"
           || String.eqb errorCode "CERT_HAS_EXPIRED")%bool then
    String.concat ""
      ["SSL/TLS certificate error when connecting to "; host (unifi config); ". ";
       "Set UNIFI_SKIP_SSL_VERIFY=true if using a self-signed certificate."]
  else
    String.concat ""
      ["Could not connect to UniFi Controller at "; hostPort; ". ";
       "Error: "; errorCode].

Definition testConnectivity : M bool :=
  log info "Testing connectivity to controller..." ;;
  tryCatch
    (probe ;;
     logConnectivityResult true "UniFi Controller" None ;;
     ret true)
    (fun e =>
       logConnectivityResult false "UniFi Controller" (Some e) ;;
       let errorCode := codeOf e ||: "UNKNOWN" in
       throw (ConnectionError (getConnectionErrorMessage errorCode) "unifi"
                (Some (host (unifi config))) (Some (port (unifi config)))
                (Some errorCode))).

(** ** Authentication *)

Definition setLoggedIn (b : bool) : M unit :=
  withAdapter (fun a => {| isLoggedIn := b; cookies := cookies a;
                           csrfToken := csrfToken a;
                           controllerVersion := controllerVersion a;
                           siteId := siteId a |}).

Definition setSiteId (s : option string) : M unit :=
  withAdapter (fun a => {| isLoggedIn := isLoggedIn a; cookies := cookies a;
                           csrfToken := csrfToken a;
                           controllerVersion := controllerVersion a;
                           siteId := s |}).

Definition handleAuthError {A} (e : Error) (method : AuthMethod) : M A :=
  if isAuthenticationError e then throw e
  else
    let isKey := match method with api_key => true | _ => false end in
    match responseStatusOf e with
    | Some 401 =>
        throw (AuthenticationError
                 (if isKey then "API key is invalid or expired"
                  else "Username or password is incorrect")
                 "unifi" method)
    | Some 403 =>
        throw (AuthenticationError
                 (if isKey then "API key does not have required permissions"
                  else "Account does not have required permissions")
                 "unifi" method)
    | _ =>
        throw (AuthenticationError
                 (String.append "Authentication failed: "
                    (fmt_message (formatErrorForUser e)))
                 "unifi" method)
    end.

Definition siteMatches (target : string) (s : Site.t) : bool :=
  let same o := match o with Some x => String.eqb x target | None => false end in
  (same (Site.name s) || same (Site.desc s) || same (Site.id s))%bool.

Definition loginWithApiKey : M unit :=
  log info "Authenticating with API key..." ;;
  tryCatch
    (response <- request GetSites ;;
     match Response.data response with
     | Some body =>
         if negb (Response.status response =? 200) then
           throw (AuthenticationError "Failed to fetch sites - invalid API response"
                    "unifi" api_key)
         else
           match Body.sites body with
           | Some (first :: rest) =>
               let targetSite := Some (site (unifi config)) ||: "default" in
               let found := nullishDefault (find (siteMatches targetSite) (first :: rest)) first in
               setSiteId (Site.id found) ;;
               setLoggedIn true ;;
               log info "Authentication successful"
           | _ =>
               throw (AuthenticationError "No sites found. Please check API key permissions."
                        "unifi" api_key)
           end
     | None =>
         throw (AuthenticationError "Failed to fetch sites - invalid API response"
                  "unifi" api_key)
     end)
    (fun e => handleAuthError e api_key).

Definition rcIsOk (r : Response.t) : bool :=
  match Response.data r with
  | Some body =>
      match Body.meta body with
      | Some m => match Meta.rc m with Some rc => String.eqb rc "ok" | None => false end
      | None => false
      end
  | None => false
  end.

Definition metaMsg (r : Response.t) : option string :=
  match Response.data r with
  | Some body => match Body.meta body with Some m => Meta.msg m | None => None end
  | None => None
  end.

Definition loginWithCredentials : M unit :=
  log info "Authenticating with username/password..." ;;
  (* Try UniFi OS login first (newer controllers) *)
  done <- tryCatch
            (response <- request (PostAuthLogin (username (unifi config))
                                                (password (unifi config)) true) ;;
             if Response.status response =? 200 then
               setLoggedIn true ;;
               log info "Authentication successful (UniFi OS)" ;;
               ret true
             else ret false)
            (fun _ =>
               log debug "UniFi OS login failed, trying legacy endpoint..." ;;
               ret false) ;;
  if done : bool then ret tt
  else
    (* Try legacy controller login *)
    tryCatch
      (response <- request (PostLogin (username (unifi config))
                                      (password (unifi config))) ;;
       if (rcIsOk response || (Response.status response =? 200))%bool then
         setLoggedIn true ;;
         log info "Authentication successful (Legacy)"
       else
         let errorMessage := metaMsg response ||: "Login rejected" in
         throw (AuthenticationError
                  (String.append "Authentication failed: " errorMessage)
                  "unifi" credentials))
      (fun e => handleAuthError e credentials).

Definition login : M unit :=
  log info "Connecting to UniFi Controller..." ;;
  (* First, test connectivity *)
  testConnectivity ;;
  (* Then attempt authentication *)
  if useApiKey then loginWithApiKey else loginWithCredentials.

Definition logout : M unit :=
  a <- getAdapter ;;
  if negb (isLoggedIn a) then ret tt
  else
    (if negb useApiKey then
       tryCatch (request PostLogout ;; log debug "Logged out from controller")
                (fun _ => ret tt)
     else ret tt) ;;
    withAdapter (fun a => {| isLoggedIn := false; cookies := [];
                             csrfToken := None;
                             controllerVersion := controllerVersion a;
                             siteId := siteId a |}) ;;
    log info "Disconnected from UniFi Controller".

(** [isSessionExpired]: [error.response?.status === 401]. *)
Definition isSessionExpired (e : Error) : bool :=
  match responseStatusOf e with Some st => st =? 401 | None => false end.


(** ** Voucher management *)

Definition setLoggedOut : M unit := setLoggedIn false.

(** [fetchVouchersNewApi]: the [while (hasMore)] loop, [fuel] bounding
    the number of pages requested. *)
Fixpoint fetchPages (fuel : nat) (vouchers : list UniFiVoucher.t) (offset : Z)
  : M (list UniFiVoucher.t) :=
  match fuel with
  | O => diverge
  | S fuel' =>
      a <- getAdapter ;;
      response <- request (GetVouchers (siteId a) offset VOUCHER_PAGE_SIZE) ;;
      match Response.data response with
      | Some body =>
          let data := Body.vouchers body ??: [] in
          let vouchers' := vouchers ++ data in
          (* Check for more pages *)
          let totalCount := Body.totalCount body ||: 0 in
          let offset' := offset + Z.of_nat (List.length data) in
          if ((offset' <? totalCount) && (0 <? Z.of_nat (List.length data)))%bool then
            log debug "Fetching more vouchers..." ;;
            fetchPages fuel' vouchers' offset'
          else
            log info "Vouchers fetched" ;;
            ret vouchers'
      | None =>
          log info "Vouchers fetched" ;;
          ret vouchers
      end
  end.

Definition fetchVouchersNewApi (fuel : nat) : M (list UniFiVoucher.t) :=
  fetchPages fuel [] 0.

Definition fetchVouchersLegacyApi : M (list UniFiVoucher.t) :=
  response <- request (GetStatVoucher (site (unifi config))) ;;
  if negb (rcIsOk response) then
    throw (ControllerError (metaMsg response ||: "Failed to fetch vouchers") "unifi")
  else
    let vouchers := match Response.data response with
                    | Some body => Body.vouchers body ??: []
                    | None => []
                    end in
    log info "Vouchers fetched" ;;
    ret vouchers.

(** One attempt at the voucher list: the [try] block of [fetchRawVouchers]. *)
Definition fetchVouchersOnce (pages : nat) : M (list UniFiVoucher.t) :=
  if useApiKey then fetchVouchersNewApi pages else fetchVouchersLegacyApi.

(** [fetchRawVouchers]; the method calls itself from its [catch] block.
    [fuel] bounds the depth of these calls, [pages] the page loop of each
    attempt. *)
Fixpoint fetchRawVouchers (pages fuel : nat) : M (list UniFiVoucher.t) :=
  match fuel with
  | O => diverge
  | S fuel' =>
      a <- getAdapter ;;
      (if negb (isLoggedIn a) then login else ret tt) ;;
      log info "Fetching vouchers..." ;;
      tryCatch
        (fetchVouchersOnce pages)
        (fun e =>
           (* Handle session expiration *)
           if isSessionExpired e then
             log info "Session expired, re-authenticating..." ;;
             setLoggedOut ;;
             login ;;
             fetchRawVouchers pages fuel'
           else throw e)
  end.

(** [Math.floor(new Date(s).getTime() / 1000)]. *)
Definition unixSeconds (s : string) : JsNumber :=
  match dateParse s with
  | Some ms => Num (ms / 1000)
  | None => NaN
  end.

(** [isNewApi] is computed by the callback and never read. *)
Definition isNewApi (v : UniFiVoucher.t) : bool :=
  (truthy (UniFiVoucher.id v) && negb (truthy (UniFiVoucher._id v)))%bool.

(** The callback of [vouchers.map] in [mapVouchers], [nowMs] being what
    [Date.now()] answers where the callback asks. *)
Definition mapVoucher (nowMs : Z) (v : UniFiVoucher.t) : MappedVoucher.t :=
  (* Get create time *)
  let createTime :=
    match ifTruthy (UniFiVoucher.createdAt v) with
    | Some createdAt => unixSeconds createdAt
    | None =>
        match ifTruthy (UniFiVoucher.create_time v) with
        | Some create_time => Num create_time
        | None => Num (nowMs / 1000)
        end
    end in
  (* Get start time (when first used) *)
  let startTime :=
    match ifTruthy (UniFiVoucher.activatedAt v) with
    | Some activatedAt => Some (unixSeconds activatedAt)
    | None =>
        match ifTruthy (UniFiVoucher.start_time v) with
        | Some start_time => Some (Num start_time)
        | None => None
        end
    end in
  (* Get duration in minutes *)
  let duration := UniFiVoucher.timeLimitMinutes v ||| UniFiVoucher.duration v ||: 0 in
  (* Get quota (how many guests can use it) *)
  let quota := UniFiVoucher.authorizedGuestLimit v ||| UniFiVoucher.quota v ||: 1 in
  (* Get used count *)
  let used := UniFiVoucher.authorizedGuestCount v ||| UniFiVoucher.used v ||: 0 in
  (* Determine status *)
  let status :=
    match UniFiVoucher.expired v with
    | Some true => "EXPIRED"
    | _ =>
        match ifTruthy (UniFiVoucher.status v) with
        | Some status => status
        | None =>
            if ((0 <? used) && (quota =? 1))%bool then "USED"
            else if quota =? 1 then "VALID_ONE"
            else "VALID_MULTI"
        end
    end in
  {| MappedVoucher.id := UniFiVoucher.id v ||| UniFiVoucher._id v ||: UniFiVoucher.code v;
     MappedVoucher.code := UniFiVoucher.code v;
     MappedVoucher.duration := duration;
     MappedVoucher.quota := quota;
     MappedVoucher.createTime := createTime;
     MappedVoucher.startTime := startTime;
     MappedVoucher.used := used;
     MappedVoucher.status := status;
     MappedVoucher.qosRateMaxUp :=
       UniFiVoucher.txRateLimitKbps v ||| UniFiVoucher.qos_rate_max_up v;
     MappedVoucher.qosRateMaxDown :=
       UniFiVoucher.rxRateLimitKbps v ||| UniFiVoucher.qos_rate_max_down v;
     MappedVoucher.note := UniFiVoucher.name v ||| UniFiVoucher.note v |}.

(** Whether the callback reaches [Date.now()] on this record. *)
Definition consultsClock (v : UniFiVoucher.t) : bool :=
  (negb (truthy (UniFiVoucher.createdAt v)) && negb (truthy (UniFiVoucher.create_time v)))%bool.

(** [mapVouchers]: the records are mapped in order, the clock being read
    once for each record that needs it. *)
Fixpoint mapVouchers (vouchers : list UniFiVoucher.t) : M (list MappedVoucher.t) :=
  match vouchers with
  | [] => ret []
  | v :: rest =>
      t <- (if consultsClock v then now else ret 0) ;;
      mapped <- mapVouchers rest ;;
      ret (mapVoucher t v :: mapped)
  end.

Definition getVouchers (fuel : nat) : M (list MappedVoucher.t) :=
  rawVouchers <- fetchRawVouchers fuel fuel ;;
  mapVouchers rawVouchers.

Definition deleteVoucherNewApi (voucherId : string) : M unit :=
  a <- getAdapter ;;
  response <- request (DeleteVoucher (siteId a) voucherId) ;;
  if (negb (Response.status response =? 200) && negb (Response.status response =? 204))%bool then
    throw (ControllerError
             (String.append "Failed to delete voucher: HTTP " (showZ (Response.status response)))
             "unifi")
  else ret tt.

Definition deleteVoucherLegacyApi (voucherId : string) : M unit :=
  response <- request (PostCmdHotspot (site (unifi config)) "delete-voucher" voucherId) ;;
  if negb (rcIsOk response) then
    throw (ControllerError (metaMsg response ||: "Failed to delete voucher") "unifi")
  else ret tt.

(** One attempt at the deletion: the [try] block of [deleteVoucher]. *)
Definition deleteVoucherOnce (voucherId : string) : M unit :=
  (if useApiKey then deleteVoucherNewApi voucherId else deleteVoucherLegacyApi voucherId) ;;
  log info "Voucher deleted".

(** [deleteVoucher]; like [fetchRawVouchers] it calls itself from its
    [catch] block. *)
Fixpoint deleteVoucher (fuel : nat) (voucherId : string) : M unit :=
  match fuel with
  | O => diverge
  | S fuel' =>
      a <- getAdapter ;;
      (if negb (isLoggedIn a) then login else ret tt) ;;
      log info "Deleting voucher..." ;;
      tryCatch
        (deleteVoucherOnce voucherId)
        (fun e =>
           (* Handle session expiration *)
           if isSessionExpired e then
             log info "Session expired, re-authenticating..." ;;
             setLoggedOut ;;
             login ;;
             deleteVoucher fuel' voucherId
           else throw e)
  end.

(** ** WLAN management *)

Definition wlanData (r : Response.t) : option (list UniFiWLAN.t) :=
  match Response.data r with
  | Some body => Body.wlans body
  | None => None
  end.

Definition fetchWLANs : M (list UniFiWLAN.t) :=
  (* Try proxy path first (UDM/UDR devices) *)
  viaProxy <- tryCatch
                (response <- request (GetProxyWlanconf (site (unifi config))) ;;
                 ret (wlanData response))
                (fun _ => ret None) ;;
  match viaProxy with
  | Some wlans => ret wlans
  | None =>
      (* Try direct path (Cloud Key/self-hosted) *)
      response <- request (GetWlanconf (site (unifi config))) ;;
      ret (wlanData response ??: [])
  end.

Definition mapSecurityMode (wlan : UniFiWLAN.t) : string :=
  match ifTruthy (UniFiWLAN.securityMode wlan ||| UniFiWLAN.security wlan
                  ||| UniFiWLAN.wlanType wlan) with
  | None => "open"
  | Some securityMode =>
      if String.eqb securityMode "open" then "open"
      else
        let normalized := toLowerCase securityMode in
        if includes "wpa3" normalized then "wpa3"
        else if includes "wpa2" normalized then "wpa2"
        else if includes "wpa" normalized then "wpa"
        else if includes "wep" normalized then "wep"
        else securityMode
  end.

Definition mapWLAN (wlan : UniFiWLAN.t) : AvailableWLAN.t :=
  {| AvailableWLAN.ssid := UniFiWLAN.ssid wlan ||| UniFiWLAN.name wlan ||: "Unknown";
     AvailableWLAN.name := UniFiWLAN.name wlan;
     AvailableWLAN.enabled := Some (UniFiWLAN.isEnabled wlan ??? UniFiWLAN.enabled wlan ??: true);
     AvailableWLAN.security := Some (mapSecurityMode wlan);
     AvailableWLAN.isGuest := Some (UniFiWLAN.isGuest wlan ??? UniFiWLAN.is_guest wlan ??: false) |}.

(** [w.enabled !== false]. *)
Definition notDisabled (w : AvailableWLAN.t) : bool :=
  match AvailableWLAN.enabled w with Some false => false | _ => true end.

Definition getAvailableWLANs : M (list AvailableWLAN.t) :=
  a <- getAdapter ;;
  (if negb (isLoggedIn a) then login else ret tt) ;;
  log info "Fetching available WLANs..." ;;
  tryCatch
    (wlans <- fetchWLANs ;;
     (* Map to normalized format *)
     let availableWLANs := map mapWLAN wlans in
     (* Filter to enabled WLANs only *)
     let enabledWLANs := filter notDisabled availableWLANs in
     log info "WLANs fetched" ;;
     ret enabledWLANs)
    (fun _ =>
       log warn "Failed to fetch WLANs" ;;
       ret []).

(** ** Adapter interface *)

Definition isAuthenticated : M bool :=
  a <- getAdapter ;; ret (isLoggedIn a).

Definition getType : string := "unifi".

Definition getCapabilities : AgentCapabilities :=
  {| canListWLANs := Some true;
     canCreateVouchers := Some false;
     canDeleteVouchers := Some true |}.

End UniFiAdapter.
End UniFiAdapter.

(* ====================================================================== *)
(** * services/vorio-client: VorioClient                                   *)
(* ====================================================================== *)

Module VorioClient.
Section VorioClient.
Context `{Environment}.

Definition log (level : LogLevel) (message : string) : M unit :=
  emit (Logged "Vorio" level message).

(** [handleError], the response interceptor's rejection handler: every
    failed exchange is rethrown as a classified error. *)
Definition handleError {A} (c : CloudCall) (out : CloudOutcome) : M A :=
  match out with
  | CloudResponded st data =>
      let rejected := statusError st in
      let errorMessage :=
        CloudData.error data ||| CloudData.message data ||: getErrorMessage rejected in
      if st =? 401 then
        log error "Authentication failed - check your agent token" ;;
        throw (VorioApiError "Authentication failed. Please check your VORIO_AGENT_TOKEN."
                 (Some st) (Some (cloudUrl c)))
      else if st =? 403 then
        log error "Access denied - agent token may not have required permissions" ;;
        throw (VorioApiError
                 "Access denied. The agent token may not have the required permissions."
                 (Some st) (Some (cloudUrl c)))
      else if st =? 404 then
        log error "Resource not found" ;;
        throw (VorioApiError "API endpoint not found. Please check the VORIO_API_URL."
                 (Some st) (Some (cloudUrl c)))
      else if st =? 429 then
        log error "Rate limit exceeded" ;;
        throw (VorioApiError "Rate limit exceeded. Please reduce sync frequency."
                 (Some st) (Some (cloudUrl c)))
      else
        log error (String.concat "" ["API error ("; showZ st; "): "; errorMessage]) ;;
        throw (VorioApiError errorMessage (Some st) (Some (cloudUrl c)))
  | CloudNoResponse code message =>
      let formatted := formatErrorForUser (AxiosError message code None) in
      log error "No response received from Vorio API" ;;
      match ifTruthy (fmt_suggestion formatted) with
      | Some hint => log info (String.append "Suggestion: " hint)
      | None => ret tt
      end ;;
      throw (ConnectionError
               "Could not connect to Vorio Cloud. Please check your network connection."
               "vorio" (Some (apiUrl (vorio config))) None code)
  | CloudNotSent message =>
      log error "Request error" ;;
      throw (VorioApiError message None None)
  end.

(** [this.client.get/post(...)]: statuses 200 to 299 resolve. *)
Definition request (c : CloudCall) : M CloudData.t :=
  out <- exchange (cloud c) (CloudHttp c) ;;
  match out with
  | CloudResponded st data =>
      if ((200 <=? st) && (st <? 300))%bool then ret data else handleError c out
  | _ => handleError c out
  end.

Definition disconnect : M unit :=
  log info "Disconnecting from Vorio Cloud..." ;;
  tryCatch
    (request PostDisconnect ;;
     log info "Disconnected from Vorio Cloud")
    (fun _ => log warn "Failed to disconnect gracefully") ;;
  withClient (fun _ => {| connectionId := None; projectId := None |}).

Definition heartbeat (voucherCount : option Z) (status error : option string) : M unit :=
  request (PostHeartbeat voucherCount status error) ;;
  log debug "Heartbeat sent".

Definition syncVouchers (vouchers : list MappedVoucher.t) : M CloudData.t :=
  log info "Syncing vouchers to Vorio Cloud" ;;
  response <- request (PostSync vouchers) ;;
  log info "Vouchers synced successfully" ;;
  ret response.

Definition getCommands : M (list VorioCommand.t) :=
  response <- request GetCommands ;;
  ret (CloudData.commands response).

Definition acknowledgeCommand (commandId : string) : M unit :=
  log debug "Acknowledging command" ;;
  request (PostAck commandId) ;;
  ret tt.

Definition completeCommand (commandId : string) (success : bool)
    (error : option string) : M unit :=
  log debug "Completing command" ;;
  request (PostComplete commandId success error) ;;
  ret tt.

End VorioClient.
End VorioClient.

(* ====================================================================== *)
(** * services/sync-service: SyncService                                   *)
(* ====================================================================== *)

(** The service holds the adapter that [getAdapter()] creates; the factory
    builds a [UniFiAdapter] and rejects every other controller type. *)
Module SyncService.
Section SyncService.
Context `{Environment}.

Definition log (level : LogLevel) (message : string) : M unit :=
  emit (Logged "Sync" level message).

Definition setRunning (b : bool) : M unit :=
  withService (fun s => {| isRunning := b; syncInterval := syncInterval s;
                           commandPollInterval := commandPollInterval s;
                           status := status s |}).

Definition setSyncInterval (h : option Z) : M unit :=
  withService (fun s => {| isRunning := isRunning s; syncInterval := h;
                           commandPollInterval := commandPollInterval s;
                           status := status s |}).

Definition setCommandPollInterval (h : option Z) : M unit :=
  withService (fun s => {| isRunning := isRunning s; syncInterval := syncInterval s;
                           commandPollInterval := h;
                           status := status s |}).

Definition withStatus (f : AgentStatus -> AgentStatus) : M unit :=
  withService (fun s => {| isRunning := isRunning s; syncInterval := syncInterval s;
                           commandPollInterval := commandPollInterval s;
                           status := f (status s) |}).

Definition setConnected (b : bool) : M unit :=
  withStatus (fun st => {| connected := b; lastSync := lastSync st;
                           lastError := lastError st; voucherCount := voucherCount st |}).

Definition setLastError (e : option string) : M unit :=
  withStatus (fun st => {| connected := connected st; lastSync := lastSync st;
                           lastError := e; voucherCount := voucherCount st |}).

(** [stop]. *)
Definition stop : M unit :=
  s <- getService ;;
  if negb (isRunning s) then ret tt
  else
    log info "Stopping sync service..." ;;
    setRunning false ;;
    (* Stop command poll loop *)
    match commandPollInterval s with
    | Some handle => emit (ClearInterval handle) ;; setCommandPollInterval None
    | None => ret tt
    end ;;
    (* Stop sync loop *)
    match syncInterval s with
    | Some handle => emit (ClearInterval handle) ;; setSyncInterval None
    | None => ret tt
    end ;;
    (* Disconnect from Vorio Cloud *)
    tryCatch VorioClient.disconnect (fun _ => ret tt) ;;
    (* Logout from controller *)
    tryCatch UniFiAdapter.logout (fun _ => ret tt) ;;
    setConnected false ;;
    log info "Sync service stopped".

(** [logError]. *)
Definition logError (e : Error) : M unit :=
  let formatted := formatErrorForUser e in
  log error (fmt_message formatted) ;;
  match ifTruthy (fmt_suggestion formatted) with
  | Some hint => log info (String.append "Suggestion: " hint)
  | None => ret tt
  end.

(** [performSync]; [new Date()] reads the clock. *)
Definition performSync (fuel : nat) : M unit :=
  log info "Starting voucher sync..." ;;
  (* Get vouchers from controller *)
  vouchers <- UniFiAdapter.getVouchers fuel ;;
  (* Sync to Vorio Cloud *)
  result <- VorioClient.syncVouchers vouchers ;;
  (* Update status *)
  t <- now ;;
  withStatus (fun st => {| connected := connected st;
                           lastSync := Some t;
                           lastError := None;
                           voucherCount := CloudData.syncedCount result |}) ;;
  log info "Voucher sync completed".

(** [syncCycle]. *)
Definition syncCycle (fuel : nat) : M unit :=
  (* Sync vouchers *)
  performSync fuel ;;
  (* Send heartbeat *)
  s <- getService ;;
  VorioClient.heartbeat (Some (voucherCount (status s))) (Some "ok") None.

(** [handleSyncNowCommand]. *)
Definition handleSyncNowCommand (fuel : nat) : M unit :=
  log info "Executing sync_now command" ;;
  performSync fuel.

(** [handleDeleteVoucherCommand]. *)
Definition handleDeleteVoucherCommand (fuel : nat) (command : VorioCommand.t) : M unit :=
  let voucherId := match VorioCommand.payload command with
                   | Some p => Payload.voucherId p | None => None end in
  let voucherCode := match VorioCommand.payload command with
                     | Some p => Payload.voucherCode p | None => None end in
  log info "Executing delete_voucher command" ;;
  match ifTruthy voucherId with
  | Some vid =>
      (* Delete by ID *)
      UniFiAdapter.deleteVoucher fuel vid
  | None =>
      match ifTruthy voucherCode with
      | Some vcode =>
          (* Find voucher by code and delete *)
          vouchers <- UniFiAdapter.getVouchers fuel ;;
          match find (fun v => String.eqb (MappedVoucher.code v) vcode) vouchers with
          | Some voucher => UniFiAdapter.deleteVoucher fuel (MappedVoucher.id voucher)
          | None => log warn "Voucher not found"
          end
      | None => log warn "Delete command missing voucherId and voucherCode"
      end
  end.

(** [handleDisconnectCommand]. *)
Definition handleDisconnectCommand : M unit :=
  log info "Received disconnect command" ;;
  stop.

(** The [switch (command.type)] of [processCommand].  The answer tells
    whether control reaches the statement after the switch: [false] is the
    [return] of the [disconnect] case. *)
Definition dispatchCommand (fuel : nat) (command : VorioCommand.t) : M bool :=
  let type := VorioCommand.type command in
  if String.eqb type "sync_now" then
    handleSyncNowCommand fuel ;; ret true
  else if String.eqb type "delete_voucher" then
    handleDeleteVoucherCommand fuel command ;; ret true
  else if String.eqb type "disconnect" then
    handleDisconnectCommand ;;
    ret false (* Don't complete the command if stopping *)
  else
    log warn "Unknown command type" ;; ret true.

(** [processCommand]. *)
Definition processCommand (fuel : nat) (command : VorioCommand.t) : M unit :=
  log info "Processing command" ;;
  (* Acknowledge the command *)
  VorioClient.acknowledgeCommand (VorioCommand.id command) ;;
  tryCatch
    (proceed <- dispatchCommand fuel command ;;
     if proceed : bool then
       (* Mark command as completed *)
       VorioClient.completeCommand (VorioCommand.id command) true None
     else ret tt)
    (fun e =>
       log error "Command failed" ;;
       logError e ;;
       VorioClient.completeCommand (VorioCommand.id command) false
         (Some (getErrorMessage e))).

(** [for (const command of commands) await this.processCommand(command)]. *)
Fixpoint forEachCommand (fuel : nat) (commands : list VorioCommand.t) : M unit :=
  match commands with
  | [] => ret tt
  | command :: rest => processCommand fuel command ;; forEachCommand fuel rest
  end.

(** [processCommands]. *)
Definition processCommands (fuel : nat) : M unit :=
  log debug "Checking for pending commands..." ;;
  commands <- VorioClient.getCommands ;;
  match commands with
  | [] => ret tt
  | _ =>
      log info "Processing commands" ;;
      forEachCommand fuel commands
  end.

(** The callback of the command poll timer ([startCommandPollLoop]). *)
Definition commandPollTick (fuel : nat) : M unit :=
  s <- getService ;;
  if negb (isRunning s) then ret tt
  else
    tryCatch (processCommands fuel)
             (fun e => log error "Command poll error" ;; logError e).

(** The callback of the sync timer ([startSyncLoop]). *)
Definition syncTick (fuel : nat) : M unit :=
  s <- getService ;;
  if negb (isRunning s) then ret tt
  else
    tryCatch (syncCycle fuel)
      (fun e =>
         log error "Sync cycle error" ;;
         logError e ;;
         setLastError (Some (getErrorMessage e)) ;;
         (* Send error heartbeat *)
         s' <- getService ;;
         tryCatch
           (VorioClient.heartbeat (Some (voucherCount (status s'))) (Some "error")
              (lastError (status s')))
           (fun _ => ret tt)).

Definition getStatus : M AgentStatus := s <- getService ;; ret (status s).

Definition isServiceRunning : M bool := s <- getService ;; ret (isRunning s).

End SyncService.
End SyncService.

(* ====================================================================== *)
(** * Observations on runs                                                 *)
(* ====================================================================== *)

(** The calls made to the cloud, in order. *)
Definition cloudCalls (t : list Event) : list CloudCall :=
  flat_map (fun e => match e with CloudHttp c _ => [c] | _ => [] end) t.

(** The acknowledgements and completions among them. *)
Definition lifecycle (t : list Event) : list CloudCall :=
  flat_map (fun e => match e with
                     | CloudHttp (PostAck id) _ => [PostAck id]
                     | CloudHttp (PostComplete id success failure) _ =>
                         [PostComplete id success failure]
                     | _ => []
                     end) t.

(** The exchanges with the controller, in order: the call and the status
    of the response, [None] when no response came. *)
Definition exchanges (t : list Event) : list (CtlCall * option Z) :=
  flat_map (fun e => match e with
                     | CtlHttp r (Responded a) => [(CtlRequest.call r, Some (Response.status a))]
                     | CtlHttp r (NetworkError _ _) => [(CtlRequest.call r, None)]
                     | _ => []
                     end) t.

(** An event other than the acknowledgement or the completion of a command. *)
Definition quiet (e : Event) : Prop :=
  match e with
  | CloudHttp (PostAck _) _ | CloudHttp (PostComplete _ _ _) _ => False
  | _ => True
  end.

(** An event other than the completion of the command [id]. *)
Definition notCompletionOf (id : string) (e : Event) : Prop :=
  match e with
  | CloudHttp (PostComplete i _ _) _ => i <> id
  | _ => True
  end.

(** The service is at rest: not running, no timer armed, marked
    disconnected. *)
Definition stopped (s : ServiceState) : Prop :=
  isRunning s = false /\ syncInterval s = None /\
  commandPollInterval s = None /\ connected (status s) = false.

(** The service keeps its control state: running flag, timers and
    connection mark. *)
Definition keepsControl (s s' : ServiceState) : Prop :=
  isRunning s' = isRunning s /\ syncInterval s' = syncInterval s /\
  commandPollInterval s' = commandPollInterval s /\
  connected (status s') = connected (status s).

(** The service only ever moves towards rest: a service at rest stays at
    rest, and one that runs or rests still runs or rests. *)
Definition settles (s s' : ServiceState) : Prop :=
  (stopped s -> stopped s') /\
  (isRunning s = true \/ stopped s -> isRunning s' = true \/ stopped s').

(** An answer of the controller that the adapter's client rejects. *)
Definition rejected (out : HttpOutcome) : Prop :=
  match out with
  | Responded r => UniFiAdapter.validateStatus (Response.status r) = false
  | NetworkError _ _ => True
  end.


Section Observations.
Context `{Environment}.

(** [step P S w w']: from [w] to [w'] the trace grew by events that all
    satisfy [P], and the service state moved along [S]. *)
Definition step (P : Event -> Prop) (S : ServiceState -> ServiceState -> Prop)
    (w w' : World) : Prop :=
  (exists evs, trace w' = trace w ++ evs /\ Forall P evs) /\
  S (service w) (service w').

(** [respects P S m]: every run of [m], whatever its outcome, is such a
    step. *)
Definition respects (P : Event -> Prop) (S : ServiceState -> ServiceState -> Prop)
    {A} (m : M A) : Prop :=
  forall w, step P S w (snd (m w)).

(** [halts m]: [m] always comes to an end. *)
Definition halts {A} (m : M A) : Prop := forall w, fst (m w) <> Diverge.

(** [safe m]: [m] always returns a value. *)
Definition safe {A} (m : M A) : Prop := forall w, exists a w', m w = (Ok a, w').

(** [extends m m']: every run of [m] that comes to an end is a run of
    [m'] too; the relation between a method under a bound on its loops and
    the same method under a larger bound. *)
Definition extends {A} (m m' : M A) : Prop :=
  forall w r w', m w = (r, w') -> r <> Diverge -> m' w = (r, w').

(** The cloud answers the call with a success status in every state. *)
Definition accepts (c : CloudCall) : Prop :=
  forall n, match fst (cloud c n) with
            | CloudResponded st _ => 200 <= st < 300
            | _ => False
            end.

(** The cloud accepts every acknowledgement and every completion report. *)
Definition reportsAccepted : Prop :=
  (forall id, accepts (PostAck id)) /\
  (forall id success error, accepts (PostComplete id success error)).

End Observations.

(** ** Further observations *)

(** A count that a raw record may give under a modern and under a legacy
    name, [0] standing like [undefined] for a count that is not given. *)
Definition notGiven (x : option Z) : Prop := x = None \/ x = Some 0.

(** [countOf modern legacy default n]: the record gives the count [n]
    under the modern name; or it gives none there and gives [n] under the
    legacy name; or it gives none under either name and [n] is the
    default. *)
Definition countOf (modern legacy : option Z) (default n : Z) : Prop :=
  (modern = Some n /\ n <> 0) \/
  (notGiven modern /\ legacy = Some n /\ n <> 0) \/
  (notGiven modern /\ notGiven legacy /\ n = default).

Section MoreObservations.
Context `{Environment}.

(** [raises Q m]: every error that a run of [m] raises satisfies [Q]. *)
Definition raises (Q : Error -> Prop) {A} (m : M A) : Prop :=
  forall w e w', m w = (Throw e, w') -> Q e.

(** The pages of the voucher list that a trace shows: for each answered
    request of the list, the offset and the limit asked for and the
    records served. *)
Definition voucherPages (t : list Event) : list (Z * Z * list UniFiVoucher.t) :=
  flat_map (fun e => match e with
                     | CtlHttp req (Responded r) =>
                         match CtlRequest.call req with
                         | GetVouchers _ offset limit =>
                             [(offset, limit,
                               match Response.data r with
                               | Some body => Body.vouchers body ??: []
                               | None => []
                               end)]
                         | _ => []
                         end
                     | _ => []
                     end) t.

(** Pages that follow one another from [offset] on, each asked for with
    the page size of the adapter. *)
Fixpoint contiguous (offset : Z) (pages : list (Z * Z * list UniFiVoucher.t)) : Prop :=
  match pages with
  | [] => True
  | (asked, limit, served) :: rest =>
      asked = offset /\ limit = VOUCHER_PAGE_SIZE /\
      contiguous (offset + Z.of_nat (List.length served)) rest
  end.

(** The headers of a request are those of the adapter's client: the API
    key and nothing else under key authentication, no API key under
    session authentication. *)
Definition clientHeaders (req : CtlRequest.t) : Prop :=
  if UniFiAdapter.useApiKey then
    CtlRequest.xApiKey req = Some (apiKey (unifi config)) /\
    CtlRequest.cookie req = None /\ CtlRequest.xCsrfToken req = None
  else CtlRequest.xApiKey req = None.

(** A request to the controller is either the bare connectivity probe or
    a request with the headers of the adapter's client. *)
Definition wellAddressed (e : Event) : Prop :=
  match e with
  | CtlHttp req _ => req = UniFiAdapter.probeRequest \/ clientHeaders req
  | _ => True
  end.

(** An event in which the cloud takes no part. *)
Definition local (e : Event) : Prop :=
  match e with CloudHttp _ _ => False | _ => True end.

(** The controller gives the same answer to every request of the call
    [c], whatever its headers and whenever it is made. *)
Definition answers (c : CtlCall) (out : HttpOutcome) : Prop :=
  forall req n, CtlRequest.call req = c -> fst (controller req n) = out.

(** [keepsLogin m]: no run of [m] changes the authenticated flag of the
    adapter. *)
Definition keepsLogin {A} (m : M A) : Prop :=
  forall w, isLoggedIn (adapter (snd (m w))) = isLoggedIn (adapter w).

(** What every normalized voucher satisfies: a quota other than zero, a
    status, and an identifier unless the record has no code either. *)
Definition wellFormed (m : MappedVoucher.t) : Prop :=
  MappedVoucher.quota m <> 0 /\ MappedVoucher.status m <> "" /\
  (MappedVoucher.id m = "" -> MappedVoucher.code m = "").

(** The state in which the adapter logs in again after an expired
    session: the expiry announced and the authenticated flag cleared,
    everything else as the failed attempt left it. *)
Definition afterExpiry (w : World) : World :=
  {| adapter := {| isLoggedIn := false;
                   cookies := cookies (adapter w);
                   csrfToken := csrfToken (adapter w);
                   controllerVersion := controllerVersion (adapter w);
                   siteId := siteId (adapter w) |};
     vorioClient := vorioClient w;
     service := service w;
     net := net w;
     trace := trace w ++ [Logged "UniFi" info "Session expired, re-authenticating..."] |}.

End MoreObservations.

(* ====================================================================== *)
(** * Scenarios: concrete controllers and clouds to run the agent against  *)
(* ====================================================================== *)

Module Scenario.

Definition settings (key : string) : AppConfig :=
  {| unifi := {| host := "192.168.1.1"; port := 8443; apiKey := key;
                 username := "admin"; password := "secret";
                 site := "default"; skipSslVerify := true |};
     vorio := {| apiUrl := "https://cloud.example"; agentToken := "token" |} |}.

(** An outside world whose hidden state counts the exchanges so far: the
    answers may depend on the call and on how many exchanges came before.
    The clock advances by one second at every reading. *)
Definition scripted (c : AppConfig)
    (ctl : nat -> CtlCall -> HttpOutcome)
    (cld : nat -> CloudCall -> CloudOutcome) : Environment :=
  {| config := c;
     Net := nat;
     controller := fun req n => (ctl n (CtlRequest.call req), S n);
     cloud := fun call n => (cld n call, S n);
     dateNow := fun n => (Z.of_nat n * 1000 + 1700000000000, S n);
     dateParse := fun _ => None |}.

Definition answer (st : Z) (body : option Body.t) : HttpOutcome :=
  Responded {| Response.status := st; Response.setCookie := None;
               Response.xCsrfToken := None; Response.data := body |}.

Definition emptyBody : Body.t :=
  {| Body.meta := None; Body.sites := None; Body.vouchers := None;
     Body.totalCount := None; Body.wlans := None |}.

Definition sitesBody : Body.t :=
  {| Body.meta := None;
     Body.sites := Some [ {| Site.name := Some "default"; Site.desc := None;
                             Site.id := Some "site-1" |} ];
     Body.vouchers := None; Body.totalCount := None; Body.wlans := None |}.

(** Two single-use vouchers of the legacy shape, one used and one not. *)
Definition usedOnce : UniFiVoucher.t :=
  UniFiVoucher.with_used (Some 1)
    (UniFiVoucher.with_quota (Some 1) (UniFiVoucher.blank "11111-22222")).

Definition unused : UniFiVoucher.t :=
  UniFiVoucher.with_used (Some 0)
    (UniFiVoucher.with_quota (Some 1) (UniFiVoucher.blank "33333-44444")).

Definition vouchersBody : Body.t :=
  {| Body.meta := None; Body.sites := None;
     Body.vouchers := Some [usedOnce; unused];
     Body.totalCount := Some 2; Body.wlans := None |}.

Definition accepted : CloudOutcome :=
  CloudResponded 200 {| CloudData.error := None; CloudData.message := None;
                         CloudData.commands := []; CloudData.syncedCount := 2 |}.

(** A controller whose session keeps expiring: the voucher list answers
    401 until six exchanges have taken place, deletion and the WLAN
    endpoints always answer 401, the probe and the key check succeed. *)
Definition expiring : Environment :=
  scripted (settings "key")
    (fun n call =>
       match call with
       | GetRoot => answer 200 None
       | GetSites => answer 200 (Some sitesBody)
       | GetVouchers _ _ _ =>
           if Nat.ltb n 6 then answer 401 None else answer 200 (Some vouchersBody)
       | _ => answer 401 None
       end)
    (fun _ _ => accepted).

(** A host that refuses every connection. *)
Definition refusing : Environment :=
  scripted (settings "key")
    (fun _ _ => NetworkError (Some "ECONNREFUSED") "connect ECONNREFUSED 192.168.1.1:8443")
    (fun _ _ => accepted).

(** A controller that always rejects the WLAN endpoints (one with an
    error status, one at the network level) and serves the rest. *)
Definition noWlans : Environment :=
  scripted (settings "key")
    (fun _ call =>
       match call with
       | GetProxyWlanconf _ => answer 404 None
       | GetWlanconf _ => NetworkError (Some "ECONNRESET") "socket hang up"
       | GetSites => answer 200 (Some sitesBody)
       | _ => answer 200 None
       end)
    (fun _ _ => accepted).

Definition command (id type : string) (payload : option Payload.t) : VorioCommand.t :=
  {| VorioCommand.id := id; VorioCommand.type := type;
     VorioCommand.payload := payload;
     VorioCommand.createdAt := "2024-01-15T10:30:00Z" |}.

(** A batch of three: a sync, a deletion that the controller rejects, and
    a disconnect. *)
Definition batch : list VorioCommand.t :=
  [ command "cmd-1" "sync_now" None;
    command "cmd-2" "delete_voucher"
      (Some {| Payload.voucherId := Some "v-404"; Payload.voucherCode := None |});
    command "cmd-3" "disconnect" None ].

(** A healthy controller that does not know the voucher to delete, and a
    cloud that hands out [batch] and accepts every report. *)
Definition polling : Environment :=
  scripted (settings "key")
    (fun _ call =>
       match call with
       | GetSites => answer 200 (Some sitesBody)
       | GetVouchers _ _ _ => answer 200 (Some vouchersBody)
       | DeleteVoucher _ _ => answer 404 None
       | _ => answer 200 None
       end)
    (fun _ call =>
       match call with
       | GetCommands =>
           CloudResponded 200 {| CloudData.error := None; CloudData.message := None;
                                  CloudData.commands := batch;
                                  CloudData.syncedCount := 0 |}
       | _ => accepted
       end).

(** The agent at rest: an adapter that is logged in or not, a service
    that runs with both timers armed or is stopped, an empty trace. *)
Definition start (E : Environment) (n : @Net E) (loggedIn running : bool) : @World E :=
  {| adapter := {| isLoggedIn := loggedIn; cookies := []; csrfToken := None;
                   controllerVersion := None;
                   siteId := if loggedIn then Some "site-1" else None |};
     vorioClient := {| connectionId := Some "conn-1"; projectId := Some "proj-1" |};
     service := {| isRunning := running;
                   syncInterval := if running then Some 1 else None;
                   commandPollInterval := if running then Some 2 else None;
                   status := {| connected := running; lastSync := None;
                                lastError := None; voucherCount := 0 |} |};
     net := n;
     trace := [] |}.

(** A raw record that carries both variants of the use count. *)
Definition bothCounts : UniFiVoucher.t :=
  UniFiVoucher.with_authorizedGuestCount (Some 0)
    (UniFiVoucher.with_used (Some 3) (UniFiVoucher.blank "55555-66666")).

(** A raw record whose two use counts are both positive. *)
Definition twoCounts : UniFiVoucher.t :=
  UniFiVoucher.with_authorizedGuestCount (Some 2)
    (UniFiVoucher.with_used (Some 3) (UniFiVoucher.blank "12121-34343")).

(** A raw record used more often than its quota allows. *)
Definition overused : UniFiVoucher.t :=
  UniFiVoucher.with_used (Some 5)
    (UniFiVoucher.with_quota (Some 2) (UniFiVoucher.blank "77777-88888")).

(** A legacy record with unlimited uses, used once. *)
Definition unlimited : UniFiVoucher.t :=
  UniFiVoucher.with_used (Some 1)
    (UniFiVoucher.with_quota (Some 0) (UniFiVoucher.blank "99999-00000")).

End Scenario.

(** Further controllers: one with session authentication, one that pages
    its voucher list, one that has revoked the API key, one with WLANs. *)

Module Cases.
Import Scenario.

(** A legacy controller under session authentication: no UniFi OS login
    endpoint, a login that sets a session cookie, any other request
    served. *)
Definition sessionCookie : Response.t :=
  {| Response.status := 200;
     Response.setCookie := Some ["unifises=abc123; Path=/; Secure; HttpOnly"];
     Response.xCsrfToken := None; Response.data := None |}.

Definition selfHosted : Environment :=
  scripted (settings EmptyString)
    (fun _ call =>
       match call with
       | PostAuthLogin _ _ _ => answer 404 None
       | PostLogin _ _ => Responded sessionCookie
       | _ => answer 200 None
       end)
    (fun _ _ => accepted).

(** A controller that serves the voucher list in two pages of one. *)
Definition page (v : UniFiVoucher.t) : Body.t :=
  {| Body.meta := None; Body.sites := None; Body.vouchers := Some [v];
     Body.totalCount := Some 2; Body.wlans := None |}.

Definition paged : Environment :=
  scripted (settings "key")
    (fun _ call =>
       match call with
       | GetSites => answer 200 (Some sitesBody)
       | GetVouchers _ offset _ =>
           if offset =? 0 then answer 200 (Some (page usedOnce))
           else answer 200 (Some (page unused))
       | _ => answer 200 None
       end)
    (fun _ _ => accepted).

(** A controller that can be reached and rejects the API key. *)
Definition revoked : Environment :=
  scripted (settings "key")
    (fun _ call => match call with GetRoot => answer 200 None | _ => answer 401 None end)
    (fun _ _ => accepted).

(** Two WLANs: a guest network of the modern shape, and a network that
    the modern flag disables while the legacy flag does not. *)
Definition guestWlan : UniFiWLAN.t :=
  {| UniFiWLAN._id := None; UniFiWLAN.name := None; UniFiWLAN.enabled := None;
     UniFiWLAN.security := None; UniFiWLAN.x_passphrase := None;
     UniFiWLAN.is_guest := None; UniFiWLAN.guest_policy := None;
     UniFiWLAN.id := Some "wlan-1"; UniFiWLAN.ssid := Some "Guest";
     UniFiWLAN.isEnabled := Some true; UniFiWLAN.wlanType := None;
     UniFiWLAN.securityMode := Some "WPA2-Personal";
     UniFiWLAN.passphrase := Some "hunter2"; UniFiWLAN.isGuest := Some true |}.

Definition officeWlan : UniFiWLAN.t :=
  {| UniFiWLAN._id := None; UniFiWLAN.name := Some "Office"; UniFiWLAN.enabled := Some true;
     UniFiWLAN.security := Some "wpapsk"; UniFiWLAN.x_passphrase := None;
     UniFiWLAN.is_guest := None; UniFiWLAN.guest_policy := None;
     UniFiWLAN.id := None; UniFiWLAN.ssid := None;
     UniFiWLAN.isEnabled := Some false; UniFiWLAN.wlanType := None;
     UniFiWLAN.securityMode := None;
     UniFiWLAN.passphrase := None; UniFiWLAN.isGuest := None |}.

(** A raw WLAN whose security mode is already a normalized name. *)
Definition wpaWlan : UniFiWLAN.t :=
  {| UniFiWLAN._id := None; UniFiWLAN.name := None; UniFiWLAN.enabled := None;
     UniFiWLAN.security := None; UniFiWLAN.x_passphrase := None;
     UniFiWLAN.is_guest := None; UniFiWLAN.guest_policy := None;
     UniFiWLAN.id := None; UniFiWLAN.ssid := None;
     UniFiWLAN.isEnabled := None; UniFiWLAN.wlanType := None;
     UniFiWLAN.securityMode := Some "wpa";
     UniFiWLAN.passphrase := None; UniFiWLAN.isGuest := None |}.

Definition wlansBody : Body.t :=
  {| Body.meta := None; Body.sites := None; Body.vouchers := None;
     Body.totalCount := None; Body.wlans := Some [guestWlan; officeWlan] |}.

Definition broadcasting : Environment :=
  scripted (settings "key")
    (fun _ call =>
       match call with
       | GetSites => answer 200 (Some sitesBody)
       | GetProxyWlanconf _ => answer 200 (Some wlansBody)
       | _ => answer 200 None
       end)
    (fun _ _ => accepted).

(** A cloud that hands out [batch] and refuses every acknowledgement. *)
Definition unacknowledged : Environment :=
  scripted (settings "key")
    (fun _ call =>
       match call with
       | GetSites => answer 200 (Some sitesBody)
       | _ => answer 200 None
       end)
    (fun _ call =>
       match call with
       | GetCommands =>
           CloudResponded 200 {| CloudData.error := None; CloudData.message := None;
                                  CloudData.commands := batch;
                                  CloudData.syncedCount := 0 |}
       | PostAck _ =>
           CloudResponded 500 {| CloudData.error := Some "Internal error";
                                  CloudData.message := None;
                                  CloudData.commands := [];
                                  CloudData.syncedCount := 0 |}
       | _ => accepted
       end).

(** A command of a type the agent does not know. *)
Definition reboot : VorioCommand.t := command "cmd-9" "reboot" None.

End Cases.

(* ====================================================================== *)
(** * Properties                                                           *)
(* ====================================================================== *)

(** The service's control state only moves along these two preorders. *)

#[global] Instance keepsControl_PreOrder : PreOrder keepsControl.
Proof.
  split.
  - intros s. repeat split.
  - intros s1 s2 s3 (R1 & I1 & P1 & N1) (R2 & I2 & P2 & N2).
    repeat split; congruence.
Qed.

#[global] Instance settles_PreOrder : PreOrder settles.
Proof.
  split.
  - intros s. split; auto.
  - intros s1 s2 s3 [A1 B1] [A2 B2]. split; auto.
Qed.

Lemma keepsControl_settles s s' : keepsControl s s' -> settles s s'.
Proof.
  intros (A & B & C & D). split.
  - intros (A' & B' & C' & D'). repeat split; congruence.
  - intros [R|(A' & B' & C' & D')]; [left|right; repeat split]; congruence.
Qed.

(* ---------------------------------------------------------------------- *)
(** ** Frames

    [respects P S m] is preserved by the constructions of the monad: a
    frame is proved once for each method, by following its text. *)

Section Guarantees.
Context `{Environment}.
Variable P : Event -> Prop.
Variable S : ServiceState -> ServiceState -> Prop.
Context {S_pre : PreOrder S}.

Lemma step_refl w : step P S w w.
Proof.
  split; [exists []; split; [now rewrite app_nil_r | constructor] | reflexivity].
Qed.

Lemma step_trans w1 w2 w3 : step P S w1 w2 -> step P S w2 w3 -> step P S w1 w3.
Proof.
  intros [(e1 & T1 & F1) S1] [(e2 & T2 & F2) S2]. split; [|etransitivity; eauto].
  exists (e1 ++ e2). split.
  - rewrite T2, T1, app_assoc. reflexivity.
  - apply Forall_app; auto.
Qed.

Lemma respects_ret {A} (a : A) : respects P S (ret a).
Proof. intros w. apply step_refl. Qed.

Lemma respects_throw {A} (e : Error) : respects P S (@throw _ A e).
Proof. intros w. apply step_refl. Qed.

Lemma respects_diverge {A} : respects P S (@diverge _ A).
Proof. intros w. apply step_refl. Qed.

Lemma respects_bind {A B} (m : M A) (k : A -> M B) :
  respects P S m -> (forall a, respects P S (k a)) -> respects P S (bind m k).
Proof.
  intros Rm Rk w. unfold bind. specialize (Rm w).
  destruct (m w) as [[a|e|] w1]; cbn in *; auto.
  eapply step_trans; [exact Rm | apply Rk].
Qed.

Lemma respects_tryCatch {A} (m : M A) (h : Error -> M A) :
  respects P S m -> (forall e, respects P S (h e)) -> respects P S (tryCatch m h).
Proof.
  intros Rm Rh w. unfold tryCatch. specialize (Rm w).
  destruct (m w) as [[a|e|] w1]; cbn in *; auto.
  eapply step_trans; [exact Rm | apply Rh].
Qed.

Lemma respects_emit e : P e -> respects P S (emit e).
Proof.
  intros Pe w. split; cbn; [|reflexivity].
  exists [e]. split; [reflexivity | repeat constructor; exact Pe].
Qed.

Lemma respects_exchange {R} (ask : Net -> R * Net) (record : R -> Event) :
  (forall r, P (record r)) -> respects P S (exchange ask record).
Proof.
  intros Pr w. unfold exchange. destruct (ask (net w)) as [r n]. split; cbn; [|reflexivity].
  exists [record r]. split; [reflexivity | repeat constructor; apply Pr].
Qed.

Lemma respects_now : respects P S now.
Proof.
  intros w. unfold now. destruct (dateNow (net w)). split; cbn; [|reflexivity].
  exists []. split; [now rewrite app_nil_r|constructor].
Qed.

Lemma respects_withAdapter f : respects P S (withAdapter f).
Proof.
  intros w. split; cbn; [|reflexivity].
  exists []. split; [now rewrite app_nil_r|constructor].
Qed.

Lemma respects_withClient f : respects P S (withClient f).
Proof.
  intros w. split; cbn; [|reflexivity].
  exists []. split; [now rewrite app_nil_r|constructor].
Qed.

Lemma respects_withService f : (forall s, S s (f s)) -> respects P S (withService f).
Proof.
  intros Hf w. split; cbn; [|apply Hf].
  exists []. split; [now rewrite app_nil_r|constructor].
Qed.

Lemma respects_getAdapter : respects P S getAdapter.
Proof. intros w. apply step_refl. Qed.

Lemma respects_getService : respects P S getService.
Proof. intros w. apply step_refl. Qed.

End Guarantees.

Lemma respects_weaken `{Environment} (P Q : Event -> Prop)
    (S T : ServiceState -> ServiceState -> Prop) {A} (m : M A) :
  (forall e, P e -> Q e) -> (forall s s', S s s' -> T s s') ->
  respects P S m -> respects Q T m.
Proof.
  intros PQ ST R w. destruct (R w) as [(evs & E & F) HS]. split; [|auto].
  exists evs. split; [exact E|]. eapply Forall_impl; eauto.
Qed.

Create HintDb steps.
#[export] Hint Resolve respects_ret respects_throw respects_diverge respects_now
  respects_withAdapter respects_withClient respects_getAdapter respects_getService : steps.

#[export] Hint Resolve keepsControl_PreOrder settles_PreOrder : steps.

(** Decompose a computation along its binds, handlers and case analyses. *)
Ltac stepwise :=
  repeat first
    [ solve [auto with steps]
    | apply respects_bind; [exact _ | | intros ?]
    | apply respects_tryCatch; [exact _ | | intros ?]
    | apply respects_emit; [exact _ | solve [auto with steps]]
    | apply respects_exchange; [exact _ | solve [auto with steps]]
    | apply respects_withService; intros ?; cbn
    | match goal with
      | |- respects _ _ (if ?b then _ else _) => destruct b
      | |- respects _ _ (match ?x with _ => _ end) => destruct x
      end ].

(* ---------------------------------------------------------------------- *)
(** ** Frames of the adapter *)

Section AdapterSteps.
Context `{Environment}.
Variable P : Event -> Prop.
Variable S : ServiceState -> ServiceState -> Prop.
Context {S_pre : PreOrder S}.
Hypothesis P_logged : forall l lv m, P (Logged l lv m).
Hypothesis P_ctl : forall r o, P (CtlHttp r o).
Import UniFiAdapter.

#[local] Hint Resolve P_logged P_ctl : steps.

Lemma log_step lv m : respects P S (UniFiAdapter.log lv m).
Proof. unfold UniFiAdapter.log. stepwise. Qed.
#[local] Hint Resolve log_step : steps.

Lemma request_step c : respects P S (request c).
Proof. unfold request. stepwise. Qed.
#[local] Hint Resolve request_step : steps.

Lemma probe_step : respects P S probe.
Proof. unfold probe. stepwise. Qed.
#[local] Hint Resolve probe_step : steps.

Lemma logConnectivityResult_step b t e : respects P S (logConnectivityResult b t e).
Proof. unfold logConnectivityResult. stepwise. Qed.
#[local] Hint Resolve logConnectivityResult_step : steps.

Lemma testConnectivity_step : respects P S testConnectivity.
Proof. unfold testConnectivity. stepwise. Qed.
#[local] Hint Resolve testConnectivity_step : steps.

Lemma setLoggedIn_step b : respects P S (setLoggedIn b).
Proof. unfold setLoggedIn. stepwise. Qed.

Lemma setSiteId_step b : respects P S (setSiteId b).
Proof. unfold setSiteId. stepwise. Qed.
#[local] Hint Resolve setLoggedIn_step setSiteId_step : steps.

Lemma handleAuthError_step {A} e m : respects P S (@handleAuthError _ A e m).
Proof. unfold handleAuthError. stepwise. Qed.
#[local] Hint Resolve handleAuthError_step : steps.

Lemma login_step : respects P S login.
Proof. unfold login, loginWithApiKey, loginWithCredentials. stepwise. Qed.
#[local] Hint Resolve login_step : steps.

Lemma logout_step : respects P S logout.
Proof. unfold logout. stepwise. Qed.

Lemma fetchPages_step fuel vs off : respects P S (fetchPages fuel vs off).
Proof.
  revert vs off. induction fuel as [|fuel IH]; intros vs off; cbn [fetchPages]; stepwise.
Qed.
#[local] Hint Resolve fetchPages_step : steps.

Lemma fetchVouchersOnce_step pages : respects P S (fetchVouchersOnce pages).
Proof. unfold fetchVouchersOnce, fetchVouchersNewApi, fetchVouchersLegacyApi. stepwise. Qed.
#[local] Hint Resolve fetchVouchersOnce_step : steps.

Lemma fetchRawVouchers_step pages fuel : respects P S (fetchRawVouchers pages fuel).
Proof.
  induction fuel as [|fuel IH]; cbn [fetchRawVouchers]; unfold setLoggedOut; stepwise.
Qed.
#[local] Hint Resolve fetchRawVouchers_step : steps.

Lemma mapVouchers_step vs : respects P S (mapVouchers vs).
Proof. induction vs as [|v vs IH]; cbn [mapVouchers]; stepwise. Qed.
#[local] Hint Resolve mapVouchers_step : steps.

Lemma getVouchers_step fuel : respects P S (getVouchers fuel).
Proof. unfold getVouchers. stepwise. Qed.

Lemma deleteVoucher_step fuel id : respects P S (deleteVoucher fuel id).
Proof.
  induction fuel as [|fuel IH]; cbn [deleteVoucher];
    unfold setLoggedOut, deleteVoucherOnce, deleteVoucherNewApi, deleteVoucherLegacyApi;
    stepwise.
Qed.

Lemma getAvailableWLANs_step : respects P S getAvailableWLANs.
Proof. unfold getAvailableWLANs, fetchWLANs. stepwise. Qed.

End AdapterSteps.

#[export] Hint Resolve login_step logout_step fetchRawVouchers_step mapVouchers_step
  getVouchers_step deleteVoucher_step getAvailableWLANs_step : steps.

(* ---------------------------------------------------------------------- *)
(** ** Frames of the cloud client *)

Section ClientSteps.
Context `{Environment}.
Variable P : Event -> Prop.
Variable S : ServiceState -> ServiceState -> Prop.
Context {S_pre : PreOrder S}.
Hypothesis P_logged : forall l lv m, P (Logged l lv m).
Import VorioClient.

#[local] Hint Resolve P_logged : steps.

Lemma client_log_step lv m : respects P S (VorioClient.log lv m).
Proof. unfold VorioClient.log. stepwise. Qed.
#[local] Hint Resolve client_log_step : steps.

Lemma handleError_step {A} c out : respects P S (@handleError _ A c out).
Proof. unfold handleError. stepwise. Qed.
#[local] Hint Resolve handleError_step : steps.

Lemma client_request_step c :
  (forall out, P (CloudHttp c out)) -> respects P S (VorioClient.request c).
Proof. intros Pc. unfold VorioClient.request. stepwise. Qed.
#[local] Hint Resolve client_request_step : steps.

Lemma disconnect_step :
  (forall out, P (CloudHttp PostDisconnect out)) -> respects P S disconnect.
Proof. intros Pc. unfold disconnect. stepwise. Qed.

Lemma syncVouchers_step vs :
  (forall out, P (CloudHttp (PostSync vs) out)) -> respects P S (syncVouchers vs).
Proof. intros Pc. unfold syncVouchers. stepwise. Qed.

Lemma acknowledgeCommand_step id :
  (forall out, P (CloudHttp (PostAck id) out)) -> respects P S (acknowledgeCommand id).
Proof. intros Pc. unfold acknowledgeCommand. stepwise. Qed.

Lemma completeCommand_step id ok err :
  (forall out, P (CloudHttp (PostComplete id ok err) out)) ->
  respects P S (completeCommand id ok err).
Proof. intros Pc. unfold completeCommand. stepwise. Qed.

End ClientSteps.

#[export] Hint Resolve handleError_step client_request_step disconnect_step
  syncVouchers_step acknowledgeCommand_step completeCommand_step : steps.

(* ---------------------------------------------------------------------- *)
(** ** Frames of the service *)

Section ServiceSteps.
Context `{Environment}.
Import SyncService.

Lemma quiet_logged l lv m : quiet (Logged l lv m).
Proof. exact I. Qed.
Lemma quiet_ctl r o : quiet (CtlHttp r o).
Proof. exact I. Qed.
Lemma quiet_clear h : quiet (ClearInterval h).
Proof. exact I. Qed.
Lemma quiet_disconnect o : quiet (CloudHttp PostDisconnect o).
Proof. exact I. Qed.
Lemma quiet_sync vs o : quiet (CloudHttp (PostSync vs) o).
Proof. exact I. Qed.
#[local] Hint Resolve quiet_logged quiet_ctl quiet_clear quiet_disconnect quiet_sync : steps.

Lemma service_log_step S {S_pre : PreOrder S} lv m : respects quiet S (SyncService.log lv m).
Proof. unfold SyncService.log. stepwise. Qed.
#[local] Hint Resolve service_log_step : steps.

Lemma logError_step S {S_pre : PreOrder S} e : respects quiet S (logError e).
Proof. unfold logError. stepwise. Qed.
#[local] Hint Resolve logError_step : steps.

(** A sync leaves the control state of the service alone. *)
Lemma performSync_step fuel : respects quiet keepsControl (performSync fuel).
Proof.
  unfold performSync, withStatus. stepwise. repeat split.
Qed.
#[local] Hint Resolve performSync_step : steps.

Lemma handleDeleteVoucherCommand_step fuel c :
  respects quiet keepsControl (handleDeleteVoucherCommand fuel c).
Proof. unfold handleDeleteVoucherCommand. stepwise. Qed.
#[local] Hint Resolve handleDeleteVoucherCommand_step : steps.

End ServiceSteps.

#[export] Hint Resolve quiet_logged quiet_ctl quiet_clear quiet_disconnect quiet_sync
  service_log_step logError_step performSync_step handleDeleteVoucherCommand_step : steps.

(* ---------------------------------------------------------------------- *)
(** ** Outcomes

    Methods that always return a value, and methods that always come to
    an end, with a value or with an error. *)

Section Runs.
Context `{Environment}.

Lemma bind_run {A B} (m : M A) (k : A -> M B) w :
  bind m k w = match m w with
               | (Ok a, w') => k a w'
               | (Throw e, w') => (Throw e, w')
               | (Diverge, w') => (Diverge, w')
               end.
Proof. reflexivity. Qed.

Lemma tryCatch_run {A} (m : M A) (h : Error -> M A) w :
  tryCatch m h w = match m w with
                   | (Throw e, w') => h e w'
                   | r => r
                   end.
Proof. reflexivity. Qed.

Lemma safe_halts {A} (m : M A) : safe m -> halts m.
Proof. intros Hs w. destruct (Hs w) as (a & w' & ->). discriminate. Qed.

Lemma halts_ret {A} (a : A) : halts (ret a).
Proof. intros w. discriminate. Qed.

Lemma halts_throw {A} e : halts (@throw _ A e).
Proof. intros w. discriminate. Qed.

Lemma halts_bind {A B} (m : M A) (k : A -> M B) :
  halts m -> (forall a, halts (k a)) -> halts (bind m k).
Proof.
  intros Hm Hk w. rewrite bind_run. specialize (Hm w).
  destruct (m w) as [[a|e|] w1]; cbn in *; [apply Hk|discriminate|congruence].
Qed.

Lemma halts_tryCatch {A} (m : M A) (h : Error -> M A) :
  halts m -> (forall e, halts (h e)) -> halts (tryCatch m h).
Proof.
  intros Hm Hh w. rewrite tryCatch_run. specialize (Hm w).
  destruct (m w) as [[a|e|] w1]; cbn in *; [discriminate|apply Hh|congruence].
Qed.

Lemma safe_ret {A} (a : A) : safe (ret a).
Proof. intros w. eexists _, _. reflexivity. Qed.

Lemma safe_bind {A B} (m : M A) (k : A -> M B) :
  safe m -> (forall a, safe (k a)) -> safe (bind m k).
Proof.
  intros Hm Hk w. rewrite bind_run. destruct (Hm w) as (a & w1 & ->). apply Hk.
Qed.

Lemma safe_tryCatch {A} (m : M A) (h : Error -> M A) :
  halts m -> (forall e, safe (h e)) -> safe (tryCatch m h).
Proof.
  intros Hm Hh w. rewrite tryCatch_run. specialize (Hm w).
  destruct (m w) as [[a|e|] w1]; cbn in *; [eexists _, _; reflexivity|apply Hh|congruence].
Qed.

Lemma safe_emit e : safe (emit e).
Proof. intros w. eexists _, _. reflexivity. Qed.

Lemma safe_exchange {R} (ask : Net -> R * Net) record : safe (exchange ask record).
Proof. intros w. unfold exchange. destruct (ask (net w)). eexists _, _. reflexivity. Qed.

Lemma safe_now : safe now.
Proof. intros w. unfold now. destruct (dateNow (net w)). eexists _, _. reflexivity. Qed.

Lemma safe_withAdapter f : safe (withAdapter f).
Proof. intros w. eexists _, _. reflexivity. Qed.

Lemma safe_withClient f : safe (withClient f).
Proof. intros w. eexists _, _. reflexivity. Qed.

Lemma safe_withService f : safe (withService f).
Proof. intros w. eexists _, _. reflexivity. Qed.

Lemma safe_getAdapter : safe getAdapter.
Proof. intros w. eexists _, _. reflexivity. Qed.

Lemma safe_getService : safe getService.
Proof. intros w. eexists _, _. reflexivity. Qed.

End Runs.

Create HintDb runs.
#[export] Hint Resolve halts_ret halts_throw safe_ret safe_emit safe_exchange safe_now
  safe_withAdapter safe_withClient safe_withService safe_getAdapter safe_getService : runs.
#[export] Hint Resolve safe_halts : runs.

Ltac totality :=
  repeat first
    [ solve [auto with runs]
    | apply halts_bind; [| intros ?]
    | apply halts_tryCatch; [| intros ?]
    | apply safe_bind; [| intros ?]
    | apply safe_tryCatch; [| intros ?]
    | match goal with
      | |- halts (if ?b then _ else _) => destruct b
      | |- halts (match ?x with _ => _ end) => destruct x
      | |- safe (if ?b then _ else _) => destruct b
      | |- safe (match ?x with _ => _ end) => destruct x
      end ].

(* ---------------------------------------------------------------------- *)
(** ** The adapter: login, session expiry, WLAN listing *)

Section AdapterRuns.
Context `{Environment}.
Import UniFiAdapter.

Lemma log_safe lv m : safe (UniFiAdapter.log lv m).
Proof. unfold UniFiAdapter.log. totality. Qed.
#[local] Hint Resolve log_safe : runs.

Lemma request_halts c : halts (request c).
Proof. unfold request. totality. Qed.
#[local] Hint Resolve request_halts : runs.

Lemma logConnectivityResult_safe b t e : safe (logConnectivityResult b t e).
Proof. unfold logConnectivityResult. totality. Qed.
#[local] Hint Resolve logConnectivityResult_safe : runs.

Lemma testConnectivity_halts : halts testConnectivity.
Proof. unfold testConnectivity, probe. totality. Qed.
#[local] Hint Resolve testConnectivity_halts : runs.

Lemma handleAuthError_halts {A} e m : halts (@handleAuthError _ A e m).
Proof. unfold handleAuthError. totality. Qed.
#[local] Hint Resolve handleAuthError_halts : runs.

Lemma login_halts : halts login.
Proof.
  unfold login, loginWithApiKey, loginWithCredentials, setSiteId, setLoggedIn. totality.
Qed.

Lemma logout_safe : safe logout.
Proof. unfold logout. totality. Qed.

Lemma fetchWLANs_halts : halts fetchWLANs.
Proof. unfold fetchWLANs. totality. Qed.
#[local] Hint Resolve fetchWLANs_halts : runs.

Lemma app_one {A} (l : list A) (a : A) (rest : list A) : (l ++ [a]) ++ rest = l ++ a :: rest.
Proof. rewrite <- app_assoc. reflexivity. Qed.

(** Claim C9.  [login] against a host that refuses the connection: the
    connectivity probe is the only request that goes out, and [login]
    raises a [ConnectionError] that carries the configured host and port
    and the code [ECONNREFUSED].  The adapter state is left as it was and
    no authentication request is ever sent: the trace grows by the two
    announcements, the refused probe and the two lines of the
    connectivity report, nothing else. *)
Theorem login_refused w message n :
  controller probeRequest (net w) = (NetworkError (Some "ECONNREFUSED") message, n) ->
  exists w',
    login w = (Throw (ConnectionError (getConnectionErrorMessage "ECONNREFUSED") "unifi"
                        (Some (host (unifi config))) (Some (port (unifi config)))
                        (Some "ECONNREFUSED")), w') /\
    adapter w' = adapter w /\
    trace w' = trace w ++
      [ Logged "UniFi" info "Connecting to UniFi Controller...";
        Logged "UniFi" info "Testing connectivity to controller...";
        CtlHttp probeRequest (NetworkError (Some "ECONNREFUSED") message);
        Logged "Network" error
          "Cannot reach UniFi Controller: Connection refused - Controller is not reachable";
        Logged "Network" info
          "Hint: Check if the controller is running and the host/port are correct." ].
Proof.
  intros Hrefused.
  unfold login, testConnectivity, probe, logConnectivityResult, UniFiAdapter.log.
  unfold bind, tryCatch, exchange, emit. cbn. rewrite Hrefused. cbn.
  eexists. split; [reflexivity|]. cbn. split; [reflexivity|].
  repeat rewrite app_one. reflexivity.
Qed.


Lemma request_rejected c w :
  rejected (fst (controller (outgoing (adapter w) c) (net w))) ->
  exists e,
    request c w =
      (Throw e, {| adapter := adapter w; vorioClient := vorioClient w; service := service w;
                   net := snd (controller (outgoing (adapter w) c) (net w));
                   trace := trace w ++ [CtlHttp (outgoing (adapter w) c)
                                          (fst (controller (outgoing (adapter w) c) (net w)))] |}).
Proof.
  intros Hrej. unfold request, bind, getAdapter, exchange. cbn.
  destruct (controller (outgoing (adapter w) c) (net w)) as [[r|code message] n]; cbn in *.
  - rewrite Hrej. eexists. reflexivity.
  - eexists. reflexivity.
Qed.


#[local] Arguments formatErrorForUser : simpl never.
#[local] Arguments getConnectionErrorMessage : simpl never.
#[local] Arguments statusError : simpl never.
#[local] Arguments String.append : simpl never.
#[local] Arguments captureSession : simpl never.
#[local] Arguments outgoing : simpl never.

Ltac crunch :=
  repeat (cbn in *; try discriminate;
          match goal with
          | H : (_, _) = (_, _) |- _ => inversion H; clear H; subst
          | H : context [let (_, _) := ?x in _] |- _ => destruct x eqn:?
          | H : context [match ?x with _ => _ end] |- _ => destruct x eqn:?
          | H : context [if ?x then _ else _] |- _ => destruct x eqn:?
          end).

Lemma login_logs_in w w' : login w = (Ok tt, w') -> isLoggedIn (adapter w') = true.
Proof.
  unfold login, testConnectivity, probe, loginWithApiKey, loginWithCredentials, request,
    handleAuthError, logConnectivityResult, setSiteId, setLoggedIn, UniFiAdapter.log,
    bind, tryCatch, exchange, emit, withAdapter, getAdapter, ret, throw.
  intros Hrun. crunch; reflexivity.
Qed.


Lemma call_outgoing a c : CtlRequest.call (outgoing a c) = c.
Proof. unfold outgoing. destruct useApiKey; reflexivity. Qed.


End AdapterRuns.

(* ---------------------------------------------------------------------- *)
(** ** The service: the stop sequence *)

Section ServiceRuns.
Context `{Environment}.
Import SyncService.

#[local] Arguments formatErrorForUser : simpl never.
#[local] Arguments statusError : simpl never.
#[local] Arguments String.append : simpl never.
#[local] Arguments String.concat : simpl never.
#[local] Arguments UniFiAdapter.captureSession : simpl never.
#[local] Arguments UniFiAdapter.outgoing : simpl never.
#[local] Arguments cloudUrl : simpl never.
#[local] Arguments showZ : simpl never.

(** Case analysis on everything a run branches on. *)
Ltac branches :=
  repeat (cbn;
          match goal with
          | |- context [cloud ?c ?n] => destruct (cloud c n) eqn:?
          | |- context [controller ?r ?n] => destruct (controller r n) eqn:?
          | |- context [dateNow ?n] => destruct (dateNow n) eqn:?
          | |- context [match ?x with _ => _ end] =>
              lazymatch x with
              | context [match _ with _ => _ end] => fail
              | _ => destruct x eqn:?
              end
          end).

Ltac trace_done :=
  cbn; repeat rewrite app_one; first [reflexivity | symmetry; apply app_nil_r].

Lemma disconnect_run w :
  exists w' evs,
    VorioClient.disconnect w = (Ok tt, w') /\
    service w' = service w /\ adapter w' = adapter w /\
    trace w' = trace w ++ evs /\ Forall quiet evs /\
    In PostDisconnect (cloudCalls evs).
Proof.
  unfold VorioClient.disconnect, VorioClient.request, VorioClient.handleError,
    VorioClient.log, bind, tryCatch, exchange, emit, withClient, ret, throw.
  branches; cbn;
    (eexists _, _; refine (conj eq_refl (conj eq_refl (conj eq_refl (conj _ _))));
     [ trace_done | split; [repeat constructor | cbn; auto] ]).
Qed.

Lemma logout_run w :
  exists w' evs,
    UniFiAdapter.logout w = (Ok tt, w') /\
    isLoggedIn (adapter w') = false /\ service w' = service w /\
    trace w' = trace w ++ evs /\ Forall quiet evs /\ cloudCalls evs = [].
Proof.
  unfold UniFiAdapter.logout, UniFiAdapter.request, UniFiAdapter.log,
    bind, tryCatch, exchange, emit, withAdapter, getAdapter, ret, throw.
  branches; cbn;
    (eexists _, _; refine (conj eq_refl (conj _ (conj eq_refl (conj _ _))));
     [ cbn; try (apply negb_true_iff; assumption); reflexivity
     | trace_done | split; [repeat constructor | reflexivity] ]).
Qed.


#[local] Arguments VorioClient.disconnect : simpl never.
#[local] Arguments UniFiAdapter.logout : simpl never.

Lemma stop_idle w : isRunning (service w) = false -> stop w = (Ok tt, w).
Proof. intros Hidle. unfold stop, bind, getService. cbn. rewrite Hidle. reflexivity. Qed.

(** What [stop] does to a running service. *)
Lemma stop_running w :
  isRunning (service w) = true ->
  exists w' evs,
    stop w = (Ok tt, w') /\
    stopped (service w') /\ isLoggedIn (adapter w') = false /\
    trace w' = trace w ++ evs /\ Forall quiet evs /\
    In (Logged "Sync" info "Stopping sync service...") evs /\
    (forall h, commandPollInterval (service w) = Some h -> In (ClearInterval h) evs) /\
    (forall h, syncInterval (service w) = Some h -> In (ClearInterval h) evs) /\
    In PostDisconnect (cloudCalls evs).
Proof.
  intros Hrun.
  unfold stop, setRunning, setCommandPollInterval, setSyncInterval, setConnected,
    withStatus, SyncService.log.
  unfold bind at 1. cbn [getService]. rewrite Hrun. cbn [negb].
  destruct (commandPollInterval (service w)) as [h1|] eqn:E1;
    destruct (syncInterval (service w)) as [h2|] eqn:E2;
    cbn [bind tryCatch emit withService ret adapter vorioClient service net trace].
  all: rewrite bind_run, tryCatch_run.
  all: match goal with |- context [VorioClient.disconnect ?W] =>
      destruct (disconnect_run W) as (w3 & evs3 & Hd & Hs3 & Ha3 & Ht3 & Hq3 & Hcc3)
    end.
  all: rewrite Hd.
  all: rewrite bind_run, tryCatch_run.
  all: destruct (logout_run w3) as (w4 & evs4 & Hl & Ha4 & Hs4 & Ht4 & Hq4 & Hcc4).
  all: rewrite Hl.
  all: cbn [bind emit withService adapter vorioClient service net trace].
  all: cbn [service trace] in Hs3, Ht3.
  all: eexists _, _.
  all: refine (conj eq_refl _).
  all: cbn [service adapter trace status connected isRunning syncInterval commandPollInterval].
  all: rewrite Hs4, Hs3; cbn [status connected isRunning syncInterval commandPollInterval].
  all: split; [unfold stopped; cbn; auto|].
  all: split; [exact Ha4|].
  all: split; [rewrite Ht4, Ht3; repeat rewrite <- app_assoc; reflexivity|].
  all: split; [repeat (apply Forall_app; split; auto); repeat constructor|].
  all: cbn [app]; split; [left; reflexivity|].
  all: split; [intros h Hh; inversion Hh; subst; cbn [In]; auto|].
  all: split; [intros h Hh; inversion Hh; subst; cbn [In]; auto|].
  all: unfold cloudCalls in *; cbn [flat_map app]; rewrite !flat_map_app;
    apply in_or_app; left; exact Hcc3.
Qed.

End ServiceRuns.

(* ---------------------------------------------------------------------- *)
(** ** Bounds on the loops

    The page loop of the voucher list and the calls that
    [fetchRawVouchers] and [deleteVoucher] make to themselves are bounded
    in the model.  A run that comes to an end within its bound is the same
    under every larger bound, so that the statements below, made for runs
    that come to an end, do not depend on the bound that was chosen. *)

Section Fuel.
Context `{Environment}.

Lemma extends_refl {A} (m : M A) : extends m m.
Proof. intros w r w' E _. exact E. Qed.

Lemma extends_diverge {A} (m : M A) : extends diverge m.
Proof. intros w r w' E Hr. inversion E; subst. congruence. Qed.

Lemma extends_bind {A B} (m m' : M A) (k k' : A -> M B) :
  extends m m' -> (forall a, extends (k a) (k' a)) ->
  extends (bind m k) (bind m' k').
Proof.
  intros Hm Hk w r w' E Hr. rewrite bind_run in *.
  destruct (m w) as [[a| e |] w1] eqn:Em.
  - rewrite (Hm _ _ _ Em) by discriminate. exact (Hk a _ _ _ E Hr).
  - rewrite (Hm _ _ _ Em) by discriminate. exact E.
  - inversion E; subst. congruence.
Qed.

Lemma extends_tryCatch {A} (m m' : M A) (h h' : Error -> M A) :
  extends m m' -> (forall e, extends (h e) (h' e)) ->
  extends (tryCatch m h) (tryCatch m' h').
Proof.
  intros Hm Hh w r w' E Hr. rewrite tryCatch_run in *.
  destruct (m w) as [[a| e |] w1] eqn:Em.
  - rewrite (Hm _ _ _ Em) by discriminate. exact E.
  - rewrite (Hm _ _ _ Em) by discriminate. exact (Hh e _ _ _ E Hr).
  - inversion E; subst. congruence.
Qed.

End Fuel.

Create HintDb fuel.
#[export] Hint Resolve extends_refl extends_diverge : fuel.

Ltac more_fuel :=
  repeat first
    [ solve [auto with fuel]
    | apply extends_bind; [|intros ?]
    | apply extends_tryCatch; [|intros ?]
    | match goal with
      | |- extends (if ?b then _ else _) (if ?b then _ else _) => destruct b
      | |- extends (match ?x with _ => _ end) (match ?x with _ => _ end) => destruct x
      end ].

Section FuelOfTheAgent.
Context `{Environment}.

Lemma fetchPages_more fuel : forall fuel' vouchers offset,
  (fuel <= fuel')%nat ->
  extends (UniFiAdapter.fetchPages fuel vouchers offset)
          (UniFiAdapter.fetchPages fuel' vouchers offset).
Proof.
  induction fuel as [|fuel IH]; intros fuel' vouchers offset Hle.
  - apply extends_diverge.
  - destruct fuel' as [|fuel']; [lia|].
    assert (Hle' : (fuel <= fuel')%nat) by lia.
    pose proof (fun vs off => IH fuel' vs off Hle') as IH'.
    cbn [UniFiAdapter.fetchPages]. more_fuel.
Qed.

Lemma fetchVouchersOnce_more pages pages' :
  (pages <= pages')%nat ->
  extends (UniFiAdapter.fetchVouchersOnce pages) (UniFiAdapter.fetchVouchersOnce pages').
Proof.
  intros Hle. unfold UniFiAdapter.fetchVouchersOnce, UniFiAdapter.fetchVouchersNewApi.
  destruct UniFiAdapter.useApiKey; [apply fetchPages_more; exact Hle|apply extends_refl].
Qed.

Lemma fetchRawVouchers_more pages pages' fuel : forall fuel',
  (pages <= pages')%nat -> (fuel <= fuel')%nat ->
  extends (UniFiAdapter.fetchRawVouchers pages fuel)
          (UniFiAdapter.fetchRawVouchers pages' fuel').
Proof.
  induction fuel as [|fuel IH]; intros fuel' Hp Hle.
  - apply extends_diverge.
  - destruct fuel' as [|fuel']; [lia|].
    assert (IH' := IH fuel' Hp ltac:(lia)).
    pose proof (fetchVouchersOnce_more Hp).
    cbn [UniFiAdapter.fetchRawVouchers]. more_fuel.
Qed.

Lemma getVouchers_more fuel fuel' :
  (fuel <= fuel')%nat ->
  extends (UniFiAdapter.getVouchers fuel) (UniFiAdapter.getVouchers fuel').
Proof.
  intros Hle. pose proof (@fetchRawVouchers_more fuel fuel' fuel fuel' Hle Hle).
  unfold UniFiAdapter.getVouchers. more_fuel.
Qed.

Lemma deleteVoucher_more fuel : forall fuel' voucherId,
  (fuel <= fuel')%nat ->
  extends (UniFiAdapter.deleteVoucher fuel voucherId)
          (UniFiAdapter.deleteVoucher fuel' voucherId).
Proof.
  induction fuel as [|fuel IH]; intros fuel' voucherId Hle.
  - apply extends_diverge.
  - destruct fuel' as [|fuel']; [lia|].
    assert (IH' := IH fuel' voucherId ltac:(lia)).
    cbn [UniFiAdapter.deleteVoucher]. more_fuel.
Qed.

Lemma performSync_more fuel fuel' :
  (fuel <= fuel')%nat ->
  extends (SyncService.performSync fuel) (SyncService.performSync fuel').
Proof.
  intros Hle. pose proof (getVouchers_more Hle).
  unfold SyncService.performSync. more_fuel.
Qed.

Lemma dispatchCommand_more fuel fuel' command :
  (fuel <= fuel')%nat ->
  extends (SyncService.dispatchCommand fuel command)
          (SyncService.dispatchCommand fuel' command).
Proof.
  intros Hle.
  pose proof (performSync_more Hle). pose proof (getVouchers_more Hle).
  pose proof (fun v => @deleteVoucher_more fuel fuel' v Hle).
  unfold SyncService.dispatchCommand, SyncService.handleSyncNowCommand,
    SyncService.handleDeleteVoucherCommand. cbv zeta. more_fuel.
Qed.

Lemma processCommand_more fuel fuel' command :
  (fuel <= fuel')%nat ->
  extends (SyncService.processCommand fuel command)
          (SyncService.processCommand fuel' command).
Proof.
  intros Hle. pose proof (@dispatchCommand_more fuel fuel' command Hle).
  unfold SyncService.processCommand. more_fuel.
Qed.

Lemma forEachCommand_more fuel fuel' commands :
  (fuel <= fuel')%nat ->
  extends (SyncService.forEachCommand fuel commands)
          (SyncService.forEachCommand fuel' commands).
Proof.
  intros Hle. induction commands as [|c rest IH]; [apply extends_refl|].
  pose proof (@processCommand_more fuel fuel' c Hle).
  cbn [SyncService.forEachCommand]. more_fuel.
Qed.

End FuelOfTheAgent.

(* ---------------------------------------------------------------------- *)
(** ** The service: command processing *)

Section Commands.
Context `{Environment}.
Import SyncService.

#[local] Arguments formatErrorForUser : simpl never.
#[local] Arguments statusError : simpl never.
#[local] Arguments String.append : simpl never.
#[local] Arguments String.concat : simpl never.
#[local] Arguments cloudUrl : simpl never.
#[local] Arguments showZ : simpl never.
#[local] Arguments VorioClient.disconnect : simpl never.
#[local] Arguments UniFiAdapter.logout : simpl never.

(** Stopping moves the service to rest, whatever state it starts from. *)
Lemma stop_step : respects quiet settles stop.
Proof.
  intros w. destruct (isRunning (service w)) eqn:Hrun.
  - destruct (stop_running w Hrun) as (w' & evs & -> & Hst & _ & Ht & Hq & _).
    cbn [snd]. split; [eauto|]. split; auto.
  - rewrite (stop_idle w Hrun). cbn [snd].
    split; [exists []; split; [now rewrite app_nil_r|constructor]|split; auto].
Qed.

Lemma accepted_status (c : CloudCall) n :
  accepts c ->
  exists st data n', cloud c n = (CloudResponded st data, n') /\
                     ((200 <=? st) && (st <? 300))%bool = true.
Proof.
  intros Hacc. specialize (Hacc n).
  destruct (cloud c n) as [[st data|code message|message] n']; cbn in Hacc; try contradiction.
  exists st, data, n'. split; [reflexivity|].
  apply andb_true_intro. split; [apply Z.leb_le|apply Z.ltb_lt]; lia.
Qed.

Lemma acknowledgeCommand_accepted id w :
  accepts (PostAck id) ->
  exists w',
    VorioClient.acknowledgeCommand id w = (Ok tt, w') /\
    adapter w' = adapter w /\ service w' = service w /\
    trace w' = trace w ++ [ Logged "Vorio" debug "Acknowledging command";
                            CloudHttp (PostAck id) (fst (cloud (PostAck id) (net w))) ].
Proof.
  intros Hacc. destruct (accepted_status (net w) Hacc) as (st & data & n' & Hc & Hst).
  unfold VorioClient.acknowledgeCommand, VorioClient.request, VorioClient.log,
    bind, exchange, emit, ret.
  cbn. rewrite Hc. cbn. rewrite Hst. cbn.
  eexists. repeat split. cbn. rewrite app_one. reflexivity.
Qed.

Lemma completeCommand_accepted id ok err w :
  accepts (PostComplete id ok err) ->
  exists w',
    VorioClient.completeCommand id ok err w = (Ok tt, w') /\
    adapter w' = adapter w /\ service w' = service w /\
    trace w' = trace w ++ [ Logged "Vorio" debug "Completing command";
                            CloudHttp (PostComplete id ok err)
                              (fst (cloud (PostComplete id ok err) (net w))) ].
Proof.
  intros Hacc. destruct (accepted_status (net w) Hacc) as (st & data & n' & Hc & Hst).
  unfold VorioClient.completeCommand, VorioClient.request, VorioClient.log,
    bind, exchange, emit, ret.
  cbn. rewrite Hc. cbn. rewrite Hst. cbn.
  eexists. repeat split. cbn. rewrite app_one. reflexivity.
Qed.

(** Dispatching makes no report to the cloud, and leaves the control state
    of the service alone unless the command is a disconnect. *)
Lemma dispatchCommand_keepsControl fuel c :
  VorioCommand.type c <> "disconnect" ->
  respects quiet keepsControl (dispatchCommand fuel c).
Proof.
  intros Hty. unfold dispatchCommand, handleSyncNowCommand.
  destruct (String.eqb_spec (VorioCommand.type c) "sync_now"); [stepwise|].
  destruct (String.eqb_spec (VorioCommand.type c) "delete_voucher"); [stepwise|].
  destruct (String.eqb_spec (VorioCommand.type c) "disconnect"); [contradiction|].
  stepwise.
Qed.

Lemma dispatchCommand_step fuel c : respects quiet settles (dispatchCommand fuel c).
Proof.
  destruct (String.eqb_spec (VorioCommand.type c) "disconnect") as [Hty|Hty].
  - unfold dispatchCommand, handleDisconnectCommand. rewrite Hty. cbn.
    pose proof stop_step. stepwise.
  - eapply respects_weaken; [| |apply dispatchCommand_keepsControl; exact Hty]; auto.
    apply keepsControl_settles.
Qed.

Lemma quiet_notCompletionOf id e : quiet e -> notCompletionOf id e.
Proof. destruct e as [| |[]|]; cbn; auto; contradiction. Qed.

Lemma processCommand_step fuel c target :
  VorioCommand.id c <> target ->
  respects (notCompletionOf target) settles (processCommand fuel c).
Proof.
  intros Hid.
  assert (Hd : respects (notCompletionOf target) settles (dispatchCommand fuel c)).
  { eapply respects_weaken; [| |apply dispatchCommand_step]; auto.
    intros e. apply quiet_notCompletionOf. }
  assert (Hl : forall lv m, respects (notCompletionOf target) settles (SyncService.log lv m)).
  { intros. eapply respects_weaken; [| |apply (@service_log_step _ settles _)]; auto.
    intros e. apply quiet_notCompletionOf. }
  assert (He : forall e, respects (notCompletionOf target) settles (logError e)).
  { intros. eapply respects_weaken; [| |apply (@logError_step _ settles _)]; auto.
    intros e'. apply quiet_notCompletionOf. }
  assert (Ha : respects (notCompletionOf target) settles
                 (VorioClient.acknowledgeCommand (VorioCommand.id c))).
  { apply acknowledgeCommand_step; [exact _| |]; cbn; auto. }
  assert (Hc : forall ok err, respects (notCompletionOf target) settles
                 (VorioClient.completeCommand (VorioCommand.id c) ok err)).
  { intros. apply completeCommand_step; [exact _| |]; cbn; auto. }
  unfold processCommand. stepwise.
Qed.

Lemma forEachCommand_step fuel commands target :
  ~ In target (map VorioCommand.id commands) ->
  respects (notCompletionOf target) settles (forEachCommand fuel commands).
Proof.
  induction commands as [|c rest IH]; intros Hnot; cbn [forEachCommand].
  - apply respects_ret. exact _.
  - cbn in Hnot. apply respects_bind; [exact _| |intros _].
    + apply processCommand_step. intros Heq. apply Hnot. left. exact Heq.
    + apply IH. intros Hin. apply Hnot. right. exact Hin.
Qed.


Lemma logError_run e w :
  exists w' logs,
    logError e w = (Ok tt, w') /\
    service w' = service w /\ adapter w' = adapter w /\ net w' = net w /\
    trace w' = trace w ++ logs /\ cloudCalls logs = [].
Proof.
  unfold logError, SyncService.log, bind, emit, ret.
  destruct (ifTruthy (fmt_suggestion (formatErrorForUser e))); cbn;
    eexists _, _; (refine (conj eq_refl (conj eq_refl (conj eq_refl (conj eq_refl (conj _ _)))));
                   [cbn; repeat rewrite app_one; reflexivity | reflexivity]).
Qed.

Lemma cloudCalls_app l1 l2 : cloudCalls (l1 ++ l2) = cloudCalls l1 ++ cloudCalls l2.
Proof. unfold cloudCalls. apply flat_map_app. Qed.

(** What [processCommand] does when the cloud accepts its reports: it
    acknowledges, dispatches, and reports according to the outcome. *)
Lemma processCommand_run fuel c w :
  reportsAccepted ->
  exists w1,
    (SyncService.log info "Processing command" ;;
     VorioClient.acknowledgeCommand (VorioCommand.id c)) w = (Ok tt, w1) /\
    service w1 = service w /\ adapter w1 = adapter w /\
    trace w1 = trace w ++
      [ Logged "Sync" info "Processing command";
        Logged "Vorio" debug "Acknowledging command";
        CloudHttp (PostAck (VorioCommand.id c))
          (fst (cloud (PostAck (VorioCommand.id c)) (net w))) ] /\
    forall d w2, dispatchCommand fuel c w1 = (d, w2) ->
      exists w3 report,
        processCommand fuel c w = (match d with Diverge => Diverge | _ => Ok tt end, w3) /\
        service w3 = service w2 /\ adapter w3 = adapter w2 /\
        trace w3 = trace w2 ++ report /\
        cloudCalls report =
          match d with
          | Ok true => [PostComplete (VorioCommand.id c) true None]
          | Throw e => [PostComplete (VorioCommand.id c) false (Some (getErrorMessage e))]
          | _ => []
          end /\
        (d = Ok false -> w3 = w2 /\ report = []).
Proof.
  intros [Hack Hcomplete].
  set (w0 := snd (SyncService.log info "Processing command" w)).
  destruct (@acknowledgeCommand_accepted (VorioCommand.id c) w0 (Hack _))
    as (w1 & Ha & Had & Hsv & Htr).
  exists w1.
  assert (Hpre : (SyncService.log info "Processing command" ;;
                  VorioClient.acknowledgeCommand (VorioCommand.id c)) w = (Ok tt, w1)).
  { rewrite bind_run. unfold SyncService.log at 1. cbn [emit]. exact Ha. }
  split; [exact Hpre|]. split; [rewrite Hsv; reflexivity|]. split; [rewrite Had; reflexivity|].
  split; [rewrite Htr; subst w0; cbn; rewrite app_one; reflexivity|].
  intros d w2 Hd.
  unfold processCommand. rewrite bind_run.
  unfold SyncService.log at 1. cbn [emit]. fold w0.
  change ({| adapter := adapter w; vorioClient := vorioClient w; service := service w;
             net := net w; trace := trace w ++ [Logged "Sync" info "Processing command"] |})
    with w0.
  rewrite bind_run, Ha, tryCatch_run, bind_run, Hd.
  destruct d as [[|]|e|].
  - destruct (@completeCommand_accepted (VorioCommand.id c) true None w2 (Hcomplete _ _ _))
      as (w3 & Hc & Had3 & Hsv3 & Htr3).
    rewrite Hc. eexists w3, _.
    refine (conj eq_refl (conj Hsv3 (conj Had3 (conj Htr3 (conj _ _)))));
      [reflexivity | intros ?; discriminate].
  - eexists w2, []. repeat split. cbn. now rewrite app_nil_r.
  - rewrite bind_run. unfold SyncService.log at 1. cbn [emit]. rewrite bind_run.
    match goal with |- context [logError e ?W] =>
      destruct (logError_run e W) as (w3 & logs & Hl & Hsv3 & Had3 & Hn3 & Htr3 & Hcc3)
    end.
    rewrite Hl.
    destruct (@completeCommand_accepted (VorioCommand.id c) false (Some (getErrorMessage e))
                w3 (Hcomplete _ _ _)) as (w4 & Hc & Had4 & Hsv4 & Htr4).
    rewrite Hc. cbn [service adapter trace] in *.
    eexists _, (Logged "Sync" error "Command failed" :: logs ++ _).
    refine (conj eq_refl (conj _ (conj _ (conj _ (conj _ _))))); [| | | |intros ?; discriminate].
    + congruence.
    + congruence.
    + rewrite Htr4, Htr3. rewrite app_one. rewrite <- app_assoc. reflexivity.
    + cbn [cloudCalls flat_map app]. fold (cloudCalls (logs ++ [Logged "Vorio" debug "Completing command"; CloudHttp (PostComplete (VorioCommand.id c) false (Some (getErrorMessage e))) (fst (cloud (PostComplete (VorioCommand.id c) false (Some (getErrorMessage e))) (net w3)))])).
      rewrite cloudCalls_app, Hcc3. reflexivity.
  - eexists _, []. repeat split; try (intros ?; discriminate). cbn. now rewrite app_nil_r.
Qed.


Lemma stop_returns w : exists w', stop w = (Ok tt, w').
Proof.
  destruct (isRunning (service w)) eqn:Hrun.
  - destruct (stop_running w Hrun) as (w' & evs & Hst & _). eauto.
  - eexists. apply stop_idle. exact Hrun.
Qed.

(** A disconnect is dispatched to the stop sequence and tells
    [processCommand] to return; no other command does. *)
Lemma dispatchCommand_disconnect fuel c w :
  VorioCommand.type c = "disconnect" ->
  exists w',
    handleDisconnectCommand w = (Ok tt, w') /\
    dispatchCommand fuel c w = (Ok false, w').
Proof.
  intros Hty. unfold dispatchCommand. rewrite Hty. cbn [String.eqb Ascii.eqb Bool.eqb].
  unfold handleDisconnectCommand.
  destruct (stop_returns (snd (SyncService.log info "Received disconnect command" w)))
    as (w' & Hs).
  exists w'. unfold SyncService.log in *. cbn [emit snd] in Hs.
  rewrite !bind_run. cbn [emit]. rewrite Hs. split; reflexivity.
Qed.

Lemma dispatchCommand_other fuel c w :
  VorioCommand.type c <> "disconnect" ->
  fst (dispatchCommand fuel c w) <> Ok false.
Proof.
  intros Hty. unfold dispatchCommand.
  destruct (String.eqb_spec (VorioCommand.type c) "sync_now") as [E1|E1].
  { rewrite bind_run. destruct (handleSyncNowCommand fuel w) as [[[]|err|] w']; discriminate. }
  destruct (String.eqb_spec (VorioCommand.type c) "delete_voucher") as [E2|E2].
  { rewrite bind_run.
    destruct (handleDeleteVoucherCommand fuel c w) as [[[]|err|] w']; discriminate. }
  destruct (String.eqb_spec (VorioCommand.type c) "disconnect"); [contradiction|].
  rewrite bind_run. unfold SyncService.log. cbn. discriminate.
Qed.

Lemma forEachCommand_app fuel l1 l2 w :
  forEachCommand fuel (l1 ++ l2) w =
  match forEachCommand fuel l1 w with
  | (Ok _, w') => forEachCommand fuel l2 w'
  | (Throw e, w') => (Throw e, w')
  | (Diverge, w') => (Diverge, w')
  end.
Proof.
  revert w. induction l1 as [|c l1 IH]; intros w; cbn [app forEachCommand].
  - reflexivity.
  - rewrite !bind_run. destruct (processCommand fuel c w) as [[[]|e|] w1]; auto.
Qed.

(** With its reports accepted, [processCommand] never throws. *)
Lemma processCommand_outcome fuel c w :
  reportsAccepted ->
  fst (processCommand fuel c w) = Ok tt \/ fst (processCommand fuel c w) = Diverge.
Proof.
  intros Hacc. destruct (processCommand_run fuel c w Hacc) as (w1 & _ & _ & _ & _ & Hd).
  destruct (dispatchCommand fuel c w1) as [d w2] eqn:E.
  destruct (Hd d w2 eq_refl) as (w3 & report & -> & _).
  destruct d; cbn; auto.
Qed.

Lemma forEachCommand_outcome fuel commands w :
  reportsAccepted ->
  fst (forEachCommand fuel commands w) = Ok tt \/
  fst (forEachCommand fuel commands w) = Diverge.
Proof.
  intros Hacc. revert w. induction commands as [|c rest IH]; intros w; cbn [forEachCommand].
  - left. reflexivity.
  - rewrite bind_run. destruct (processCommand_outcome fuel c w Hacc) as [Hp|Hp];
      destruct (processCommand fuel c w) as [[[]|e|] w1]; cbn in Hp; try discriminate; auto.
Qed.

Lemma no_completion_reported id evs :
  Forall (notCompletionOf id) evs ->
  forall success error, ~ In (PostComplete id success error) (cloudCalls evs).
Proof.
  intros Hall success error. induction Hall as [|e evs He Hall IH]; cbn; [auto|].
  intros Hin. apply in_app_or in Hin. destruct Hin as [Hin|Hin]; [|auto].
  destruct e as [| |call out|]; cbn in Hin; try contradiction.
  destruct Hin as [Hin|[]]. destruct call; try discriminate.
  inversion Hin; subst. cbn in He. congruence.
Qed.

End Commands.

(* ---------------------------------------------------------------------- *)
(** ** The adapter: voucher mapping *)

Section Mapping.
Context `{Environment}.
Import UniFiAdapter.

Lemma truthy_Z_nonzero (z : Z) : z <> 0 -> truthy z = true.
Proof.
  intros Hz. unfold truthy, truthy_Z. destruct (Z.eqb_spec z 0); [contradiction|reflexivity].
Qed.

Lemma truthy_string_nonempty (s : string) : s <> "" -> truthy s = true.
Proof. destruct s; [congruence|reflexivity]. Qed.

Lemma jsOr_truthy {A} `{Truthy A} (x : A) (b : option A) :
  truthy x = true -> Some x ||| b = Some x.
Proof. intros Hx. unfold jsOr. cbn. rewrite Hx. reflexivity. Qed.

Lemma jsOrDefault_truthy {A} `{Truthy A} (x d : A) :
  truthy x = true -> Some x ||: d = x.
Proof. intros Hx. cbn. rewrite Hx. reflexivity. Qed.

Lemma ifTruthy_truthy {A} `{Truthy A} (x : A) :
  truthy x = true -> ifTruthy (Some x) = Some x.
Proof. intros Hx. cbn. rewrite Hx. reflexivity. Qed.

Lemma countOf_jsOr modern legacy default n :
  countOf modern legacy default n -> modern ||| legacy ||: default = n.
Proof.
  unfold countOf, notGiven.
  intros [[-> Hn]|[[Hm [-> Hn]]|[Hm [Hl ->]]]].
  - rewrite jsOr_truthy by (apply truthy_Z_nonzero; exact Hn).
    apply jsOrDefault_truthy, truthy_Z_nonzero, Hn.
  - replace (modern ||| Some n) with (Some n) by (destruct Hm as [-> | ->]; reflexivity).
    apply jsOrDefault_truthy, truthy_Z_nonzero, Hn.
  - destruct Hm as [-> | ->], Hl as [-> | ->]; reflexivity.
Qed.

(** Claim C2.  The status that the mapping derives, from the counts of
    the raw record: a record whose [expired] flag is set is mapped to
    [EXPIRED], whatever its counts and its explicit status.  A record
    with no explicit status and no such flag, whose quota is [q] (under
    the modern name [authorizedGuestLimit], else under the legacy name
    [quota], else 1) and whose use count is [u] (under
    [authorizedGuestCount], else under [used], else 0), is mapped to
    [USED] when [q] is 1 and [u] at least 1, to [VALID_ONE] when [q] is 1
    and [u] is 0, and to [VALID_MULTI] when [q] exceeds 1; the mapped
    voucher has these very counts. *)
Theorem derived_status (nowMs : Z) (v : UniFiVoucher.t) :
  let m := mapVoucher nowMs v in
  (UniFiVoucher.expired v = Some true -> MappedVoucher.status m = "EXPIRED") /\
  (UniFiVoucher.status v = None -> UniFiVoucher.expired v <> Some true ->
   forall q u,
     countOf (UniFiVoucher.authorizedGuestLimit v) (UniFiVoucher.quota v) 1 q ->
     countOf (UniFiVoucher.authorizedGuestCount v) (UniFiVoucher.used v) 0 u ->
     MappedVoucher.quota m = q /\ MappedVoucher.used m = u /\
     (q = 1 -> u >= 1 -> MappedVoucher.status m = "USED") /\
     (q = 1 -> u = 0 -> MappedVoucher.status m = "VALID_ONE") /\
     (q > 1 -> MappedVoucher.status m = "VALID_MULTI")).
Proof.
  cbv zeta. unfold mapVoucher; cbn [MappedVoucher.status MappedVoucher.quota MappedVoucher.used].
  split.
  - intros ->. reflexivity.
  - intros -> Hexp q u Hq Hu. cbn [ifTruthy].
    rewrite (countOf_jsOr Hq), (countOf_jsOr Hu).
    assert (Hne : match UniFiVoucher.expired v with
                  | Some true => "EXPIRED"
                  | _ => if ((0 <? u) && (q =? 1))%bool then "USED"
                         else if q =? 1 then "VALID_ONE" else "VALID_MULTI"
                  end
                  = if ((0 <? u) && (q =? 1))%bool then "USED"
                    else if q =? 1 then "VALID_ONE" else "VALID_MULTI").
    { destruct (UniFiVoucher.expired v) as [[|]|]; congruence. }
    rewrite Hne. split; [reflexivity|]. split; [reflexivity|]. repeat split.
    + intros Hq1 Hu1. rewrite Hq1. destruct (Z.ltb_spec 0 u); [reflexivity|lia].
    + intros Hq1 Hu0. rewrite Hq1, Hu0. reflexivity.
    + intros Hq1. destruct (Z.eqb_spec q 1); [lia|]. rewrite andb_false_r. reflexivity.
Qed.

(** Claim C3, as the code has it.  Where a raw record gives a field
    under its modern name, the mapped voucher takes that value whenever
    it is truthy: a number other than 0, a string other than the empty
    one.  A modern value of 0 or of the empty string falls through to
    the legacy value of the same record, and from a legacy value that is
    0 or empty as well to the default of the field: 1 for the quota, the
    code for the identifier, and the legacy value itself for the fields
    that have no other default.  The dates follow the same rule, the
    modern variant being a date string and the legacy one a number. *)
Theorem modern_fields_preferred (nowMs : Z) (v : UniFiVoucher.t) :
  let m := mapVoucher nowMs v in
  (* a truthy modern value wins, whatever the legacy value *)
  (forall x, UniFiVoucher.timeLimitMinutes v = Some x -> x <> 0 ->
             MappedVoucher.duration m = x) /\
  (forall x, UniFiVoucher.authorizedGuestLimit v = Some x -> x <> 0 ->
             MappedVoucher.quota m = x) /\
  (forall x, UniFiVoucher.authorizedGuestCount v = Some x -> x <> 0 ->
             MappedVoucher.used m = x) /\
  (forall x, UniFiVoucher.id v = Some x -> x <> "" -> MappedVoucher.id m = x) /\
  (forall x, UniFiVoucher.txRateLimitKbps v = Some x -> x <> 0 ->
             MappedVoucher.qosRateMaxUp m = Some x) /\
  (forall x, UniFiVoucher.rxRateLimitKbps v = Some x -> x <> 0 ->
             MappedVoucher.qosRateMaxDown m = Some x) /\
  (forall x, UniFiVoucher.name v = Some x -> x <> "" -> MappedVoucher.note m = Some x) /\
  (forall x, UniFiVoucher.createdAt v = Some x -> x <> "" ->
             MappedVoucher.createTime m = unixSeconds x) /\
  (forall x, UniFiVoucher.activatedAt v = Some x -> x <> "" ->
             MappedVoucher.startTime m = Some (unixSeconds x)) /\
  (* a modern 0 or empty string gives way to the legacy value *)
  (forall y, UniFiVoucher.timeLimitMinutes v = Some 0 -> UniFiVoucher.duration v = Some y ->
             MappedVoucher.duration m = y) /\
  (forall y, UniFiVoucher.authorizedGuestLimit v = Some 0 -> UniFiVoucher.quota v = Some y ->
             MappedVoucher.quota m = if y =? 0 then 1 else y) /\
  (forall y, UniFiVoucher.authorizedGuestCount v = Some 0 -> UniFiVoucher.used v = Some y ->
             MappedVoucher.used m = y) /\
  (forall y, UniFiVoucher.id v = Some "" -> UniFiVoucher._id v = Some y ->
             MappedVoucher.id m = if String.eqb y "" then UniFiVoucher.code v else y) /\
  (forall y, UniFiVoucher.txRateLimitKbps v = Some 0 ->
             UniFiVoucher.qos_rate_max_up v = Some y ->
             MappedVoucher.qosRateMaxUp m = Some y) /\
  (forall y, UniFiVoucher.rxRateLimitKbps v = Some 0 ->
             UniFiVoucher.qos_rate_max_down v = Some y ->
             MappedVoucher.qosRateMaxDown m = Some y) /\
  (forall y, UniFiVoucher.name v = Some "" -> UniFiVoucher.note v = Some y ->
             MappedVoucher.note m = Some y) /\
  (forall y, UniFiVoucher.createdAt v = Some "" -> UniFiVoucher.create_time v = Some y ->
             MappedVoucher.createTime m = Num (if y =? 0 then nowMs / 1000 else y)) /\
  (forall y, UniFiVoucher.activatedAt v = Some "" -> UniFiVoucher.start_time v = Some y ->
             MappedVoucher.startTime m = if y =? 0 then None else Some (Num y)).
Proof.
  cbv zeta. unfold mapVoucher. cbn [MappedVoucher.duration MappedVoucher.quota
    MappedVoucher.used MappedVoucher.id MappedVoucher.qosRateMaxUp
    MappedVoucher.qosRateMaxDown MappedVoucher.note MappedVoucher.createTime
    MappedVoucher.startTime].
  repeat split; intros x Hx.
  - intros Hnz. rewrite Hx, jsOr_truthy by (apply truthy_Z_nonzero; exact Hnz).
    apply jsOrDefault_truthy, truthy_Z_nonzero, Hnz.
  - intros Hnz. rewrite Hx, jsOr_truthy by (apply truthy_Z_nonzero; exact Hnz).
    apply jsOrDefault_truthy, truthy_Z_nonzero, Hnz.
  - intros Hnz. rewrite Hx, jsOr_truthy by (apply truthy_Z_nonzero; exact Hnz).
    apply jsOrDefault_truthy, truthy_Z_nonzero, Hnz.
  - intros Hnz. rewrite Hx, jsOr_truthy by (apply truthy_string_nonempty; exact Hnz).
    apply jsOrDefault_truthy, truthy_string_nonempty, Hnz.
  - intros Hnz. rewrite Hx. apply jsOr_truthy, truthy_Z_nonzero, Hnz.
  - intros Hnz. rewrite Hx. apply jsOr_truthy, truthy_Z_nonzero, Hnz.
  - intros Hnz. rewrite Hx. apply jsOr_truthy, truthy_string_nonempty, Hnz.
  - intros Hnz. rewrite Hx, ifTruthy_truthy by (apply truthy_string_nonempty; exact Hnz). reflexivity.
  - intros Hnz. rewrite Hx, ifTruthy_truthy by (apply truthy_string_nonempty; exact Hnz). reflexivity.
  - intros Hl. rewrite Hx, Hl. unfold jsOr, jsOrDefault, truthy, truthy_option, truthy_Z.
    cbn. destruct (Z.eqb_spec x 0); cbn; lia.
  - intros Hl. rewrite Hx, Hl. unfold jsOr, jsOrDefault, truthy, truthy_option, truthy_Z.
    cbn. destruct (Z.eqb_spec x 0); cbn; lia.
  - intros Hl. rewrite Hx, Hl. unfold jsOr, jsOrDefault, truthy, truthy_option, truthy_Z.
    cbn. destruct (Z.eqb_spec x 0); cbn; lia.
  - intros Hl. rewrite Hx, Hl. unfold jsOr, jsOrDefault, truthy, truthy_option. cbn.
    destruct x; reflexivity.
  - intros Hl. rewrite Hx, Hl. reflexivity.
  - intros Hl. rewrite Hx, Hl. reflexivity.
  - intros Hl. rewrite Hx, Hl. reflexivity.
  - intros Hl. rewrite Hx, Hl. unfold ifTruthy, truthy, truthy_Z. cbn.
    destruct (Z.eqb_spec x 0); reflexivity.
  - intros Hl. rewrite Hx, Hl. unfold ifTruthy, truthy, truthy_Z. cbn.
    destruct (Z.eqb_spec x 0); reflexivity.
Qed.




Lemma mapVouchers_run vs w :
  exists ms w',
    mapVouchers vs w = (Ok ms, w') /\
    adapter w' = adapter w /\ vorioClient w' = vorioClient w /\
    service w' = service w /\ trace w' = trace w /\
    Forall2 (fun v m => exists t, m = mapVoucher t v) vs ms.
Proof.
  revert w. induction vs as [|v vs IH]; intros w; cbn [mapVouchers].
  - exists [], w. repeat split. constructor.
  - rewrite bind_run.
    assert (Hclock : exists t w1,
               (if consultsClock v then now else ret 0) w = (Ok t, w1) /\
               adapter w1 = adapter w /\ vorioClient w1 = vorioClient w /\
               service w1 = service w /\ trace w1 = trace w).
    { destruct (consultsClock v); [|exists 0, w; repeat split].
      unfold now. destruct (dateNow (net w)) as [t n]. eexists _, _. repeat split. }
    destruct Hclock as (t & w1 & -> & Ha1 & Hc1 & Hs1 & Ht1).
    destruct (IH w1) as (ms & w2 & Hrest & Ha2 & Hc2 & Hs2 & Ht2 & Hall).
    rewrite bind_run, Hrest. cbn [ret].
    eexists _, _. split; [reflexivity|].
    repeat split; try congruence.
    constructor; [exists t; reflexivity|exact Hall].
Qed.



(** Claim C7, as the code has it.  The mapping copies the two counts
    from the raw record (the modern pair, or the legacy pair when there
    is no modern one) without comparing them: [used <= quota] holds of the
    mapped voucher exactly when it holds of the raw record.  A record
    that the controller reports as [EXPIRED], by status or by flag, is
    mapped to [EXPIRED]. *)
Theorem counts_are_copied (nowMs : Z) (v : UniFiVoucher.t) :
  let m := mapVoucher nowMs v in
  (forall q u,
     UniFiVoucher.authorizedGuestLimit v = Some q -> q <> 0 ->
     UniFiVoucher.authorizedGuestCount v = Some u ->
     UniFiVoucher.used v = None ->
     MappedVoucher.quota m = q /\ MappedVoucher.used m = u /\
     (MappedVoucher.used m <= MappedVoucher.quota m <-> u <= q)) /\
  (forall q u,
     UniFiVoucher.authorizedGuestLimit v = None ->
     UniFiVoucher.authorizedGuestCount v = None ->
     UniFiVoucher.quota v = Some q -> q <> 0 ->
     UniFiVoucher.used v = Some u ->
     MappedVoucher.quota m = q /\ MappedVoucher.used m = u /\
     (MappedVoucher.used m <= MappedVoucher.quota m <-> u <= q)) /\
  (UniFiVoucher.status v = Some "EXPIRED" -> MappedVoucher.status m = "EXPIRED") /\
  (UniFiVoucher.expired v = Some true -> MappedVoucher.status m = "EXPIRED").
Proof.
  cbv zeta. unfold mapVoucher.
  cbn [MappedVoucher.quota MappedVoucher.used MappedVoucher.status].
  split; [|split; [|split]].
  - intros q u Hq Hnz Hu Hlegacy. rewrite Hq, Hu, Hlegacy.
    unfold jsOr, jsOrDefault. repeat (unfold truthy, truthy_option, truthy_Z; cbn).
    destruct (Z.eqb_spec q 0); [contradiction|]. cbn.
    destruct (Z.eqb_spec q 0); [contradiction|]. cbn.
    destruct (Z.eqb_spec u 0); cbn; try destruct (Z.eqb_spec u 0); cbn; repeat split; lia.
  - intros q u Hl Hc Hq Hnz Hu. rewrite Hl, Hc, Hq, Hu.
    unfold jsOr, jsOrDefault. repeat (unfold truthy, truthy_option, truthy_Z; cbn).
    destruct (Z.eqb_spec q 0); [contradiction|]. cbn.
    destruct (Z.eqb_spec q 0); [contradiction|]. cbn.
    destruct (Z.eqb_spec u 0); cbn; try destruct (Z.eqb_spec u 0); cbn; repeat split; lia.
  - intros ->. destruct (UniFiVoucher.expired v) as [[|]|]; reflexivity.
  - intros ->. reflexivity.
Qed.

(** Claim C10.  A legacy record whose quota is 0, which the raw type
    documents as unlimited uses, is mapped to quota 1: its image is the
    image of the same record with quota 1, and with a use count of at
    least 1 and no explicit status it is given the status [USED]. *)
Theorem unlimited_quota_becomes_single_use (nowMs : Z) (v : UniFiVoucher.t) :
  UniFiVoucher.legacy v ->
  UniFiVoucher.quota v = Some 0 ->
  let m := mapVoucher nowMs v in
  MappedVoucher.quota m = 1 /\
  m = mapVoucher nowMs (UniFiVoucher.with_quota (Some 1) v) /\
  (forall u, UniFiVoucher.used v = Some u -> u >= 1 ->
             UniFiVoucher.status v = None ->
             MappedVoucher.status m = "USED").
Proof.
  intros Hlegacy Hq. cbv zeta. destruct v.
  unfold UniFiVoucher.legacy in Hlegacy. cbn in Hlegacy, Hq.
  destruct Hlegacy as (? & ? & ? & ? & ? & ? & ? & ? & ? & ? & ? & ?). subst.
  unfold mapVoucher. cbn.
  split; [reflexivity|]. split; [reflexivity|].
  intros u -> Hu ->. cbn.
  unfold jsOrDefault, truthy, truthy_Z.
  destruct (Z.eqb_spec u 0); [lia|]. cbn.
  destruct (Z.ltb_spec 0 u); [reflexivity|lia].
Qed.

End Mapping.

(* ---------------------------------------------------------------------- *)
(** ** Runs on concrete scenarios *)

Section Runs_on_scenarios.
Import Scenario.



(** Claim C3, a record with both use counts, the modern one being 0: the
    mapped voucher takes the legacy count. *)
Lemma legacy_count_wins_over_zero :
  UniFiVoucher.authorizedGuestCount bothCounts = Some 0 /\
  UniFiVoucher.used bothCounts = Some 3 /\
  MappedVoucher.used (@UniFiAdapter.mapVoucher polling 0 bothCounts) = 3.
Proof. vm_compute. repeat split. Qed.

(** Claim C4, a tick with a batch of three, the second of which fails
    and the third of which is a [disconnect]: three acknowledgements, two
    completions. *)
Lemma disconnect_in_batch_is_not_completed :
  let r := @SyncService.commandPollTick polling 3 (start polling 0%nat true true) in
  fst r = Ok tt /\
  lifecycle (trace (snd r)) =
    [ PostAck "cmd-1"; PostComplete "cmd-1" true None;
      PostAck "cmd-2";
      PostComplete "cmd-2" false (Some "Request failed with status code 404");
      PostAck "cmd-3" ].
Proof. vm_compute. repeat split. Qed.


(** Claim C7, a record used five times with a quota of two: the mapped
    voucher has the same counts. *)
Lemma overused_voucher_is_mapped_as_is :
  UniFiVoucher.quota overused = Some 2 /\
  MappedVoucher.quota (@UniFiAdapter.mapVoucher polling 0 overused) = 2 /\
  MappedVoucher.used (@UniFiAdapter.mapVoucher polling 0 overused) = 5.
Proof. vm_compute. repeat split. Qed.



(** Claim C2 on a single-use record that has been used. *)
Lemma derived_status_witness :
  MappedVoucher.status (@UniFiAdapter.mapVoucher polling 0 usedOnce) = "USED".
Proof.
  refine (proj1 (proj2 (proj2 (proj2 (@derived_status polling 0 usedOnce) _ _ 1 1 _ _))) _ _).
  - reflexivity.
  - discriminate.
  - right. left. split; [left; reflexivity|]. split; [reflexivity|discriminate].
  - right. left. split; [left; reflexivity|]. split; [reflexivity|discriminate].
  - reflexivity.
  - lia.
Defined.

(** Claim C3 on a record with both use counts, neither being 0, and on
    one whose modern count is 0. *)
Lemma modern_fields_preferred_witness :
  MappedVoucher.used (@UniFiAdapter.mapVoucher polling 0 twoCounts) = 2 /\
  MappedVoucher.used (@UniFiAdapter.mapVoucher polling 0 bothCounts) = 3.
Proof.
  split.
  - refine (proj1 (proj2 (proj2 (@modern_fields_preferred polling 0 twoCounts))) 2 _ _).
    + reflexivity.
    + discriminate.
  - refine (proj1 (proj2 (proj2 (proj2 (proj2 (proj2 (proj2 (proj2 (proj2 (proj2 (proj2 (proj2
              (@modern_fields_preferred polling 0 bothCounts)))))))))))) 3 _ _);
      reflexivity.
Defined.

Lemma polling_reportsAccepted : @reportsAccepted polling.
Proof. split; intros; intros n; cbn; lia. Qed.


(** Claim C7 on the record used more often than its quota. *)
Lemma counts_are_copied_witness :
  MappedVoucher.quota (@UniFiAdapter.mapVoucher polling 0 overused) = 2 /\
  MappedVoucher.used (@UniFiAdapter.mapVoucher polling 0 overused) = 5 /\
  (MappedVoucher.used (@UniFiAdapter.mapVoucher polling 0 overused)
   <= MappedVoucher.quota (@UniFiAdapter.mapVoucher polling 0 overused) <-> 5 <= 2).
Proof.
  refine (proj1 (proj2 (@counts_are_copied polling 0 overused)) 2 5 _ _ _ _ _).
  - reflexivity.
  - reflexivity.
  - reflexivity.
  - discriminate.
  - reflexivity.
Defined.


(** Claim C9 on the host that refuses every connection. *)
Lemma login_refused_witness :
  exists w',
    @UniFiAdapter.login refusing (start refusing 0%nat false false) =
      (Throw (ConnectionError
                "Connection refused. The UniFi Controller at 192.168.1.1:8443 is not accepting connections. Please verify the controller is running and the host/port are correct."
                "unifi" (Some "192.168.1.1") (Some 8443) (Some "ECONNREFUSED")), w') /\
    exchanges (trace w') = [(GetRoot, None)].
Proof.
  destruct (@login_refused refusing (start refusing 0%nat false false)
              "connect ECONNREFUSED 192.168.1.1:8443" 1%nat eq_refl)
    as (w' & Hrun & _ & Htr).
  exists w'. split; [exact Hrun|]. rewrite Htr. reflexivity.
Defined.

(** Claim C10 on an unlimited legacy record that has been used once. *)
Lemma unlimited_quota_becomes_single_use_witness :
  MappedVoucher.quota (@UniFiAdapter.mapVoucher polling 0 unlimited) = 1 /\
  MappedVoucher.status (@UniFiAdapter.mapVoucher polling 0 unlimited) = "USED".
Proof.
  destruct (@unlimited_quota_becomes_single_use polling 0 unlimited) as (Hq & _ & Hs).
  - repeat split.
  - reflexivity.
  - split; [exact Hq|]. apply (Hs 1); [reflexivity|lia|reflexivity].
Defined.

End Runs_on_scenarios.

(* ====================================================================== *)
(** * Further properties of the adapter, the client and the service       *)
(* ====================================================================== *)

(* ---------------------------------------------------------------------- *)
(** ** The cloud client, and leaving the controller *)

Section MoreOfTheClient.
Context `{Environment}.

#[local] Arguments formatErrorForUser : simpl never.
#[local] Arguments statusError : simpl never.
#[local] Arguments String.append : simpl never.
#[local] Arguments String.concat : simpl never.
#[local] Arguments cloudUrl : simpl never.
#[local] Arguments showZ : simpl never.

(** Case analysis on everything a run branches on. *)
Ltac cases :=
  repeat (cbn;
          match goal with
          | |- context [cloud ?c ?n] => destruct (cloud c n) eqn:?
          | |- context [controller ?r ?n] => destruct (controller r n) eqn:?
          | |- context [dateNow ?n] => destruct (dateNow n) eqn:?
          | |- context [match ?x with _ => _ end] =>
              lazymatch x with
              | context [match _ with _ => _ end] => fail
              | _ => destruct x eqn:?
              end
          end).

Lemma exchanges_app t1 t2 : exchanges (t1 ++ t2) = exchanges t1 ++ exchanges t2.
Proof. unfold exchanges. apply flat_map_app. Qed.

Lemma cloud_request_run c w :
  exists w' evs,
    snd (VorioClient.request c w) = w' /\
    trace w' = trace w ++ evs /\ cloudCalls evs = [c] /\
    exchanges evs = [] /\
    adapter w' = adapter w /\ service w' = service w /\ vorioClient w' = vorioClient w /\
    match fst (cloud c (net w)) with
    | CloudResponded st data =>
        if ((200 <=? st) && (st <? 300))%bool then
          fst (VorioClient.request c w) = Ok data
        else
          exists message,
            fst (VorioClient.request c w) =
              Throw (VorioApiError message (Some st) (Some (cloudUrl c))) /\
            message =
              if st =? 401 then "Authentication failed. Please check your VORIO_AGENT_TOKEN."
              else if st =? 403 then
                "Access denied. The agent token may not have the required permissions."
              else if st =? 404 then "API endpoint not found. Please check the VORIO_API_URL."
              else if st =? 429 then "Rate limit exceeded. Please reduce sync frequency."
              else CloudData.error data ||| CloudData.message data
                   ||: getErrorMessage (statusError st)
    | CloudNoResponse code _ =>
        fst (VorioClient.request c w) =
          Throw (ConnectionError
                   "Could not connect to Vorio Cloud. Please check your network connection."
                   "vorio" (Some (apiUrl (vorio config))) None code)
    | CloudNotSent message =>
        fst (VorioClient.request c w) = Throw (VorioApiError message None None)
    end.
Proof.
  unfold VorioClient.request, VorioClient.handleError, VorioClient.log,
    bind, exchange, emit, ret, throw.
  cases; cbn;
    (eexists _, _; refine (conj eq_refl (conj _ (conj _ (conj _ (conj eq_refl (conj eq_refl (conj eq_refl _)))))));
     [ cbn; repeat rewrite app_one; first [reflexivity | symmetry; apply app_nil_r]
     | reflexivity | reflexivity | ]);
    try reflexivity; try (eexists; split; reflexivity).
Qed.

(** X19.  Every call of the cloud client sends exactly one request, no
    request to the controller, and changes no state of the agent. A 2xx
    answer resolves with its data; any other answer rejects with a
    VorioApiError that carries the status and the endpoint, with fixed
    messages for 401, 403, 404 and 429 and otherwise the body's error,
    else its message, else the status error's message; no answer rejects
    with a ConnectionError for service vorio, and a request that could not
    be sent with a VorioApiError without status. *)
Theorem cloud_failures_are_classified c w :
  exists w' evs,
    snd (VorioClient.request c w) = w' /\
    trace w' = trace w ++ evs /\ cloudCalls evs = [c] /\
    exchanges evs = [] /\
    adapter w' = adapter w /\ service w' = service w /\ vorioClient w' = vorioClient w /\
    match fst (cloud c (net w)) with
    | CloudResponded st data =>
        if ((200 <=? st) && (st <? 300))%bool then
          fst (VorioClient.request c w) = Ok data
        else
          exists message,
            fst (VorioClient.request c w) =
              Throw (VorioApiError message (Some st) (Some (cloudUrl c))) /\
            message =
              if st =? 401 then "Authentication failed. Please check your VORIO_AGENT_TOKEN."
              else if st =? 403 then
                "Access denied. The agent token may not have the required permissions."
              else if st =? 404 then "API endpoint not found. Please check the VORIO_API_URL."
              else if st =? 429 then "Rate limit exceeded. Please reduce sync frequency."
              else CloudData.error data ||| CloudData.message data
                   ||: getErrorMessage (statusError st)
    | CloudNoResponse code _ =>
        fst (VorioClient.request c w) =
          Throw (ConnectionError
                   "Could not connect to Vorio Cloud. Please check your network connection."
                   "vorio" (Some (apiUrl (vorio config))) None code)
    | CloudNotSent message =>
        fst (VorioClient.request c w) = Throw (VorioApiError message None None)
    end.
Proof. exact (cloud_request_run c w). Qed.


Lemma disconnect_effects w :
  exists w' evs,
    VorioClient.disconnect w = (Ok tt, w') /\
    vorioClient w' = {| connectionId := None; projectId := None |} /\
    adapter w' = adapter w /\ service w' = service w /\
    trace w' = trace w ++ evs /\ cloudCalls evs = [PostDisconnect] /\ exchanges evs = [].
Proof.
  unfold VorioClient.disconnect, VorioClient.request, VorioClient.handleError,
    VorioClient.log, bind, tryCatch, exchange, emit, withClient, ret, throw.
  cases; cbn;
    (eexists _, _; refine (conj eq_refl (conj eq_refl (conj eq_refl (conj eq_refl (conj _ _)))));
     [ cbn; repeat rewrite app_one; first [reflexivity | symmetry; apply app_nil_r]
     | split; reflexivity ]).
Qed.

(** X20.  VorioClient.disconnect never rejects: it posts the disconnect
    exactly once and, whatever the cloud answers, ends with connectionId
    and projectId cleared, without touching the controller, the adapter or
    the sync service's state. *)
Theorem disconnect_always_forgets w :
  exists w' evs,
    VorioClient.disconnect w = (Ok tt, w') /\
    vorioClient w' = {| connectionId := None; projectId := None |} /\
    adapter w' = adapter w /\ service w' = service w /\
    trace w' = trace w ++ evs /\ cloudCalls evs = [PostDisconnect] /\ exchanges evs = [].
Proof. exact (disconnect_effects w). Qed.

Lemma logout_effects w :
  exists w' evs,
    UniFiAdapter.logout w = (Ok tt, w') /\ trace w' = trace w ++ evs /\
    isLoggedIn (adapter w') = false /\
    siteId (adapter w') = siteId (adapter w) /\
    vorioClient w' = vorioClient w /\ service w' = service w /\
    cloudCalls evs = [] /\
    (isLoggedIn (adapter w) = false -> w' = w) /\
    (isLoggedIn (adapter w) = true ->
       cookies (adapter w') = [] /\ csrfToken (adapter w') = None /\
       map fst (exchanges evs) = if UniFiAdapter.useApiKey then [] else [PostLogout]).
Proof.
  unfold UniFiAdapter.logout, UniFiAdapter.request, UniFiAdapter.log,
    bind, tryCatch, exchange, emit, withAdapter, getAdapter, ret, throw.
  destruct (isLoggedIn (adapter w)) eqn:Hin; cbn.
  - destruct UniFiAdapter.useApiKey eqn:Hkey; cbn.
    + eexists _, _. split; [reflexivity|]. cbn. split; [reflexivity|].
      repeat split; try reflexivity. discriminate.
    + unfold UniFiAdapter.outgoing. rewrite Hkey.
      match goal with |- context [controller ?r ?n] => destruct (controller r n) as [[r0|c m] n0] eqn:Ec end;
        cbn; [destruct (UniFiAdapter.validateStatus (Response.status r0)); cbn|].
      all: eexists _, _; split; [reflexivity|]; cbn.
      all: split; [repeat rewrite app_one; reflexivity|].
      all: repeat split; try reflexivity; try discriminate.
  - exists w, (@nil Event). rewrite app_nil_r. repeat split; auto; discriminate.
Qed.

(** X6.  logout() never rejects and never contacts the cloud. When the
    adapter is not authenticated it does nothing at all; otherwise it ends
    with the authenticated flag cleared, the cookies and the CSRF token
    dropped and the site id kept, having posted /api/logout exactly when
    session authentication is in use (no request under API-key
    authentication), whether or not that request succeeded. *)
Theorem logout_clears_session w :
  exists w' evs,
    UniFiAdapter.logout w = (Ok tt, w') /\ trace w' = trace w ++ evs /\
    isLoggedIn (adapter w') = false /\
    siteId (adapter w') = siteId (adapter w) /\
    vorioClient w' = vorioClient w /\ service w' = service w /\
    cloudCalls evs = [] /\
    (isLoggedIn (adapter w) = false -> w' = w) /\
    (isLoggedIn (adapter w) = true ->
       cookies (adapter w') = [] /\ csrfToken (adapter w') = None /\
       map fst (exchanges evs) = if UniFiAdapter.useApiKey then [] else [PostLogout]).
Proof. exact (logout_effects w). Qed.

End MoreOfTheClient.

(* ---------------------------------------------------------------------- *)
(** ** Outcomes of login *)

Section LoginOutcomes.
Context `{Environment}.
Import UniFiAdapter.

#[local] Arguments formatErrorForUser : simpl never.
#[local] Arguments getConnectionErrorMessage : simpl never.
#[local] Arguments statusError : simpl never.
#[local] Arguments String.append : simpl never.
#[local] Arguments String.concat : simpl never.
#[local] Arguments outgoing : simpl never.

Ltac crunch :=
  repeat (cbn in *; try discriminate;
          match goal with
          | H : (_, _) = (_, _) |- _ => inversion H; clear H; subst
          | H : context [let (_, _) := ?x in _] |- _ => destruct x eqn:?
          | H : context [match ?x with _ => _ end] |- _ => destruct x eqn:?
          | H : context [if ?x then _ else _] |- _ => destruct x eqn:?
          end).

(** X1.  login() always settles. When it resolves the adapter is marked
    authenticated; when it rejects, the error is a ConnectionError or an
    AuthenticationError and the authenticated flag is what it was before
    the call. *)
Theorem login_outcomes w :
  match login w with
  | (Ok _, w') => isLoggedIn (adapter w') = true
  | (Throw e, w') =>
      (isConnectionError e || isAuthenticationError e)%bool = true /\
      isLoggedIn (adapter w') = isLoggedIn (adapter w)
  | (Diverge, _) => False
  end.
Proof.
  destruct (login w) as [[[]|e|] w'] eqn:Hrun.
  - exact (login_logs_in _ Hrun).
  - revert Hrun.
    unfold login, testConnectivity, probe, loginWithApiKey, loginWithCredentials, request,
      handleAuthError, logConnectivityResult, setSiteId, setLoggedIn, UniFiAdapter.log,
      bind, tryCatch, exchange, emit, withAdapter, getAdapter, ret, throw.
    intros Hrun. crunch; auto.
  - exact (login_halts w (f_equal fst Hrun)).
Qed.
End LoginOutcomes.

(* ---------------------------------------------------------------------- *)
(** ** The probe, and errors that are not retried *)

Section ProbeAndRetry.
Context `{Environment}.
Import UniFiAdapter.

#[local] Arguments formatErrorForUser : simpl never.
#[local] Arguments getConnectionErrorMessage : simpl never.
#[local] Arguments statusError : simpl never.
#[local] Arguments String.append : simpl never.
#[local] Arguments String.concat : simpl never.
#[local] Arguments outgoing : simpl never.
#[local] Arguments showZ : simpl never.

(** X2.  The connectivity probe counts every HTTP response, whatever its
    status, as reachable: testConnectivity returns true, logs the result
    and leaves the adapter's state unchanged. When no response arrives it
    throws a ConnectionError for service unifi that carries the configured
    host and port, the network error code (UNKNOWN when the error has
    none) and the message chosen for that code. *)
Theorem testConnectivity_any_answer :
  (forall w r n,
     controller probeRequest (net w) = (Responded r, n) ->
     exists w',
       testConnectivity w = (Ok true, w') /\ adapter w' = adapter w /\
       trace w' = trace w ++
         [ Logged "UniFi" info "Testing connectivity to controller...";
           CtlHttp probeRequest (Responded r);
           Logged "Network" info "UniFi Controller is reachable" ]) /\
  (forall w code message n,
     controller probeRequest (net w) = (NetworkError code message, n) ->
     exists w',
       testConnectivity w =
         (Throw (ConnectionError (getConnectionErrorMessage (code ||: "UNKNOWN")) "unifi"
                   (Some (host (unifi config))) (Some (port (unifi config)))
                   (Some (code ||: "UNKNOWN"))), w') /\
       adapter w' = adapter w /\
       exchanges (trace w') = exchanges (trace w) ++ [(GetRoot, None)]).
Proof.
  split.
  - intros w r n Hp.
    unfold testConnectivity, probe, logConnectivityResult, UniFiAdapter.log,
      bind, tryCatch, exchange, emit, ret. cbn. rewrite Hp. cbn.
    eexists. split; [reflexivity|]. split; [reflexivity|].
    cbn. repeat rewrite app_one. reflexivity.
  - intros w code message n Hp.
    unfold testConnectivity, probe, logConnectivityResult, UniFiAdapter.log,
      bind, tryCatch, exchange, emit, ret, throw. cbn. rewrite Hp. cbn.
    destruct (ifTruthy (fmt_suggestion (formatErrorForUser (AxiosError message code None))));
      cbn; (eexists; split; [reflexivity|]; split; [reflexivity|]);
      cbn; unfold exchanges; repeat rewrite flat_map_app; cbn;
      repeat rewrite app_nil_r; reflexivity.
Qed.

(** X11.  When the adapter is authenticated and the first attempt of
    fetching the vouchers or of deleting a voucher fails with an error
    that is not a session expiry (HTTP 401), the operation rejects with
    that very error at once: no new login, no second attempt, no further
    request. *)
Theorem other_errors_are_not_retried :
  (forall pages fuel w e w1,
     isLoggedIn (adapter w) = true ->
     fetchVouchersOnce pages (snd (UniFiAdapter.log info "Fetching vouchers..." w))
       = (Throw e, w1) ->
     isSessionExpired e = false ->
     fetchRawVouchers pages (S fuel) w = (Throw e, w1)) /\
  (forall fuel voucherId w e w1,
     isLoggedIn (adapter w) = true ->
     deleteVoucherOnce voucherId (snd (UniFiAdapter.log info "Deleting voucher..." w))
       = (Throw e, w1) ->
     isSessionExpired e = false ->
     deleteVoucher (S fuel) voucherId w = (Throw e, w1)).
Proof.
  split.
  - intros pages fuel w e w1 Hin Hrun Hexp.
    cbn [fetchRawVouchers]. rewrite bind_run. cbn [getAdapter]. rewrite Hin. cbn [negb].
    rewrite bind_run. cbn [ret]. rewrite bind_run.
    unfold UniFiAdapter.log in *. cbn [emit snd] in *.
    rewrite tryCatch_run, Hrun, Hexp. reflexivity.
  - intros fuel voucherId w e w1 Hin Hrun Hexp.
    cbn [deleteVoucher]. rewrite bind_run. cbn [getAdapter]. rewrite Hin. cbn [negb].
    rewrite bind_run. cbn [ret]. rewrite bind_run.
    unfold UniFiAdapter.log in *. cbn [emit snd] in *.
    rewrite tryCatch_run, Hrun, Hexp. reflexivity.
Qed.

End ProbeAndRetry.

(* ---------------------------------------------------------------------- *)
(** ** Deleting a voucher *)

Section Deleting.
Context `{Environment}.
Import UniFiAdapter.

#[local] Arguments formatErrorForUser : simpl never.
#[local] Arguments getConnectionErrorMessage : simpl never.
#[local] Arguments statusError : simpl never.
#[local] Arguments String.append : simpl never.
#[local] Arguments String.concat : simpl never.
#[local] Arguments showZ : simpl never.

(** X12.  Deleting a voucher through the modern API succeeds only on
    status 200 or 204. Any other status below 400 rejects with
    ControllerError 'Failed to delete voucher: HTTP <status>', a status
    from 400 rejects with the client's status error; in each case exactly
    one DELETE request is sent. *)
Theorem delete_accepts_200_and_204_only voucherId w r n :
  controller (outgoing (adapter w) (DeleteVoucher (siteId (adapter w)) voucherId)) (net w)
    = (Responded r, n) ->
  let st := Response.status r in
  exists w',
    deleteVoucherNewApi voucherId w =
      (if ((st =? 200) || (st =? 204))%bool then Ok tt
       else if st <? 400 then
         Throw (ControllerError
                  (String.append "Failed to delete voucher: HTTP " (showZ st)) "unifi")
       else Throw (statusError st), w') /\
    trace w' = trace w ++
      [CtlHttp (outgoing (adapter w) (DeleteVoucher (siteId (adapter w)) voucherId))
         (Responded r)].
Proof.
  intros Hc st. subst st.
  unfold deleteVoucherNewApi, request, bind, exchange, getAdapter, ret, throw, withAdapter,
    validateStatus.
  cbn. rewrite Hc. cbn.
  destruct (Z.eqb_spec (Response.status r) 200) as [E|N2].
  - rewrite E. cbn. destruct useApiKey; cbn; rewrite E; cbn; eexists; split; reflexivity.
  - destruct (Z.eqb_spec (Response.status r) 204) as [E|N4].
    + rewrite E. cbn. destruct useApiKey; cbn; rewrite E; cbn; eexists; split; reflexivity.
    + cbn. destruct (Z.ltb_spec (Response.status r) 400) as [L|G]; cbn.
      * destruct useApiKey; cbn;
          (destruct (Z.eqb_spec (Response.status r) 200); [lia|]);
          (destruct (Z.eqb_spec (Response.status r) 204); [lia|]);
          cbn; eexists; split; reflexivity.
      * destruct (Z.eqb_spec (Response.status r) 302); [lia|]. cbn.
        eexists; split; reflexivity.
Qed.

End Deleting.

(* ---------------------------------------------------------------------- *)
(** ** Requests of the adapter *)

Section AdapterRequests.
Context `{Environment}.
Variable P : Event -> Prop.
Variable S : ServiceState -> ServiceState -> Prop.
Context {S_pre : PreOrder S}.
Hypothesis P_logged : forall l lv m, P (Logged l lv m).
Hypothesis P_probe : forall o, P (CtlHttp UniFiAdapter.probeRequest o).
Hypothesis P_client : forall a c o, P (CtlHttp (UniFiAdapter.outgoing a c) o).
Import UniFiAdapter.

#[local] Hint Resolve P_logged P_probe P_client : steps.

Lemma log_sends lv m : respects P S (UniFiAdapter.log lv m).
Proof. unfold UniFiAdapter.log. stepwise. Qed.
#[local] Hint Resolve log_sends : steps.

Lemma request_sends c : respects P S (request c).
Proof.
  unfold request. apply respects_bind; [exact _|auto with steps|intros a]. cbv zeta. stepwise.
Qed.
#[local] Hint Resolve request_sends : steps.

Lemma probe_sends : respects P S probe.
Proof. unfold probe. stepwise. Qed.
#[local] Hint Resolve probe_sends : steps.

Lemma logConnectivityResult_sends b t e : respects P S (logConnectivityResult b t e).
Proof. unfold logConnectivityResult. stepwise. Qed.
#[local] Hint Resolve logConnectivityResult_sends : steps.

Lemma testConnectivity_sends : respects P S testConnectivity.
Proof. unfold testConnectivity. stepwise. Qed.
#[local] Hint Resolve testConnectivity_sends : steps.

Lemma setLoggedIn_sends b : respects P S (setLoggedIn b).
Proof. unfold setLoggedIn. stepwise. Qed.

Lemma setSiteId_sends b : respects P S (setSiteId b).
Proof. unfold setSiteId. stepwise. Qed.
#[local] Hint Resolve setLoggedIn_sends setSiteId_sends : steps.

Lemma handleAuthError_sends {A} e m : respects P S (@handleAuthError _ A e m).
Proof. unfold handleAuthError. stepwise. Qed.
#[local] Hint Resolve handleAuthError_sends : steps.

Lemma login_sends : respects P S login.
Proof. unfold login, loginWithApiKey, loginWithCredentials. stepwise. Qed.
#[local] Hint Resolve login_sends : steps.

Lemma logout_sends : respects P S logout.
Proof. unfold logout. stepwise. Qed.

Lemma fetchPages_sends fuel vs off : respects P S (fetchPages fuel vs off).
Proof.
  revert vs off. induction fuel as [|fuel IH]; intros vs off; cbn [fetchPages]; stepwise.
Qed.
#[local] Hint Resolve fetchPages_sends : steps.

Lemma fetchVouchersOnce_sends pages : respects P S (fetchVouchersOnce pages).
Proof. unfold fetchVouchersOnce, fetchVouchersNewApi, fetchVouchersLegacyApi. stepwise. Qed.
#[local] Hint Resolve fetchVouchersOnce_sends : steps.

Lemma fetchRawVouchers_sends pages fuel : respects P S (fetchRawVouchers pages fuel).
Proof.
  induction fuel as [|fuel IH]; cbn [fetchRawVouchers]; unfold setLoggedOut; stepwise.
Qed.
#[local] Hint Resolve fetchRawVouchers_sends : steps.

Lemma mapVouchers_sends vs : respects P S (mapVouchers vs).
Proof. induction vs as [|v vs IH]; cbn [mapVouchers]; stepwise. Qed.
#[local] Hint Resolve mapVouchers_sends : steps.

Lemma getVouchers_sends fuel : respects P S (getVouchers fuel).
Proof. unfold getVouchers. stepwise. Qed.

Lemma deleteVoucher_sends fuel id : respects P S (deleteVoucher fuel id).
Proof.
  induction fuel as [|fuel IH]; cbn [deleteVoucher];
    unfold setLoggedOut, deleteVoucherOnce, deleteVoucherNewApi, deleteVoucherLegacyApi;
    stepwise.
Qed.

Lemma getAvailableWLANs_sends : respects P S getAvailableWLANs.
Proof. unfold getAvailableWLANs, fetchWLANs. stepwise. Qed.

End AdapterRequests.

Section AdapterHeaders.
Context `{Environment}.
Import UniFiAdapter.

Lemma wellAddressed_logged l lv m : wellAddressed (Logged l lv m).
Proof. exact I. Qed.

Lemma wellAddressed_probe o : wellAddressed (CtlHttp probeRequest o).
Proof. left. reflexivity. Qed.

Lemma wellAddressed_client a c o : wellAddressed (CtlHttp (outgoing a c) o).
Proof. right. unfold clientHeaders, outgoing. destruct useApiKey; cbn; auto. Qed.

(** X7.  Every request that login, logout, getVouchers, deleteVoucher and
    getAvailableWLANs send to the controller is either the bare
    connectivity probe or a request of the adapter's HTTP client: under
    API-key authentication it carries the configured X-API-Key and neither
    cookie nor CSRF token, under session authentication it carries no API
    key. None of these operations changes the sync service's state. *)
Theorem requests_carry_the_client_headers :
  respects wellAddressed eq login /\
  respects wellAddressed eq logout /\
  (forall fuel, respects wellAddressed eq (getVouchers fuel)) /\
  (forall fuel voucherId, respects wellAddressed eq (deleteVoucher fuel voucherId)) /\
  respects wellAddressed eq getAvailableWLANs.
Proof.
  pose proof wellAddressed_logged. pose proof wellAddressed_probe.
  pose proof wellAddressed_client.
  split; [|split; [|split; [|split]]]; intros.
  - apply login_sends; auto; exact _.
  - apply logout_sends; auto; exact _.
  - apply getVouchers_sends; auto; exact _.
  - apply deleteVoucher_sends; auto; exact _.
  - apply getAvailableWLANs_sends; auto; exact _.
Qed.

End AdapterHeaders.

(* ---------------------------------------------------------------------- *)
(** ** The session of the adapter *)

Section AdapterSession.
Context `{Environment}.
Import UniFiAdapter.

#[local] Arguments statusError : simpl never.
#[local] Arguments String.append : simpl never.
#[local] Arguments join : simpl never.

(** X8.  A request through the adapter's client resolves exactly when the
    status is below 400 and otherwise rejects with the status error. Under
    session authentication a successful response that sets cookies
    replaces the stored cookies by the name=value part of each Set-Cookie
    line, and every later request sends them joined by '; ' in its Cookie
    header; a failed response, or any response under API-key
    authentication, leaves the adapter's state untouched. *)
Theorem session_cookies_are_sent_back c w r n :
  controller (outgoing (adapter w) c) (net w) = (Responded r, n) ->
  exists w',
    request c w =
      (if Response.status r <? 400 then Ok r else Throw (statusError (Response.status r)), w') /\
    (useApiKey = true -> adapter w' = adapter w) /\
    (400 <= Response.status r -> adapter w' = adapter w) /\
    (useApiKey = false -> Response.status r < 400 ->
       isLoggedIn (adapter w') = isLoggedIn (adapter w) /\
       (Response.setCookie r = None -> cookies (adapter w') = cookies (adapter w)) /\
       (forall cs, Response.setCookie r = Some cs ->
          cookies (adapter w') = map beforeSemicolon cs /\
          forall c', CtlRequest.cookie (outgoing (adapter w') c') =
                     match cs with
                     | [] => None
                     | _ => Some (join "; " (map beforeSemicolon cs))
                     end)).
Proof.
  intros Hc.
  assert (Hv : validateStatus (Response.status r) = (Response.status r <? 400)).
  { unfold validateStatus. destruct (Z.ltb_spec (Response.status r) 400); [reflexivity|].
    destruct (Z.eqb_spec (Response.status r) 302); [lia|reflexivity]. }
  unfold request, bind, exchange, getAdapter, ret, throw, withAdapter.
  cbn. rewrite Hc. cbn. rewrite Hv.
  destruct (Z.ltb_spec (Response.status r) 400) as [L|G]; cbn.
  - destruct useApiKey eqn:Hkey; cbn.
    + eexists. split; [reflexivity|]. cbn. repeat split; auto; discriminate.
    + eexists. split; [reflexivity|]. cbn.
      split; [discriminate|]. split; [lia|]. intros _ _.
      split; [reflexivity|]. split.
      * intros ->. reflexivity.
      * intros cs Hcs. rewrite Hcs. split; [reflexivity|]. intros c'.
        unfold outgoing. rewrite Hkey. cbn. rewrite Hcs.
        destruct cs; reflexivity.
  - eexists. split; [reflexivity|]. cbn. repeat split; auto; lia.
Qed.

End AdapterSession.

(* ---------------------------------------------------------------------- *)
(** ** Pages of the voucher list *)

Section Pagination.
Context `{Environment}.
Import UniFiAdapter.

#[local] Arguments statusError : simpl never.
#[local] Arguments String.append : simpl never.
#[local] Arguments outgoing : simpl never.
#[local] Arguments captureSession : simpl never.

Lemma voucherPages_app t1 t2 : voucherPages (t1 ++ t2) = voucherPages t1 ++ voucherPages t2.
Proof. unfold voucherPages. apply flat_map_app. Qed.

Lemma fetchPages_pages fuel : forall vouchers offset w result w',
  fetchPages fuel vouchers offset w = (Ok result, w') ->
  exists evs,
    trace w' = trace w ++ evs /\
    result = vouchers ++ List.concat (map snd (voucherPages evs)) /\
    contiguous offset (voucherPages evs).
Proof.
  induction fuel as [|fuel IH]; intros vouchers offset w result w' Hrun.
  - discriminate.
  - cbn [fetchPages] in Hrun. rewrite bind_run in Hrun. cbn [getAdapter] in Hrun.
    rewrite bind_run in Hrun.
    unfold request in Hrun. rewrite bind_run in Hrun. cbn [getAdapter] in Hrun.
    cbv zeta in Hrun. rewrite bind_run in Hrun.
    unfold exchange in Hrun at 1.
    destruct (controller (outgoing (adapter w)
                (GetVouchers (siteId (adapter w)) offset VOUCHER_PAGE_SIZE)) (net w))
      as [[r|code message] n] eqn:Ec; cbn [net adapter trace] in Hrun;
      [|discriminate].
    destruct (validateStatus (Response.status r)); [|discriminate].
    set (page := CtlHttp (outgoing (adapter w)
                   (GetVouchers (siteId (adapter w)) offset VOUCHER_PAGE_SIZE)) (Responded r)) in *.
    assert (Hpage : voucherPages [page] =
                    [(offset, VOUCHER_PAGE_SIZE,
                      match Response.data r with
                      | Some body => Body.vouchers body ??: []
                      | None => []
                      end)]).
    { unfold page, voucherPages. cbn. rewrite call_outgoing. reflexivity. }
    rewrite bind_run in Hrun.
    match type of Hrun with
    | context [(if useApiKey then ret tt else withAdapter ?f) ?W] =>
        assert (Hcap : exists W', (if useApiKey then ret tt else withAdapter f) W = (Ok tt, W') /\
                                  trace W' = trace w ++ [page] /\
                                  siteId (adapter W') = siteId (adapter w));
        [destruct useApiKey; eexists; (split; [reflexivity|split; reflexivity])|]
    end.
    destruct Hcap as (W' & Hcap & HtW & HsW). rewrite Hcap in Hrun. cbn [ret] in Hrun.
    destruct (Response.data r) as [body|] eqn:Ed.
    + cbv zeta in Hrun.
      destruct ((offset + Z.of_nat (List.length (Body.vouchers body ??: []))
                   <? Body.totalCount body ||: 0)
                && (0 <? Z.of_nat (List.length (Body.vouchers body ??: []))))%bool.
      * rewrite bind_run in Hrun. cbn [UniFiAdapter.log emit] in Hrun.
        apply IH in Hrun. destruct Hrun as (evs & Ht & Hr & Hc).
        cbn [trace] in Ht. rewrite HtW in Ht.
        exists (page :: Logged "UniFi" debug "Fetching more vouchers..." :: evs).
        split; [rewrite Ht; repeat rewrite <- app_assoc; reflexivity|].
        change (page :: Logged "UniFi" debug "Fetching more vouchers..." :: evs)
          with ([page] ++ [Logged "UniFi" debug "Fetching more vouchers..."] ++ evs).
        rewrite !voucherPages_app, Hpage. cbn [voucherPages flat_map app map List.concat snd].
        split; [rewrite Hr, <- app_assoc; reflexivity|].
        cbn [contiguous]. auto.
      * unfold UniFiAdapter.log, emit, bind, ret in Hrun. inversion Hrun; subst. clear Hrun.
        exists [page; Logged "UniFi" info "Vouchers fetched"].
        cbn [trace]. split; [rewrite HtW, <- app_assoc; reflexivity|].
        change [page; Logged "UniFi" info "Vouchers fetched"]
          with ([page] ++ [Logged "UniFi" info "Vouchers fetched"]).
        rewrite voucherPages_app, Hpage. cbn. rewrite app_nil_r. auto.
    + unfold UniFiAdapter.log, emit, bind, ret in Hrun. inversion Hrun; subst. clear Hrun.
      exists [page; Logged "UniFi" info "Vouchers fetched"].
      cbn [trace]. split; [rewrite HtW, <- app_assoc; reflexivity|].
      change [page; Logged "UniFi" info "Vouchers fetched"]
        with ([page] ++ [Logged "UniFi" info "Vouchers fetched"]).
      rewrite voucherPages_app, Hpage. cbn. rewrite app_nil_r. auto.
Qed.

(** X9.  When the paged voucher fetch returns, the pages it requested
    follow one another without gap or overlap: the first is asked at
    offset 0, each next one at the previous offset plus the number of
    records the previous page served, each with the fixed page size, and
    the result is the concatenation of the served pages in order. *)
Theorem pages_are_fetched_in_sequence fuel w result w' :
  fetchVouchersNewApi fuel w = (Ok result, w') ->
  exists evs,
    trace w' = trace w ++ evs /\
    result = List.concat (map snd (voucherPages evs)) /\
    contiguous 0 (voucherPages evs).
Proof. intros Hrun. exact (fetchPages_pages _ _ _ _ Hrun). Qed.

End Pagination.

(* ---------------------------------------------------------------------- *)
(** ** The last page, and the WLANs listed *)

Section PagingEnds.
Context `{Environment}.
Import UniFiAdapter.

#[local] Arguments statusError : simpl never.
#[local] Arguments String.append : simpl never.
#[local] Arguments outgoing : simpl never.
#[local] Arguments captureSession : simpl never.

(** X10.  The paged voucher fetch stops after a page that is empty or that
    reaches the reported total (totalCount, 0 when absent): it returns the
    records gathered so far followed by that page's records, after exactly
    that one request. *)
Theorem paging_stops_at_the_last_page fuel vouchers offset w r n :
  controller (outgoing (adapter w) (GetVouchers (siteId (adapter w)) offset VOUCHER_PAGE_SIZE))
    (net w) = (Responded r, n) ->
  Response.status r < 400 ->
  let served := match Response.data r with
                | Some body => Body.vouchers body ??: []
                | None => []
                end in
  let total := match Response.data r with
               | Some body => Body.totalCount body ||: 0
               | None => 0
               end in
  served = [] \/ total <= offset + Z.of_nat (List.length served) ->
  exists w',
    fetchPages (S fuel) vouchers offset w = (Ok (vouchers ++ served), w') /\
    trace w' = trace w ++
      [ CtlHttp (outgoing (adapter w) (GetVouchers (siteId (adapter w)) offset VOUCHER_PAGE_SIZE))
          (Responded r);
        Logged "UniFi" info "Vouchers fetched" ].
Proof.
  intros Hc Hst served total Hlast.
  assert (Hv : validateStatus (Response.status r) = true).
  { unfold validateStatus. destruct (Z.ltb_spec (Response.status r) 400); [reflexivity|lia]. }
  cbn [fetchPages]. rewrite bind_run. cbn [getAdapter]. rewrite bind_run.
  unfold request. rewrite bind_run. cbn [getAdapter]. cbv zeta. rewrite bind_run.
  unfold exchange at 1. rewrite Hc. cbn [net adapter trace]. rewrite Hv.
  rewrite bind_run.
  match goal with
  | |- context [(if useApiKey then ret tt else withAdapter ?f) ?W] =>
      assert (Hcap : exists W', (if useApiKey then ret tt else withAdapter f) W = (Ok tt, W') /\
                                trace W' = trace W);
      [destruct useApiKey; eexists; (split; reflexivity)|]
  end.
  destruct Hcap as (W' & Hcap & HtW). rewrite Hcap. cbn [ret trace] in *.
  subst served total.
  destruct (Response.data r) as [body|].
  - cbv zeta.
    replace ((offset + Z.of_nat (List.length (Body.vouchers body ??: []))
                <? Body.totalCount body ||: 0)
             && (0 <? Z.of_nat (List.length (Body.vouchers body ??: []))))%bool with false.
    + unfold UniFiAdapter.log, emit, bind, ret. eexists. split; [reflexivity|].
      cbn [trace]. rewrite HtW, <- app_assoc. reflexivity.
    + symmetry. destruct Hlast as [Hnil|Hle].
      * rewrite Hnil. cbn. apply andb_false_r.
      * apply andb_false_iff. left. apply Z.ltb_ge. exact Hle.
  - unfold UniFiAdapter.log, emit, bind, ret. eexists. rewrite app_nil_r.
    split; [reflexivity|]. cbn [trace]. rewrite HtW, <- app_assoc. reflexivity.
Qed.

End PagingEnds.

Section WLANs.
Context `{Environment}.
Import UniFiAdapter.

(** Whether the controller has the WLAN enabled: the modern flag when it
    is there, the legacy flag otherwise, enabled when there is neither. *)
Lemma notDisabled_mapWLAN wlan :
  notDisabled (mapWLAN wlan) = UniFiWLAN.isEnabled wlan ??? UniFiWLAN.enabled wlan ??: true.
Proof.
  unfold notDisabled, mapWLAN. cbn.
  destruct (UniFiWLAN.isEnabled wlan) as [[|]|]; cbn; try reflexivity.
  destruct (UniFiWLAN.enabled wlan) as [[|]|]; reflexivity.
Qed.

Lemma filter_mapWLAN wlans :
  filter notDisabled (map mapWLAN wlans) =
  map mapWLAN
    (filter (fun wlan => UniFiWLAN.isEnabled wlan ??? UniFiWLAN.enabled wlan ??: true) wlans).
Proof.
  induction wlans as [|wlan rest IH]; [reflexivity|].
  cbn [map filter]. rewrite notDisabled_mapWLAN.
  destruct (UniFiWLAN.isEnabled wlan ??? UniFiWLAN.enabled wlan ??: true);
    cbn [map]; rewrite IH; reflexivity.
Qed.

Lemma ssid_not_empty wlan : AvailableWLAN.ssid (mapWLAN wlan) <> "".
Proof.
  unfold mapWLAN. cbn. unfold jsOrDefault, jsOr.
  destruct (UniFiWLAN.ssid wlan) as [[|c s]|]; cbn;
    destruct (UniFiWLAN.name wlan) as [[|c' s']|]; cbn; discriminate.
Qed.

(** X17.  When the WLAN fetch succeeds, getAvailableWLANs returns, in the
    controller's order, exactly the networks that are not disabled
    (isEnabled, else enabled, else true), and every network listed has a
    non-empty SSID, is marked enabled and has its security mode and guest
    flag set. *)
Theorem listed_wlans_are_the_enabled_ones w wlans w1 :
  isLoggedIn (adapter w) = true ->
  fetchWLANs (snd (UniFiAdapter.log info "Fetching available WLANs..." w)) = (Ok wlans, w1) ->
  let enabledOf := fun wlan => UniFiWLAN.isEnabled wlan ??? UniFiWLAN.enabled wlan ??: true in
  let listed := map mapWLAN (filter enabledOf wlans) in
  getAvailableWLANs w = (Ok listed, snd (UniFiAdapter.log info "WLANs fetched" w1)) /\
  Forall (fun a => AvailableWLAN.ssid a <> "" /\
                   AvailableWLAN.enabled a = Some true /\
                   AvailableWLAN.security a <> None /\
                   AvailableWLAN.isGuest a <> None) listed.
Proof.
  intros Hin Hrun enabledOf listed. split.
  - unfold getAvailableWLANs. rewrite bind_run. cbn [getAdapter]. rewrite Hin. cbn [negb].
    rewrite bind_run. cbn [ret]. rewrite bind_run.
    unfold UniFiAdapter.log in *. cbn [emit snd] in *.
    rewrite tryCatch_run, bind_run, Hrun. cbv zeta. rewrite bind_run. cbn [emit ret].
    rewrite filter_mapWLAN. reflexivity.
  - subst listed. apply Forall_forall. intros a Ha.
    apply in_map_iff in Ha. destruct Ha as (wlan & <- & Hw).
    apply filter_In in Hw. destruct Hw as [_ Hen]. subst enabledOf. cbn beta in Hen.
    split; [apply ssid_not_empty|].
    unfold mapWLAN. cbn. rewrite Hen. repeat split; discriminate.
Qed.

End WLANs.

(* ---------------------------------------------------------------------- *)
(** ** Security modes *)

Section SecurityModes.
Context `{Environment}.
Import UniFiAdapter.

Lemma mapSecurityMode_of_mode wlan s :
  UniFiWLAN.securityMode wlan = Some s -> s <> "" ->
  mapSecurityMode wlan =
    if String.eqb s "open" then "open"
    else if includes "wpa3" (toLowerCase s) then "wpa3"
    else if includes "wpa2" (toLowerCase s) then "wpa2"
    else if includes "wpa" (toLowerCase s) then "wpa"
    else if includes "wep" (toLowerCase s) then "wep"
    else s.
Proof.
  intros Hs Hne. unfold mapSecurityMode. rewrite Hs.
  destruct s as [|c s]; [congruence|]. reflexivity.
Qed.

(** X18.  mapSecurityMode returns one of open, wpa3, wpa2, wpa, wep, or
    else the controller's own mode string unchanged; it returns open when
    the record names no mode, never returns the empty string, and a record
    whose securityMode is already a result of mapSecurityMode is mapped to
    that same value. *)
Theorem security_mode_is_normalised wlan :
  let raw := ifTruthy (UniFiWLAN.securityMode wlan ||| UniFiWLAN.security wlan
                       ||| UniFiWLAN.wlanType wlan) in
  (In (mapSecurityMode wlan) ["open"; "wpa3"; "wpa2"; "wpa"; "wep"] \/
   raw = Some (mapSecurityMode wlan)) /\
  (raw = None -> mapSecurityMode wlan = "open") /\
  mapSecurityMode wlan <> "" /\
  (forall wlan', UniFiWLAN.securityMode wlan' = Some (mapSecurityMode wlan) ->
                 mapSecurityMode wlan' = mapSecurityMode wlan).
Proof.
  cbv zeta.
  assert (Hcases :
    (In (mapSecurityMode wlan) ["open"; "wpa3"; "wpa2"; "wpa"; "wep"]) \/
    (exists s, ifTruthy (UniFiWLAN.securityMode wlan ||| UniFiWLAN.security wlan
                         ||| UniFiWLAN.wlanType wlan) = Some s /\
               mapSecurityMode wlan = s /\ s <> "" /\
               String.eqb s "open" = false /\
               includes "wpa3" (toLowerCase s) = false /\
               includes "wpa2" (toLowerCase s) = false /\
               includes "wpa" (toLowerCase s) = false /\
               includes "wep" (toLowerCase s) = false)).
  { unfold mapSecurityMode.
    destruct (ifTruthy (UniFiWLAN.securityMode wlan ||| UniFiWLAN.security wlan
                        ||| UniFiWLAN.wlanType wlan)) as [s|] eqn:Eraw;
      [|left; cbn; auto].
    assert (Hne : s <> "").
    { unfold ifTruthy in Eraw.
      destruct (UniFiWLAN.securityMode wlan ||| UniFiWLAN.security wlan
                ||| UniFiWLAN.wlanType wlan) as [x|]; [|discriminate].
      destruct (truthy x) eqn:Ex; [|discriminate]. inversion Eraw; subst.
      intros ->. discriminate Ex. }
    destruct (String.eqb s "open") eqn:E0; [left; cbn; auto|].
    destruct (includes "wpa3" (toLowerCase s)) eqn:E1; [left; cbn; auto|].
    destruct (includes "wpa2" (toLowerCase s)) eqn:E2; [left; cbn; auto|].
    destruct (includes "wpa" (toLowerCase s)) eqn:E3; [left; cbn; auto|].
    destruct (includes "wep" (toLowerCase s)) eqn:E4; [left; cbn; auto 6|].
    right. exists s. repeat split; auto. }
  split; [|split; [|split]].
  - destruct Hcases as [Hin|(s & Hraw & Hs & _)]; [left; exact Hin|right; congruence].
  - intros Hnone. unfold mapSecurityMode. rewrite Hnone. reflexivity.
  - destruct Hcases as [Hin|(s & _ & Hs & Hne & _)]; [|congruence].
    cbn in Hin. intros E. rewrite E in Hin.
    repeat (destruct Hin as [Hin|Hin]; [discriminate Hin|]). exact Hin.
  - intros wlan' Hmode.
    destruct Hcases as [Hin|(s & _ & Hs & Hne & E0 & E1 & E2 & E3 & E4)].
    + cbn in Hin.
      repeat (destruct Hin as [Hin|Hin];
              [rewrite <- Hin in *;
               rewrite (mapSecurityMode_of_mode _ Hmode) by discriminate; reflexivity|]).
      destruct Hin.
    + rewrite Hs in *. rewrite (mapSecurityMode_of_mode _ Hmode Hne).
      rewrite E0, E1, E2, E3, E4. reflexivity.
Qed.

End SecurityModes.

(* ---------------------------------------------------------------------- *)
(** ** Stopping the service *)

Section MoreOfTheService.
Context `{Environment}.
Import SyncService.

#[local] Arguments formatErrorForUser : simpl never.
#[local] Arguments statusError : simpl never.
#[local] Arguments String.append : simpl never.
#[local] Arguments String.concat : simpl never.
#[local] Arguments cloudUrl : simpl never.
#[local] Arguments showZ : simpl never.
#[local] Arguments VorioClient.disconnect : simpl never.
#[local] Arguments UniFiAdapter.logout : simpl never.

Lemma stop_effects w :
  isRunning (service w) = true ->
  exists w' evs,
    stop w = (Ok tt, w') /\
    stopped (service w') /\ isLoggedIn (adapter w') = false /\
    vorioClient w' = {| connectionId := None; projectId := None |} /\
    status (service w') =
      {| connected := false; lastSync := lastSync (status (service w));
         lastError := lastError (status (service w));
         voucherCount := voucherCount (status (service w)) |} /\
    trace w' = trace w ++ evs /\ cloudCalls evs = [PostDisconnect].
Proof.
  intros Hrun.
  unfold stop, setRunning, setCommandPollInterval, setSyncInterval, setConnected,
    withStatus, SyncService.log.
  unfold bind at 1. cbn [getService]. rewrite Hrun. cbn [negb].
  destruct (commandPollInterval (service w)) as [h1|] eqn:E1;
    destruct (syncInterval (service w)) as [h2|] eqn:E2;
    cbn [bind tryCatch emit withService ret adapter vorioClient service net trace].
  all: rewrite bind_run, tryCatch_run.
  all: match goal with |- context [VorioClient.disconnect ?W] =>
      destruct (disconnect_effects W) as (w3 & evs3 & Hd & Hv3 & Ha3 & Hs3 & Ht3 & Hcc3 & _)
    end.
  all: rewrite Hd.
  all: rewrite bind_run, tryCatch_run.
  all: destruct (logout_effects w3) as (w4 & evs4 & Hl & Ht4 & Ha4 & _ & Hv4 & Hs4 & Hcc4 & _).
  all: rewrite Hl.
  all: cbn [bind emit withService adapter vorioClient service net trace].
  all: cbn [service trace] in Hs3, Ht3.
  all: eexists _, _.
  all: refine (conj eq_refl _).
  all: cbn [service adapter vorioClient trace status connected isRunning syncInterval
              commandPollInterval].
  all: rewrite Hs4, Hs3; cbn [status connected isRunning syncInterval commandPollInterval
                                lastSync lastError voucherCount].
  all: split; [unfold stopped; cbn; auto|].
  all: split; [exact Ha4|].
  all: split; [rewrite Hv4; exact Hv3|].
  all: split; [reflexivity|].
  all: split; [rewrite Ht4, Ht3; repeat rewrite <- app_assoc; reflexivity|].
  all: cbn [app]; repeat (rewrite cloudCalls_app || cbn [cloudCalls flat_map app]).
  all: fold (cloudCalls evs3); fold (cloudCalls evs4); rewrite Hcc3, Hcc4; reflexivity.
Qed.

(** X21.  SyncService.stop never rejects. On a service that is not running
    it does nothing; on a running service it leaves the service stopped
    and disconnected with the last sync time and voucher count kept, the
    adapter logged out and the cloud client's connection forgotten, after
    exactly one disconnect call to the cloud. Afterwards a further stop
    and any late timer callback (sync or command poll) do nothing. *)
Theorem stop_is_final fuel w :
  exists w',
    stop w = (Ok tt, w') /\
    isRunning (service w') = false /\
    (isRunning (service w) = false -> w' = w) /\
    (isRunning (service w) = true ->
       stopped (service w') /\ isLoggedIn (adapter w') = false /\
       connectionId (vorioClient w') = None /\ projectId (vorioClient w') = None /\
       lastSync (status (service w')) = lastSync (status (service w)) /\
       voucherCount (status (service w')) = voucherCount (status (service w)) /\
       cloudCalls (skipn (List.length (trace w)) (trace w')) = [PostDisconnect]) /\
    stop w' = (Ok tt, w') /\
    commandPollTick fuel w' = (Ok tt, w') /\
    syncTick fuel w' = (Ok tt, w').
Proof.
  assert (Hidle : forall v, isRunning (service v) = false ->
                            stop v = (Ok tt, v) /\ commandPollTick fuel v = (Ok tt, v) /\
                            syncTick fuel v = (Ok tt, v)).
  { intros v Hv. unfold stop, commandPollTick, syncTick, bind, getService. cbn.
    rewrite Hv. cbn. auto. }
  destruct (isRunning (service w)) eqn:Hrun.
  - destruct (stop_effects w Hrun) as (w' & evs & Hst & Hstop & Hout & Hcl & Hstatus & Htr & Hcc).
    exists w'. split; [exact Hst|]. split; [apply Hstop|]. split; [discriminate|].
    split.
    + intros _. rewrite Hcl, Hstatus, Htr. cbn.
      rewrite skipn_app, skipn_all, Nat.sub_diag. cbn. auto 10.
    + apply Hidle. apply Hstop.
  - exists w. destruct (Hidle w Hrun) as (Hs & Hc & Hy).
    repeat split; auto; discriminate.
Qed.

End MoreOfTheService.

(* ---------------------------------------------------------------------- *)
(** ** Errors that reach the timers *)

Section Raising.
Context `{Environment}.

Lemma safe_raises {A} (m : M A) Q : safe m -> raises Q m.
Proof. intros Hs w e w' Hrun. destruct (Hs w) as (a & w1 & Hok). congruence. Qed.

Lemma raises_bind {A B} (m : M A) (k : A -> M B) Q :
  raises Q m -> (forall a, raises Q (k a)) -> raises Q (bind m k).
Proof.
  intros Hm Hk w e w' Hrun. rewrite bind_run in Hrun.
  destruct (m w) as [[a|e1|] w1] eqn:Em.
  - exact (Hk a _ _ _ Hrun).
  - inversion Hrun; subst. exact (Hm _ _ _ Em).
  - discriminate.
Qed.

Lemma raises_tryCatch {A} (m : M A) (h : Error -> M A) Q :
  (forall e, raises Q (h e)) -> raises Q (tryCatch m h).
Proof.
  intros Hh w e w' Hrun. rewrite tryCatch_run in Hrun.
  destruct (m w) as [[a|e1|] w1] eqn:Em; try discriminate.
  exact (Hh e1 _ _ _ Hrun).
Qed.

Lemma raises_ret {A} (a : A) Q : raises Q (ret a).
Proof. intros w e w' Hrun. discriminate. Qed.

End Raising.

Section Timers.
Context `{Environment}.
Import SyncService.

#[local] Arguments formatErrorForUser : simpl never.
#[local] Arguments statusError : simpl never.
#[local] Arguments String.append : simpl never.
#[local] Arguments String.concat : simpl never.
#[local] Arguments cloudUrl : simpl never.
#[local] Arguments showZ : simpl never.

Lemma service_log_safe lv m : safe (SyncService.log lv m).
Proof. unfold SyncService.log. totality. Qed.

Lemma logError_safe e : safe (logError e).
Proof. pose proof service_log_safe. unfold logError. totality. Qed.

Lemma client_request_halts c : halts (VorioClient.request c).
Proof.
  unfold VorioClient.request, VorioClient.handleError, VorioClient.log. totality.
Qed.

Lemma heartbeat_halts vc st err : halts (VorioClient.heartbeat vc st err).
Proof.
  pose proof client_request_halts. unfold VorioClient.heartbeat, VorioClient.log. totality.
Qed.

(** X22.  The two timer callbacks of the sync service, the sync cycle and
    the command poll, never reject: every error of the controller, of the
    cloud or of a command handler is caught inside the callback. *)
Theorem timer_callbacks_never_raise fuel :
  raises (fun _ => False) (syncTick fuel) /\
  raises (fun _ => False) (commandPollTick fuel).
Proof.
  pose proof service_log_safe. pose proof logError_safe. pose proof heartbeat_halts.
  split.
  - unfold syncTick. apply raises_bind; [apply safe_raises; totality|intros s].
    destruct (negb (isRunning s)); [apply raises_ret|].
    apply raises_tryCatch. intros e. apply safe_raises.
    unfold setLastError, withStatus. totality.
  - unfold commandPollTick. apply raises_bind; [apply safe_raises; totality|intros s].
    destruct (negb (isRunning s)); [apply raises_ret|].
    apply raises_tryCatch. intros e. apply safe_raises. totality.
Qed.

End Timers.

(* ---------------------------------------------------------------------- *)
(** ** A failed sync cycle *)

Section Syncing.
Context `{Environment}.
Import SyncService.

#[local] Arguments formatErrorForUser : simpl never.
#[local] Arguments statusError : simpl never.
#[local] Arguments String.append : simpl never.
#[local] Arguments String.concat : simpl never.
#[local] Arguments cloudUrl : simpl never.
#[local] Arguments showZ : simpl never.

Lemma heartbeat_run vc st err w :
  exists w' evs,
    snd (VorioClient.heartbeat vc st err w) = w' /\
    fst (VorioClient.heartbeat vc st err w) <> Diverge /\
    service w' = service w /\ adapter w' = adapter w /\
    trace w' = trace w ++ evs /\ cloudCalls evs = [PostHeartbeat vc st err].
Proof.
  destruct (cloud_request_run (PostHeartbeat vc st err) w)
    as (w1 & evs & Hsnd & Htr & Hcc & _ & Ha & Hs & _ & Hout).
  unfold VorioClient.heartbeat. rewrite bind_run.
  destruct (VorioClient.request (PostHeartbeat vc st err) w) as [[d|e|] w1'] eqn:Er;
    cbn [snd] in Hsnd; subst w1'.
  - unfold VorioClient.log, emit. cbn.
    eexists _, _. split; [reflexivity|]. split; [discriminate|].
    cbn. split; [exact Hs|]. split; [exact Ha|].
    split; [rewrite Htr, <- app_assoc; reflexivity|].
    rewrite cloudCalls_app, Hcc. reflexivity.
  - exists w1, evs. cbn. split; [reflexivity|]. split; [discriminate|]. auto.
  - exfalso. exact (client_request_halts (PostHeartbeat vc st err) w (f_equal fst Er)).
Qed.

(** X23.  When a sync cycle of the running service fails, the timer
    callback still resolves: it records the error's message as lastError
    and sends exactly one heartbeat with status error, that message and
    the voucher count; the running flag, the intervals, the voucher count
    and the adapter stay as the failed cycle left them, whether or not the
    heartbeat gets through. *)
Theorem sync_failure_is_reported fuel w e w1 :
  isRunning (service w) = true ->
  syncCycle fuel w = (Throw e, w1) ->
  exists w' evs,
    syncTick fuel w = (Ok tt, w') /\
    lastError (status (service w')) = Some (getErrorMessage e) /\
    isRunning (service w') = isRunning (service w1) /\
    syncInterval (service w') = syncInterval (service w1) /\
    commandPollInterval (service w') = commandPollInterval (service w1) /\
    voucherCount (status (service w')) = voucherCount (status (service w1)) /\
    adapter w' = adapter w1 /\
    trace w' = trace w1 ++ evs /\
    cloudCalls evs =
      [PostHeartbeat (Some (voucherCount (status (service w1)))) (Some "error")
         (Some (getErrorMessage e))].
Proof.
  intros Hrun Hcycle.
  unfold syncTick. rewrite bind_run. cbn [getService]. rewrite Hrun. cbn [negb].
  rewrite tryCatch_run, Hcycle.
  rewrite bind_run. unfold SyncService.log at 1. cbn [emit].
  rewrite bind_run.
  match goal with |- context [logError e ?W] =>
    destruct (logError_run e W) as (w2 & logs & Hl & Hs2 & Ha2 & Hn2 & Ht2 & Hcc2)
  end.
  rewrite Hl. cbn [service adapter trace net] in Hs2, Ha2, Ht2, Hn2.
  rewrite bind_run. unfold setLastError, withStatus. cbn [withService].
  rewrite bind_run. cbn [getService service status voucherCount lastError].
  rewrite tryCatch_run.
  match goal with |- context [VorioClient.heartbeat ?a ?b ?c ?W] =>
    destruct (heartbeat_run a b c W) as (w3 & evs3 & Hsnd & Hnd & Hs3 & Ha3 & Ht3 & Hcc3)
  end.
  cbn [service adapter trace] in Hs3, Ha3, Ht3.
  match goal with |- context [VorioClient.heartbeat ?a ?b ?c ?W] =>
    destruct (VorioClient.heartbeat a b c W) as [[[]|e3|] w3'] eqn:Eh
  end; cbn [fst snd] in Hsnd, Hnd; subst w3'; [| |congruence].
  all: eexists _, _; split; [reflexivity|].
  all: cbn [ret snd]; rewrite Hs3, Ha3, Ht3; cbn; rewrite Hs2, Ha2, Ht2.
  all: repeat split; try reflexivity.
  all: try (repeat rewrite <- app_assoc; reflexivity).
  all: rewrite Hs2 in Hcc3; cbn [app] in *.
  all: repeat (rewrite cloudCalls_app || cbn [cloudCalls flat_map app]).
  all: fold (cloudCalls logs); fold (cloudCalls evs3); rewrite Hcc2, Hcc3; reflexivity.
Qed.

End Syncing.

(* ---------------------------------------------------------------------- *)
(** ** The status after a sync *)

Section SyncStatus.
Context `{Environment}.
Import SyncService.

#[local] Arguments formatErrorForUser : simpl never.
#[local] Arguments statusError : simpl never.
#[local] Arguments String.append : simpl never.
#[local] Arguments String.concat : simpl never.
#[local] Arguments cloudUrl : simpl never.
#[local] Arguments showZ : simpl never.

Ltac cases :=
  repeat (cbn;
          match goal with
          | |- context [cloud ?c ?n] => destruct (cloud c n) eqn:?
          | |- context [controller ?r ?n] => destruct (controller r n) eqn:?
          | |- context [dateNow ?n] => destruct (dateNow n) eqn:?
          | |- context [match ?x with _ => _ end] =>
              lazymatch x with
              | context [match _ with _ => _ end] => fail
              | _ => destruct x eqn:?
              end
          end).

Lemma local_cloudCalls evs : Forall local evs -> cloudCalls evs = [].
Proof.
  induction 1 as [|e evs He _ IH]; [reflexivity|].
  destruct e; cbn in *; try contradiction; exact IH.
Qed.

Lemma getVouchers_local fuel : respects local eq (UniFiAdapter.getVouchers fuel).
Proof. apply getVouchers_step; [exact _|intros; exact I|intros; exact I]. Qed.

Lemma syncVouchers_run vs w r w' :
  VorioClient.syncVouchers vs w = (r, w') ->
  exists evs,
    trace w' = trace w ++ evs /\ cloudCalls evs = [PostSync vs] /\
    adapter w' = adapter w /\ service w' = service w /\
    match r with
    | Ok data => exists st, In (CloudHttp (PostSync vs) (CloudResponded st data)) evs
    | Throw _ => True
    | Diverge => False
    end.
Proof.
  unfold VorioClient.syncVouchers, VorioClient.request, VorioClient.handleError,
    VorioClient.log, bind, exchange, emit, ret, throw.
  intros Hrun. revert Hrun. cases; intros Hrun; inversion Hrun; subst; clear Hrun; cbn;
    (eexists; refine (conj _ (conj _ (conj eq_refl (conj eq_refl _))));
     [ cbn; repeat rewrite app_one; reflexivity | reflexivity | ]);
    try exact I.
  eexists. cbn. eauto.
Qed.

Lemma performSync_effects fuel w :
  match performSync fuel w with
  | (Ok _, w') =>
      exists vouchers w1 st data t evs,
        UniFiAdapter.getVouchers fuel
          (snd (SyncService.log info "Starting voucher sync..." w)) = (Ok vouchers, w1) /\
        adapter w' = adapter w1 /\
        trace w' = trace w ++ evs /\
        cloudCalls evs = [PostSync vouchers] /\
        In (CloudHttp (PostSync vouchers) (CloudResponded st data)) evs /\
        service w' =
          {| isRunning := isRunning (service w);
             syncInterval := syncInterval (service w);
             commandPollInterval := commandPollInterval (service w);
             status := {| connected := connected (status (service w));
                          lastSync := Some t;
                          lastError := None;
                          voucherCount := CloudData.syncedCount data |} |}
  | (Throw _, w') => service w' = service w
  | (Diverge, _) => True
  end.
Proof.
  unfold performSync. rewrite bind_run. unfold SyncService.log at 1. cbn [emit].
  rewrite bind_run.
  match goal with |- context [UniFiAdapter.getVouchers fuel ?W] =>
    destruct (getVouchers_local fuel W) as [(evs1 & Ht1 & Hl1) Hs1];
    destruct (UniFiAdapter.getVouchers fuel W) as [[vs|e|] w1] eqn:Eg
  end; cbn [snd service trace] in *; [|symmetry; exact Hs1|exact I].
  rewrite bind_run.
  destruct (VorioClient.syncVouchers vs w1) as [[data|e|] w2] eqn:Es;
    destruct (syncVouchers_run _ _ Es) as (evs2 & Ht2 & Hcc2 & Ha2 & Hs2 & Hout);
    [|congruence|contradiction].
  destruct Hout as (st & Hin).
  rewrite bind_run. unfold now. destruct (dateNow (net w2)) as [t n].
  rewrite bind_run. unfold withStatus, withService, SyncService.log, emit. cbn.
  exists vs, w1, st, data, t.
  exists ([Logged "Sync" info "Starting voucher sync..."] ++ evs1 ++ evs2
          ++ [Logged "Sync" info "Voucher sync completed"]).
  split; [exact Eg|].
  split; [exact Ha2|].
  split; [rewrite Ht2, Ht1; repeat rewrite <- app_assoc; reflexivity|].
  split.
  { rewrite !cloudCalls_app, (local_cloudCalls Hl1), Hcc2. reflexivity. }
  split.
  { apply in_or_app. right. apply in_or_app. right. apply in_or_app. left. exact Hin. }
  rewrite Hs2, <- Hs1. reflexivity.
Qed.


(** X24.  performSync changes the service's status only when the upload is
    accepted: it then has made exactly one sync call to the cloud, sets
    lastSync, clears lastError and takes voucherCount from the syncedCount
    of the cloud's answer, keeping the connected flag. When fetching or
    uploading fails it rejects with the service's state exactly as before. *)
Theorem sync_status_follows_the_cloud fuel w :
  match performSync fuel w with
  | (Ok _, w') =>
      exists vouchers st data t evs,
        trace w' = trace w ++ evs /\
        cloudCalls evs = [PostSync vouchers] /\
        In (CloudHttp (PostSync vouchers) (CloudResponded st data)) evs /\
        service w' =
          {| isRunning := isRunning (service w);
             syncInterval := syncInterval (service w);
             commandPollInterval := commandPollInterval (service w);
             status := {| connected := connected (status (service w));
                          lastSync := Some t;
                          lastError := None;
                          voucherCount := CloudData.syncedCount data |} |}
  | (Throw _, w') => service w' = service w
  | (Diverge, _) => True
  end.
Proof.
  pose proof (performSync_effects fuel w) as Hsync.
  destruct (performSync fuel w) as [[[]|e|] w']; [|exact Hsync|exact I].
  destruct Hsync as (vouchers & w1 & st & data & t & evs & _ & _ & Htr & Hcc & Hin & Hs).
  exists vouchers, st, data, t, evs. auto.
Qed.

(** X25.  When a sync cycle of the running service succeeds, the timer
    callback resolves with it and the cloud has been called exactly twice:
    first with the upload of exactly the vouchers that getVouchers
    returned, then with a heartbeat of status ok whose voucherCount is the
    syncedCount of the cloud's answer to the upload, not the number of
    vouchers fetched. That count is the service's voucherCount afterwards,
    lastError is cleared and the adapter is as getVouchers left it. *)
Theorem sync_cycle_reports_the_synced_count fuel w w' :
  isRunning (service w) = true ->
  syncCycle fuel w = (Ok tt, w') ->
  exists vouchers w1 st data evs,
    UniFiAdapter.getVouchers fuel
      (snd (SyncService.log info "Starting voucher sync..." w)) = (Ok vouchers, w1) /\
    syncTick fuel w = (Ok tt, w') /\
    trace w' = trace w ++ evs /\
    cloudCalls evs =
      [PostSync vouchers;
       PostHeartbeat (Some (CloudData.syncedCount data)) (Some "ok") None] /\
    In (CloudHttp (PostSync vouchers) (CloudResponded st data)) evs /\
    voucherCount (status (service w')) = CloudData.syncedCount data /\
    lastError (status (service w')) = None /\
    adapter w' = adapter w1.
Proof.
  intros Hrun Hcycle.
  assert (Htick : syncTick fuel w = (Ok tt, w')).
  { unfold syncTick. rewrite bind_run. cbn [getService]. rewrite Hrun. cbn [negb].
    rewrite tryCatch_run, Hcycle. reflexivity. }
  unfold syncCycle in Hcycle. rewrite bind_run in Hcycle.
  pose proof (performSync_effects fuel w) as Hsync.
  destruct (performSync fuel w) as [[[]|e|] w2]; try discriminate.
  destruct Hsync as (vouchers & w1 & st & data & t & evs & Hget & Ha & Htr & Hcc & Hin & Hs).
  rewrite bind_run in Hcycle. cbn [getService] in Hcycle.
  match type of Hcycle with context [VorioClient.heartbeat ?a ?b ?c ?W] =>
    destruct (heartbeat_run a b c W) as (w3 & evs3 & Hsnd & _ & Hs3 & Ha3 & Ht3 & Hcc3)
  end.
  rewrite Hcycle in Hsnd. cbn [snd] in Hsnd. subst w3.
  rewrite Hs in Hcc3. cbn [status voucherCount] in Hcc3.
  exists vouchers, w1, st, data, (evs ++ evs3).
  split; [exact Hget|]. split; [exact Htick|].
  split; [rewrite Ht3, Htr, <- app_assoc; reflexivity|].
  split; [rewrite cloudCalls_app, Hcc, Hcc3; reflexivity|].
  split; [apply in_or_app; left; exact Hin|].
  rewrite Hs3, Hs, Ha3. cbn. auto.
Qed.

End SyncStatus.

(* ---------------------------------------------------------------------- *)
(** ** Commands without effect *)

Section IdleCommands.
Context `{Environment}.
Import SyncService.

#[local] Arguments formatErrorForUser : simpl never.
#[local] Arguments statusError : simpl never.
#[local] Arguments String.append : simpl never.
#[local] Arguments String.concat : simpl never.
#[local] Arguments cloudUrl : simpl never.
#[local] Arguments showZ : simpl never.

(** X26.  Provided the cloud accepts the acknowledgement and the
    completion, a command of unknown type, and a delete_voucher command
    whose payload has neither a voucherId nor a voucherCode, is
    acknowledged and then completed with success=true after a logged
    warning, without any request to the controller and without any change
    to the adapter or the service. *)
Theorem commands_without_effect_are_completed fuel c w :
  accepts (PostAck (VorioCommand.id c)) ->
  accepts (PostComplete (VorioCommand.id c) true None) ->
  let voucherId := match VorioCommand.payload c with
                   | Some p => Payload.voucherId p | None => None end in
  let voucherCode := match VorioCommand.payload c with
                     | Some p => Payload.voucherCode p | None => None end in
  (VorioCommand.type c <> "sync_now" /\ VorioCommand.type c <> "delete_voucher" /\
   VorioCommand.type c <> "disconnect") \/
  (VorioCommand.type c = "delete_voucher" /\
   ifTruthy voucherId = None /\ ifTruthy voucherCode = None) ->
  exists w' evs,
    processCommand fuel c w = (Ok tt, w') /\
    adapter w' = adapter w /\ service w' = service w /\
    trace w' = trace w ++ evs /\
    cloudCalls evs = [PostAck (VorioCommand.id c);
                      PostComplete (VorioCommand.id c) true None] /\
    exchanges evs = [] /\
    In (Logged "Sync" warn
          (if String.eqb (VorioCommand.type c) "delete_voucher"
           then "Delete command missing voucherId and voucherCode"
           else "Unknown command type")) evs.
Proof.
  intros Hack Hdone voucherId voucherCode Hidle.
  unfold processCommand. rewrite bind_run. unfold SyncService.log at 1. cbn [emit].
  rewrite bind_run.
  match goal with |- context [VorioClient.acknowledgeCommand ?i ?W] =>
    destruct (acknowledgeCommand_accepted W Hack) as (w1 & Ha & Had1 & Hs1 & Ht1)
  end.
  rewrite Ha. cbn [adapter service trace net] in *.
  rewrite tryCatch_run, bind_run.
  assert (Hd : exists w2 logs,
             dispatchCommand fuel c w1 = (Ok true, w2) /\
             adapter w2 = adapter w1 /\ service w2 = service w1 /\ net w2 = net w1 /\
             trace w2 = trace w1 ++ logs /\ cloudCalls logs = [] /\ exchanges logs = [] /\
             In (Logged "Sync" warn
                   (if String.eqb (VorioCommand.type c) "delete_voucher"
                    then "Delete command missing voucherId and voucherCode"
                    else "Unknown command type")) logs).
  { unfold dispatchCommand. cbv zeta.
    destruct Hidle as [(N1 & N2 & N3)|(E & Hid & Hcode)].
    - destruct (String.eqb_spec (VorioCommand.type c) "sync_now"); [contradiction|].
      destruct (String.eqb_spec (VorioCommand.type c) "delete_voucher"); [contradiction|].
      destruct (String.eqb_spec (VorioCommand.type c) "disconnect"); [contradiction|].
      unfold SyncService.log, bind, emit, ret. cbn.
      eexists _, _. repeat split; cbn; auto.
    - rewrite E. cbn [String.eqb Ascii.eqb Bool.eqb].
      unfold handleDeleteVoucherCommand. cbv zeta.
      subst voucherId voucherCode. rewrite Hid, Hcode.
      unfold SyncService.log, bind, emit, ret. cbn.
      eexists _, _. split; [reflexivity|]. cbn.
      refine (conj eq_refl (conj eq_refl (conj eq_refl (conj _ _)))).
      + rewrite <- app_assoc. reflexivity.
      + cbn. auto. }
  destruct Hd as (w2 & logs & Hd & Had2 & Hs2 & Hn2 & Ht2 & Hcc2 & Hex2 & Hwarn).
  rewrite Hd.
  destruct (completeCommand_accepted w2 Hdone) as (w3 & Hc & Had3 & Hs3 & Ht3).
  rewrite Hc.
  eexists _, _. split; [reflexivity|].
  split; [congruence|]. split; [congruence|].
  split; [rewrite Ht3, Ht2, Ht1; repeat rewrite <- app_assoc; reflexivity|].
  cbn [app].
  split.
  { repeat (rewrite cloudCalls_app || cbn [cloudCalls flat_map app]).
    fold (cloudCalls logs). rewrite Hcc2. reflexivity. }
  split.
  { unfold exchanges in *. cbn [flat_map app]. rewrite flat_map_app. cbn [flat_map app].
    rewrite Hex2. reflexivity. }
  right. right. right. apply in_or_app. left. exact Hwarn.
Qed.

End IdleCommands.

(* ---------------------------------------------------------------------- *)
(** ** Logging in *)

Section LoggingIn.
Context `{Environment}.
Import UniFiAdapter.

#[local] Arguments formatErrorForUser : simpl never.
#[local] Arguments getConnectionErrorMessage : simpl never.
#[local] Arguments statusError : simpl never.
#[local] Arguments String.append : simpl never.
#[local] Arguments String.concat : simpl never.
#[local] Arguments showZ : simpl never.
#[local] Arguments outgoing : simpl never.
#[local] Arguments captureSession : simpl never.

Lemma answers_run c out req n :
  answers c out -> CtlRequest.call req = c -> controller req n = (out, snd (controller req n)).
Proof.
  intros Ha Hc. specialize (Ha req n Hc). destruct (controller req n); cbn in *. congruence.
Qed.

Lemma validateStatus_lt st : validateStatus st = (st <? 400).
Proof.
  unfold validateStatus. destruct (Z.ltb_spec st 400); [reflexivity|].
  destruct (Z.eqb_spec st 302); [lia|reflexivity].
Qed.

(** The connectivity test, when the controller answers the probe. *)
Lemma testConnectivity_answered w r0 :
  answers GetRoot (Responded r0) ->
  exists w0,
    testConnectivity (snd (UniFiAdapter.log info "Connecting to UniFi Controller..." w))
      = (Ok true, w0) /\
    adapter w0 = adapter w /\ service w0 = service w /\ vorioClient w0 = vorioClient w /\
    exists evs, trace w0 = trace w ++ evs /\ map fst (exchanges evs) = [GetRoot].
Proof.
  intros Hp.
  unfold testConnectivity, probe, logConnectivityResult, UniFiAdapter.log,
    bind, tryCatch, exchange, emit, ret. cbn.
  rewrite (@answers_run _ _ probeRequest _ Hp eq_refl). cbn.
  eexists. split; [reflexivity|]. cbn. repeat split.
  eexists. split; [repeat rewrite app_one; reflexivity|]. reflexivity.
Qed.

(** X3.  With an API key configured, a reachable controller and a 200
    answer to the sites request that lists at least one site, login()
    succeeds after exactly the probe and the sites request, marks the
    adapter authenticated and stores the id of the first site whose name,
    description or id equals the configured site (or 'default'), or of the
    first site listed when none does. *)
Theorem api_key_login_selects_the_site w r0 r body first rest :
  useApiKey = true ->
  answers GetRoot (Responded r0) ->
  answers GetSites (Responded r) ->
  Response.status r = 200 -> Response.data r = Some body ->
  Body.sites body = Some (first :: rest) ->
  let chosen := match find (siteMatches (Some (site (unifi config)) ||: "default"))
                        (first :: rest) with
                | Some found => found
                | None => first
                end in
  exists w' evs,
    login w = (Ok tt, w') /\
    isLoggedIn (adapter w') = true /\ siteId (adapter w') = Site.id chosen /\
    trace w' = trace w ++ evs /\ map fst (exchanges evs) = [GetRoot; GetSites].
Proof.
  intros Hkey Hp Hs Hst Hdata Hsites chosen.
  destruct (testConnectivity_answered w Hp) as (w0 & Ht & Ha0 & _ & _ & evs0 & Htr0 & Hex0).
  unfold login. rewrite bind_run.
  cbn [UniFiAdapter.log emit snd] in Ht |- *.
  rewrite bind_run, Ht, Hkey.
  unfold loginWithApiKey, request, setSiteId, setLoggedIn, UniFiAdapter.log,
    bind, tryCatch, exchange, emit, withAdapter, getAdapter, ret, throw. cbn.
  rewrite (@answers_run _ _ _ _ Hs (call_outgoing _ _)). cbn.
  rewrite validateStatus_lt, Hst, Hkey. cbn. rewrite Hdata, Hst. cbn. rewrite Hsites.
  unfold nullishDefault. fold chosen. cbn.
  eexists _, _. split; [reflexivity|]. cbn.
  split; [reflexivity|]. split; [reflexivity|].
  split; [rewrite Htr0; repeat rewrite <- app_assoc; reflexivity|].
  rewrite !exchanges_app, !map_app, Hex0. cbn. rewrite call_outgoing. reflexivity.
Qed.


Lemma handleAuthError_status {A} st method :
  @handleAuthError _ A (statusError st) method =
  throw (AuthenticationError
           (if st =? 401 then
              match method with
              | api_key => "API key is invalid or expired"
              | _ => "Username or password is incorrect"
              end
            else if st =? 403 then
              match method with
              | api_key => "API key does not have required permissions"
              | _ => "Account does not have required permissions"
              end
            else String.append "Authentication failed: "
                   (fmt_message (formatErrorForUser (statusError st))))
           "unifi" method).
Proof.
  unfold handleAuthError.
  change (isAuthenticationError (statusError st)) with false.
  change (responseStatusOf (statusError st)) with (Some st). cbv iota.
  destruct st as [|p|p]; try reflexivity.
  do 10 (try (destruct p as [p|p|]; try (destruct method; reflexivity))).
Qed.

Lemma login_after_probe w r0 :
  answers GetRoot (Responded r0) ->
  exists w0 evs,
    login w = (if useApiKey then loginWithApiKey else loginWithCredentials) w0 /\
    adapter w0 = adapter w /\ trace w0 = trace w ++ evs /\
    map fst (exchanges evs) = [GetRoot].
Proof.
  intros Hp.
  destruct (testConnectivity_answered w Hp) as (w0 & Ht & Ha0 & _ & _ & evs0 & Htr0 & Hex0).
  exists w0, evs0. unfold login. rewrite bind_run.
  cbn [UniFiAdapter.log emit snd] in Ht |- *. rewrite bind_run, Ht. auto.
Qed.

(** X4.  With an API key configured and a reachable controller, login()
    rejects with an AuthenticationError for method api_key, the adapter's
    state unchanged, after exactly the probe and the sites request,
    whenever the sites request fails: status 401 gives 'API key is invalid
    or expired', 403 gives 'API key does not have required permissions',
    any other status from 400 or no answer gives 'Authentication failed: '
    followed by the formatted error, a status below 400 other than 200 or
    an empty body gives 'Failed to fetch sites - invalid API response',
    and a 200 answer without any site gives 'No sites found. Please check
    API key permissions.'. *)
Theorem api_key_login_failures w r0 out message :
  useApiKey = true ->
  answers GetRoot (Responded r0) ->
  answers GetSites out ->
  match out with
  | Responded r =>
      let st := Response.status r in
      (st = 401 /\ message = "API key is invalid or expired") \/
      (st = 403 /\ message = "API key does not have required permissions") \/
      (400 <= st /\ st <> 401 /\ st <> 403 /\
       message = String.append "Authentication failed: "
                   (fmt_message (formatErrorForUser (statusError st)))) \/
      (st < 400 /\ (st <> 200 \/ Response.data r = None) /\
       message = "Failed to fetch sites - invalid API response") \/
      (st = 200 /\
       (exists body, Response.data r = Some body /\
                     (Body.sites body = None \/ Body.sites body = Some [])) /\
       message = "No sites found. Please check API key permissions.")
  | NetworkError code text =>
      message = String.append "Authentication failed: "
                  (fmt_message (formatErrorForUser (AxiosError text code None)))
  end ->
  exists w' evs,
    login w = (Throw (AuthenticationError message "unifi" api_key), w') /\
    adapter w' = adapter w /\
    trace w' = trace w ++ evs /\ map fst (exchanges evs) = [GetRoot; GetSites].
Proof.
  intros Hkey Hp Hs Hcase.
  destruct (login_after_probe w Hp) as (w0 & evs0 & Hl & Ha0 & Htr0 & Hex0).
  rewrite Hl, Hkey.
  unfold loginWithApiKey, request, setSiteId, setLoggedIn, UniFiAdapter.log,
    bind, tryCatch, exchange, emit, withAdapter, getAdapter, ret, throw. cbn.
  rewrite (@answers_run _ _ _ _ Hs (call_outgoing _ _)).
  assert (Hdone : forall (W : World) e,
             adapter W = adapter w0 ->
             trace W = trace w0 ++ [Logged "UniFi" info "Authenticating with API key..."]
                         ++ [CtlHttp (outgoing (adapter w0) GetSites) out] ->
             e = AuthenticationError message "unifi" api_key ->
             exists w' evs,
               (@Throw unit e, W) = (Throw (AuthenticationError message "unifi" api_key), w') /\
               adapter w' = adapter w /\ trace w' = trace w ++ evs /\
               map fst (exchanges evs) = [GetRoot; GetSites]).
  { intros W e HaW HtW ->. eexists _, _. split; [reflexivity|]. split; [congruence|].
    split; [rewrite HtW, Htr0; repeat rewrite <- app_assoc; reflexivity|].
    rewrite !exchanges_app, !map_app, Hex0. cbn.
    destruct out; cbn; rewrite call_outgoing; reflexivity. }
  destruct out as [r|code text]; cbn.
  - rewrite validateStatus_lt, Hkey. cbv zeta in Hcase.
    destruct Hcase as [(E & ->)|[(E & ->)|[(G & N1 & N3 & ->)|[(L & Hbad & ->)|(E & (body & Hd & Hno) & ->)]]]].
    + rewrite E. cbn. rewrite handleAuthError_status. cbn.
      apply Hdone; cbn; try reflexivity; try (rewrite <- app_assoc; reflexivity).
    + rewrite E. cbn. rewrite handleAuthError_status. cbn.
      apply Hdone; cbn; try reflexivity; try (rewrite <- app_assoc; reflexivity).
    + destruct (Z.ltb_spec (Response.status r) 400); [lia|]. cbn.
      rewrite handleAuthError_status.
      destruct (Z.eqb_spec (Response.status r) 401); [contradiction|].
      destruct (Z.eqb_spec (Response.status r) 403); [contradiction|].
      apply Hdone; cbn; try reflexivity; try (rewrite <- app_assoc; reflexivity).
    + destruct (Z.ltb_spec (Response.status r) 400); [|lia]. cbn.
      destruct (Response.data r) as [body|] eqn:Ed; cbn.
      * destruct Hbad as [N|Hn]; [|discriminate].
        destruct (Z.eqb_spec (Response.status r) 200); [contradiction|]. cbn.
        apply Hdone; cbn; try reflexivity; try (rewrite <- app_assoc; reflexivity).
      * apply Hdone; cbn; try reflexivity; try (rewrite <- app_assoc; reflexivity).
    + rewrite E. cbn. rewrite Hd. cbn. rewrite E. cbn.
      destruct Hno as [->| ->]; cbn;
        apply Hdone; cbn; try reflexivity; try (rewrite <- app_assoc; reflexivity).
  - cbn in Hcase. subst message.
    apply Hdone; cbn; try reflexivity; try (rewrite <- app_assoc; reflexivity).
Qed.


#[local] Arguments handleAuthError : simpl never.

(** X5.  With username and password configured and a reachable controller,
    login() first posts to /api/auth/login; a 200 answer there
    authenticates without a further request. Any other outcome of that
    request makes it post to /api/login, and that answer alone decides: a
    status below 400 with meta.rc ok or status 200 authenticates, every
    other outcome rejects with an AuthenticationError for method
    credentials (message by status 401, 403, other, or from meta.msg) and
    leaves the authenticated flag as it was. *)
Theorem credentials_login_falls_back w r0 out1 out2 :
  let first := PostAuthLogin (username (unifi config)) (password (unifi config)) true in
  let second := PostLogin (username (unifi config)) (password (unifi config)) in
  let accepted := match out1 with
                  | Responded r1 => Response.status r1 =? 200
                  | NetworkError _ _ => false
                  end in
  let failure message := Throw (AuthenticationError message "unifi" credentials) in
  let expected :=
    if accepted then Ok tt
    else match out2 with
         | Responded r2 =>
             let st := Response.status r2 in
             if st <? 400 then
               if (rcIsOk r2 || (st =? 200))%bool then Ok tt
               else failure (String.append "Authentication failed: "
                               (metaMsg r2 ||: "Login rejected"))
             else if st =? 401 then failure "Username or password is incorrect"
             else if st =? 403 then failure "Account does not have required permissions"
             else failure (String.append "Authentication failed: "
                             (fmt_message (formatErrorForUser (statusError st))))
         | NetworkError code text =>
             failure (String.append "Authentication failed: "
                        (fmt_message (formatErrorForUser (AxiosError text code None))))
         end in
  useApiKey = false ->
  answers GetRoot (Responded r0) ->
  answers first out1 ->
  answers second out2 ->
  exists w' evs,
    login w = (expected, w') /\
    isLoggedIn (adapter w') =
      match expected with Ok _ => true | _ => isLoggedIn (adapter w) end /\
    trace w' = trace w ++ evs /\
    map fst (exchanges evs) = if accepted then [GetRoot; first] else [GetRoot; first; second].
Proof.
  intros first second accepted failure expected Hkey Hp H1 H2.
  destruct (login_after_probe w Hp) as (w0 & evs0 & Hl & Ha0 & Htr0 & Hex0).
  rewrite Hl, Hkey. clear Hl. rewrite <- Ha0.
  assert (Hgoal : forall (W : World) (R : Outcome unit) evs1,
             trace W = trace w0 ++ evs1 ->
             R = expected ->
             isLoggedIn (adapter W) =
               match expected with Ok _ => true | _ => isLoggedIn (adapter w0) end ->
             map fst (exchanges evs1) = (if accepted then [first] else [first; second]) ->
             exists w' evs,
               (R, W) = (expected, w') /\
               isLoggedIn (adapter w') =
                 match expected with Ok _ => true | _ => isLoggedIn (adapter w0) end /\
               trace w' = trace w ++ evs /\
               map fst (exchanges evs) =
                 if accepted then [GetRoot; first] else [GetRoot; first; second]).
  { intros W R evs1 HtW -> HinW Hex1. exists W, (evs0 ++ evs1).
    split; [reflexivity|]. split; [exact HinW|].
    split; [rewrite HtW, Htr0, app_assoc; reflexivity|].
    rewrite exchanges_app, map_app, Hex0, Hex1. destruct accepted; reflexivity. }
  subst expected accepted failure. cbv zeta in Hgoal |- *. cbv beta in Hgoal |- *.
  unfold loginWithCredentials, request, setLoggedIn, UniFiAdapter.log,
    bind, tryCatch, exchange, emit, withAdapter, getAdapter, ret, throw.
  cbn. rewrite (@answers_run _ _ _ _ H1 (call_outgoing _ _)). cbn.
  rewrite Hkey.
  destruct out1 as [r1|code1 text1]; cbn;
    [rewrite validateStatus_lt;
     destruct (Response.status r1 <? 400) eqn:L1; cbn;
     [destruct (Response.status r1 =? 200) eqn:E1; cbn|
      assert (E1 : (Response.status r1 =? 200) = false)
        by (apply Z.eqb_neq; apply Z.ltb_ge in L1; lia); rewrite E1 in *] |].
  1: { eapply Hgoal; cbn; try reflexivity.
       - repeat rewrite <- app_assoc. reflexivity.
       - rewrite !exchanges_app, !map_app. cbn. rewrite call_outgoing. reflexivity. }
  all: rewrite (@answers_run _ _ _ _ H2 (call_outgoing _ _)); cbn.
  all: destruct out2 as [r2|code2 text2]; cbn.
  all: try rewrite validateStatus_lt.
  all: try (destruct (Response.status r2 <? 400) eqn:L2; cbn).
  all: try rewrite handleAuthError_status.
  all: try (unfold rcIsOk, metaMsg;
            destruct (_ || (Response.status r2 =? 200))%bool eqn:Eok; cbn).
  all: try (destruct (Response.status r2 =? 401) eqn:E401; cbn).
  all: try (destruct (Response.status r2 =? 403) eqn:E403; cbn).
  all: unfold handleAuthError; cbn.
  all: eapply Hgoal; cbn; try reflexivity.
  all: try (repeat rewrite <- app_assoc; reflexivity).
  all: rewrite !exchanges_app, !map_app; cbn; rewrite !call_outgoing; reflexivity.
Qed.

End LoggingIn.

(* ---------------------------------------------------------------------- *)
(** ** Answers of the legacy API *)

Section LegacyAnswers.
Context `{Environment}.
Import UniFiAdapter.

#[local] Arguments formatErrorForUser : simpl never.
#[local] Arguments statusError : simpl never.
#[local] Arguments String.append : simpl never.
#[local] Arguments outgoing : simpl never.
#[local] Arguments captureSession : simpl never.
#[local] Arguments rcIsOk : simpl never.
#[local] Arguments metaMsg : simpl never.

(** X13.  Under session authentication an authenticated adapter judges the
    legacy voucher endpoints by meta.rc, not by the HTTP status: a
    response with a status below 400 whose meta.rc is ok yields the
    vouchers of the body (the empty list when it has none), respectively
    completes the deletion; any other such response rejects with a
    ControllerError for unifi that carries meta.msg, or 'Failed to fetch
    vouchers', respectively 'Failed to delete voucher', when there is
    none. In each case exactly one request is made and nothing is retried. *)
Theorem legacy_answers_are_judged_by_rc :
  useApiKey = false ->
  (forall pages fuel w r n,
     isLoggedIn (adapter w) = true ->
     controller (outgoing (adapter w) (GetStatVoucher (site (unifi config)))) (net w)
       = (Responded r, n) ->
     Response.status r < 400 ->
     exists w' evs,
       fetchRawVouchers pages (S fuel) w =
         (if rcIsOk r then
            Ok (match Response.data r with
                | Some body => Body.vouchers body ??: []
                | None => []
                end)
          else Throw (ControllerError (metaMsg r ||: "Failed to fetch vouchers") "unifi"),
          w') /\
       trace w' = trace w ++ evs /\
       map fst (exchanges evs) = [GetStatVoucher (site (unifi config))]) /\
  (forall fuel voucherId w r n,
     isLoggedIn (adapter w) = true ->
     controller
       (outgoing (adapter w) (PostCmdHotspot (site (unifi config)) "delete-voucher" voucherId))
       (net w) = (Responded r, n) ->
     Response.status r < 400 ->
     exists w' evs,
       deleteVoucher (S fuel) voucherId w =
         (if rcIsOk r then Ok tt
          else Throw (ControllerError (metaMsg r ||: "Failed to delete voucher") "unifi"),
          w') /\
       trace w' = trace w ++ evs /\
       map fst (exchanges evs) =
         [PostCmdHotspot (site (unifi config)) "delete-voucher" voucherId]).
Proof.
  intros Hkey. split.
  - intros pages fuel w r n Hin Hc Hst.
    cbn [fetchRawVouchers]. rewrite bind_run. cbn [getAdapter]. rewrite Hin. cbn [negb].
    rewrite bind_run. cbn [ret]. rewrite bind_run.
    unfold UniFiAdapter.log at 1. cbn [emit]. rewrite tryCatch_run.
    unfold fetchVouchersOnce. rewrite Hkey.
    unfold fetchVouchersLegacyApi, request, bind, exchange, getAdapter, ret, throw,
      withAdapter, UniFiAdapter.log, emit.
    cbn. rewrite Hc. cbn. rewrite validateStatus_lt.
    destruct (Z.ltb_spec (Response.status r) 400); [|lia]. cbn. rewrite Hkey. cbn.
    destruct (rcIsOk r); cbn.
    all: eexists _, _; (split; [reflexivity|]); cbn.
    all: (split; [repeat rewrite <- app_assoc; reflexivity|]).
    all: rewrite ?exchanges_app, ?map_app; cbn; rewrite ?call_outgoing; reflexivity.
  - intros fuel voucherId w r n Hin Hc Hst.
    cbn [deleteVoucher]. rewrite bind_run. cbn [getAdapter]. rewrite Hin. cbn [negb].
    rewrite bind_run. cbn [ret]. rewrite bind_run.
    unfold UniFiAdapter.log at 1. cbn [emit]. rewrite tryCatch_run.
    unfold deleteVoucherOnce. rewrite Hkey.
    unfold deleteVoucherLegacyApi, request, bind, exchange, getAdapter, ret, throw,
      withAdapter, UniFiAdapter.log, emit.
    cbn. rewrite Hc. cbn. rewrite validateStatus_lt.
    destruct (Z.ltb_spec (Response.status r) 400); [|lia]. cbn. rewrite Hkey. cbn.
    destruct (rcIsOk r); cbn.
    all: eexists _, _; (split; [reflexivity|]); cbn.
    all: (split; [repeat rewrite <- app_assoc; reflexivity|]).
    all: rewrite ?exchanges_app, ?map_app; cbn; rewrite ?call_outgoing; reflexivity.
Qed.

End LegacyAnswers.

(* ---------------------------------------------------------------------- *)
(** ** The two paths to the WLANs *)

Section WlanPaths.
Context `{Environment}.
Import UniFiAdapter.

#[local] Arguments statusError : simpl never.
#[local] Arguments String.append : simpl never.
#[local] Arguments outgoing : simpl never.
#[local] Arguments captureSession : simpl never.

Lemma captureSession_isLoggedIn r a :
  isLoggedIn (captureSession r a) = isLoggedIn a.
Proof. unfold captureSession. destruct (Response.setCookie r), (Response.xCsrfToken r); reflexivity. Qed.

(** X16.  fetchWLANs asks the proxy path first: when that request succeeds
    (status below 400) and its body has a data array, the array is
    returned after that single request. In every other case (no answer, a
    status from 400, a body without data) it asks the direct path, whose
    outcome is the result: its data, the empty list when the body has
    none, or its error. The authenticated flag is never changed. *)
Theorem wlans_fall_back_to_the_direct_path w out1 out2 :
  let proxy := GetProxyWlanconf (site (unifi config)) in
  let direct := GetWlanconf (site (unifi config)) in
  let viaProxy := match out1 with
                  | Responded r1 => if Response.status r1 <? 400 then wlanData r1 else None
                  | NetworkError _ _ => None
                  end in
  let expected :=
    match viaProxy with
    | Some wlans => Ok wlans
    | None =>
        match out2 with
        | Responded r2 =>
            if Response.status r2 <? 400 then Ok (wlanData r2 ??: [])
            else Throw (statusError (Response.status r2))
        | NetworkError code text => Throw (AxiosError text code None)
        end
    end in
  answers proxy out1 ->
  answers direct out2 ->
  exists w' evs,
    fetchWLANs w = (expected, w') /\
    isLoggedIn (adapter w') = isLoggedIn (adapter w) /\
    trace w' = trace w ++ evs /\
    map fst (exchanges evs) =
      match viaProxy with Some _ => [proxy] | None => [proxy; direct] end.
Proof.
  intros proxy direct viaProxy expected H1 H2.
  subst expected viaProxy. cbv zeta.
  unfold fetchWLANs, request, bind, tryCatch, exchange, emit, withAdapter, getAdapter,
    ret, throw.
  cbn. rewrite (@answers_run _ _ _ _ _ H1 (call_outgoing _ _)). cbn.
  destruct out1 as [r1|code1 text1]; cbn;
    [rewrite validateStatus_lt; destruct (Response.status r1 <? 400) eqn:L1; cbn;
     [destruct useApiKey eqn:Hkey; cbn; destruct (wlanData r1) as [wlans|] eqn:Hd; cbn| ] | ].
  1, 3: eexists _, _; split; [reflexivity|]; cbn;
    (split; [try reflexivity; apply captureSession_isLoggedIn|]);
    (split; [reflexivity|]); cbn; rewrite call_outgoing; reflexivity.
  all: rewrite (@answers_run _ _ _ _ _ H2 (call_outgoing _ _)); cbn.
  all: destruct out2 as [r2|code2 text2]; cbn.
  all: try rewrite validateStatus_lt.
  all: try (destruct (Response.status r2 <? 400) eqn:L2; cbn).
  all: try rewrite Hkey; cbn.
  all: try match goal with |- context [useApiKey] => destruct useApiKey; cbn end.
  all: eexists _, _; (split; [reflexivity|]); cbn.
  all: (split; [try reflexivity; repeat rewrite captureSession_isLoggedIn; reflexivity|]).
  all: (split; [repeat rewrite <- app_assoc; reflexivity|]).
  all: rewrite ?exchanges_app, ?map_app; cbn; rewrite ?call_outgoing; reflexivity.
Qed.

End WlanPaths.

(* ---------------------------------------------------------------------- *)
(** ** The authenticated flag, the vouchers reported, and an idle poll *)

Section KeepingTheLogin.
Context `{Environment}.

Lemma keepsLogin_ret {A} (a : A) : keepsLogin (ret a).
Proof. intros w. reflexivity. Qed.

Lemma keepsLogin_throw {A} e : keepsLogin (@throw _ A e).
Proof. intros w. reflexivity. Qed.

Lemma keepsLogin_diverge {A} : keepsLogin (@diverge _ A).
Proof. intros w. reflexivity. Qed.

Lemma keepsLogin_bind {A B} (m : M A) (k : A -> M B) :
  keepsLogin m -> (forall a, keepsLogin (k a)) -> keepsLogin (bind m k).
Proof.
  intros Hm Hk w. rewrite bind_run. specialize (Hm w).
  destruct (m w) as [[a|e|] w1]; cbn [snd] in *; [|exact Hm|exact Hm].
  rewrite (Hk a w1). exact Hm.
Qed.

Lemma keepsLogin_tryCatch {A} (m : M A) (h : Error -> M A) :
  keepsLogin m -> (forall e, keepsLogin (h e)) -> keepsLogin (tryCatch m h).
Proof.
  intros Hm Hh w. rewrite tryCatch_run. specialize (Hm w).
  destruct (m w) as [[a|e|] w1]; cbn [snd] in *; [exact Hm| |exact Hm].
  rewrite (Hh e w1). exact Hm.
Qed.

Lemma keepsLogin_emit e : keepsLogin (emit e).
Proof. intros w. reflexivity. Qed.

Lemma keepsLogin_exchange {R} (ask : Net -> R * Net) record : keepsLogin (exchange ask record).
Proof. intros w. unfold exchange. destruct (ask (net w)). reflexivity. Qed.

Lemma keepsLogin_getAdapter : keepsLogin getAdapter.
Proof. intros w. reflexivity. Qed.

Lemma keepsLogin_capture r : keepsLogin (withAdapter (UniFiAdapter.captureSession r)).
Proof. intros w. reflexivity. Qed.

End KeepingTheLogin.

Create HintDb logins.
#[export] Hint Resolve keepsLogin_ret keepsLogin_throw keepsLogin_diverge keepsLogin_emit
  keepsLogin_exchange keepsLogin_getAdapter keepsLogin_capture : logins.

Ltac keeping :=
  repeat first
    [ solve [auto with logins]
    | apply keepsLogin_bind; [|intros ?]
    | apply keepsLogin_tryCatch; [|intros ?]
    | match goal with
      | |- keepsLogin (if ?b then _ else _) => destruct b
      | |- keepsLogin (match ?x with _ => _ end) => destruct x
      | |- keepsLogin (let _ := _ in _) => cbv zeta
      end ].

Section Authenticated.
Context `{Environment}.
Import UniFiAdapter.

Lemma log_keepsLogin lv m : keepsLogin (UniFiAdapter.log lv m).
Proof. unfold UniFiAdapter.log. keeping. Qed.
#[local] Hint Resolve log_keepsLogin : logins.

Lemma request_keepsLogin c : keepsLogin (request c).
Proof. unfold request. keeping. Qed.
#[local] Hint Resolve request_keepsLogin : logins.

Lemma fetchPages_keepsLogin fuel vs off : keepsLogin (fetchPages fuel vs off).
Proof.
  revert vs off. induction fuel as [|fuel IH]; intros vs off; cbn [fetchPages]; keeping.
Qed.
#[local] Hint Resolve fetchPages_keepsLogin : logins.

Lemma fetchVouchersOnce_keepsLogin pages : keepsLogin (fetchVouchersOnce pages).
Proof. unfold fetchVouchersOnce, fetchVouchersNewApi, fetchVouchersLegacyApi. keeping. Qed.

Lemma deleteVoucherOnce_keepsLogin id : keepsLogin (deleteVoucherOnce id).
Proof.
  unfold deleteVoucherOnce, deleteVoucherNewApi, deleteVoucherLegacyApi. keeping.
Qed.

Lemma fetchWLANs_keepsLogin : keepsLogin fetchWLANs.
Proof. unfold fetchWLANs. keeping. Qed.

(** An operation that logs in when it has to, makes its attempt and, on
    an expired session, logs in and starts again, ends authenticated
    whenever it returns. *)
Lemma ensured_then_attempt {A} (attempt : M A) (again : M A) label w a w' :
  keepsLogin attempt ->
  (forall v b v', again v = (Ok b, v') -> isLoggedIn (adapter v') = true) ->
  (current <- getAdapter ;;
   (if negb (isLoggedIn current) then login else ret tt) ;;
   UniFiAdapter.log info label ;;
   tryCatch attempt
     (fun e => if isSessionExpired e then
                 UniFiAdapter.log info "Session expired, re-authenticating..." ;;
                 setLoggedOut ;; login ;; again
               else throw e)) w = (Ok a, w') ->
  isLoggedIn (adapter w') = true.
Proof.
  intros Hk Hagain. rewrite bind_run. cbn [getAdapter]. rewrite bind_run.
  assert (Hensure : forall r w1,
             (if negb (isLoggedIn (adapter w)) then login else ret tt) w = (r, w1) ->
             r = Ok tt -> isLoggedIn (adapter w1) = true).
  { intros r w1 Hr ->. destruct (isLoggedIn (adapter w)) eqn:Hin; cbn in Hr.
    - inversion Hr; subst. exact Hin.
    - exact (login_logs_in _ Hr). }
  destruct ((if negb (isLoggedIn (adapter w)) then login else ret tt) w)
    as [[[]|e|] w1] eqn:Eens; try discriminate.
  specialize (Hensure _ _ eq_refl eq_refl).
  rewrite bind_run. cbn [UniFiAdapter.log emit]. rewrite tryCatch_run.
  match goal with |- context [attempt ?W] =>
    pose proof (Hk W) as HkW; destruct (attempt W) as [[b|e|] w2] eqn:Eat
  end; cbn [snd adapter] in HkW; try discriminate.
  - intros Hrun. inversion Hrun; subst. congruence.
  - destruct (isSessionExpired e); [|discriminate].
    rewrite bind_run. cbn [UniFiAdapter.log emit]. rewrite bind_run.
    unfold setLoggedOut, setLoggedIn. cbn [withAdapter]. rewrite bind_run.
    match goal with |- context [login ?W] => destruct (login W) as [[[]|e'|] w3] end;
      try discriminate.
    apply Hagain.
Qed.

(** X14.  Whenever getVouchers, deleteVoucher or getAvailableWLANs
    resolves, the adapter is authenticated afterwards, whatever its state
    was before the call. *)
Theorem operations_end_authenticated :
  (forall fuel w vouchers w',
     getVouchers fuel w = (Ok vouchers, w') -> isLoggedIn (adapter w') = true) /\
  (forall fuel voucherId w w',
     deleteVoucher fuel voucherId w = (Ok tt, w') -> isLoggedIn (adapter w') = true) /\
  (forall w wlans w',
     getAvailableWLANs w = (Ok wlans, w') -> isLoggedIn (adapter w') = true).
Proof.
  assert (Hraw : forall pages fuel w raw w',
             fetchRawVouchers pages fuel w = (Ok raw, w') -> isLoggedIn (adapter w') = true).
  { intros pages fuel. induction fuel as [|fuel IH]; intros w raw w' Hrun; [discriminate|].
    cbn [fetchRawVouchers] in Hrun.
    exact (ensured_then_attempt _ _ _ (fetchVouchersOnce_keepsLogin pages) IH Hrun). }
  split; [|split].
  - intros fuel w vouchers w' Hrun. unfold getVouchers in Hrun. rewrite bind_run in Hrun.
    destruct (fetchRawVouchers fuel fuel w) as [[raw|e|] w1] eqn:Er; try discriminate.
    destruct (mapVouchers_run raw w1) as (ms & w2 & Hm & Ha & _).
    rewrite Hm in Hrun. inversion Hrun; subst. rewrite Ha. exact (Hraw _ _ _ _ _ Er).
  - intros fuel voucherId. induction fuel as [|fuel IH]; intros w w' Hrun; [discriminate|].
    cbn [deleteVoucher] in Hrun.
    refine (ensured_then_attempt _ _ _ (deleteVoucherOnce_keepsLogin voucherId) _ Hrun).
    intros v [] v'. apply IH.
  - intros w wlans w'. unfold getAvailableWLANs. rewrite bind_run. cbn [getAdapter].
    rewrite bind_run.
    destruct (isLoggedIn (adapter w)) eqn:Hin; cbn [negb].
    + cbn [ret]. intros Hrun.
      match type of Hrun with ?m _ = _ =>
        assert (Hk : keepsLogin m) by (pose proof fetchWLANs_keepsLogin; keeping)
      end.
      specialize (Hk w). rewrite Hrun in Hk. cbn in Hk. congruence.
    + destruct (login w) as [[[]|e|] w1] eqn:El; try discriminate.
      pose proof (login_logs_in _ El) as Hin1. intros Hrun.
      match type of Hrun with ?m _ = _ =>
        assert (Hk : keepsLogin m) by (pose proof fetchWLANs_keepsLogin; keeping)
      end.
      specialize (Hk w1). rewrite Hrun in Hk. cbn in Hk. congruence.
Qed.

Lemma mapVoucher_wellFormed t v : wellFormed (mapVoucher t v).
Proof.
  unfold wellFormed, mapVoucher. cbn. repeat split.
  - generalize (UniFiVoucher.authorizedGuestLimit v), (UniFiVoucher.quota v).
    intros [q|] [q'|]; unfold jsOrDefault, jsOr;
      repeat (unfold truthy, truthy_option, truthy_Z; cbn;
              try match goal with |- context [?x =? 0] => destruct (Z.eqb_spec x 0) end);
      try assumption; discriminate.
  - destruct (UniFiVoucher.expired v) as [[|]|]; try discriminate.
    all: destruct (UniFiVoucher.status v) as [[|c s]|]; cbn; try discriminate.
    all: repeat match goal with |- context [if ?b then _ else _] => destruct b end;
      discriminate.
  - unfold jsOrDefault, jsOr.
    destruct (UniFiVoucher.id v) as [[|c s]|]; cbn;
      destruct (UniFiVoucher._id v) as [[|c' s']|]; cbn;
      try discriminate; auto.
Qed.

(** X15.  What getVouchers returns is the mapping of what fetchRawVouchers
    returned: one voucher per raw record, in the same order and with the
    same codes, and every voucher has a quota other than 0, a non-empty
    status, and a non-empty id unless its code is empty too. *)
Theorem reported_vouchers_are_well_formed fuel w vouchers w' :
  getVouchers fuel w = (Ok vouchers, w') ->
  exists raw w1,
    fetchRawVouchers fuel fuel w = (Ok raw, w1) /\
    map MappedVoucher.code vouchers = map UniFiVoucher.code raw /\
    Forall wellFormed vouchers /\
    adapter w' = adapter w1 /\ trace w' = trace w1.
Proof.
  intros Hrun. unfold getVouchers in Hrun. rewrite bind_run in Hrun.
  destruct (fetchRawVouchers fuel fuel w) as [[raw|e|] w1] eqn:Er; try discriminate.
  destruct (mapVouchers_run raw w1) as (ms & w2 & Hm & Ha & _ & _ & Ht & Hall).
  rewrite Hm in Hrun. inversion Hrun; subst. exists raw, w1.
  split; [reflexivity|].
  refine ((fun P => conj (proj1 P) (conj (proj2 P) (conj Ha Ht))) _).
  clear - Hall. induction Hall as [|v m vs ms (t & ->) _ (IHc & IHw)].
  - split; constructor.
  - split; [cbn; f_equal; exact IHc|constructor; [apply mapVoucher_wellFormed|exact IHw]].
Qed.

End Authenticated.

(* ---------------------------------------------------------------------- *)
(** ** Expired sessions *)

Section SessionExpiry.
Context `{Environment}.
Import UniFiAdapter.

#[local] Arguments formatErrorForUser : simpl never.
#[local] Arguments getConnectionErrorMessage : simpl never.
#[local] Arguments statusError : simpl never.
#[local] Arguments String.append : simpl never.
#[local] Arguments String.concat : simpl never.
#[local] Arguments outgoing : simpl never.

Ltac crunch :=
  repeat (cbn in *; try discriminate;
          match goal with
          | H : (_, _) = (_, _) |- _ => inversion H; clear H; subst
          | H : context [let (_, _) := ?x in _] |- _ => destruct x eqn:?
          | H : context [match ?x with _ => _ end] |- _ => destruct x eqn:?
          | H : context [if ?x then _ else _] |- _ => destruct x eqn:?
          end).


(** The shape that [fetchRawVouchers] and [deleteVoucher] share, from an
    authenticated adapter whose first attempt meets an expired session. *)
Lemma expired_session_run {A} (attempt again : M A) label w e w1 :
  isLoggedIn (adapter w) = true ->
  attempt (snd (UniFiAdapter.log info label w)) = (Throw e, w1) ->
  isSessionExpired e = true ->
  (current <- getAdapter ;;
   (if negb (isLoggedIn current) then login else ret tt) ;;
   UniFiAdapter.log info label ;;
   tryCatch attempt
     (fun e => if isSessionExpired e then
                 UniFiAdapter.log info "Session expired, re-authenticating..." ;;
                 setLoggedOut ;; login ;; again
               else throw e)) w =
  match login (afterExpiry w1) with
  | (Ok _, w2) => again w2
  | (Throw e', w2) => (Throw e', w2)
  | (Diverge, w2) => (Diverge, w2)
  end.
Proof.
  intros Hin Hfirst Hexp.
  rewrite bind_run. cbn [getAdapter]. rewrite Hin. cbn [negb].
  rewrite bind_run. cbn [ret]. rewrite bind_run.
  unfold UniFiAdapter.log in *. cbn [emit snd] in *.
  rewrite tryCatch_run, Hfirst, Hexp.
  rewrite bind_run. cbn [emit]. rewrite bind_run.
  unfold setLoggedOut, setLoggedIn. cbn [withAdapter].
  rewrite bind_run. unfold afterExpiry. cbn [adapter vorioClient service net trace].
  destruct (login _) as [[[]|e'|] w2]; reflexivity.
Qed.



End SessionExpiry.

Section Polling.
Context `{Environment}.
Import SyncService.

#[local] Arguments formatErrorForUser : simpl never.
#[local] Arguments statusError : simpl never.
#[local] Arguments String.append : simpl never.
#[local] Arguments String.concat : simpl never.
#[local] Arguments cloudUrl : simpl never.
#[local] Arguments showZ : simpl never.

Lemma logError_logs e w :
  exists w' logs,
    logError e w = (Ok tt, w') /\
    service w' = service w /\ adapter w' = adapter w /\
    trace w' = trace w ++ logs /\ cloudCalls logs = [] /\ exchanges logs = [].
Proof.
  unfold logError, SyncService.log, bind, emit, ret.
  destruct (ifTruthy (fmt_suggestion (formatErrorForUser e))); cbn;
    eexists _, _; (refine (conj eq_refl (conj eq_refl (conj eq_refl (conj _ (conj _ _)))));
                   [cbn; repeat rewrite app_one; reflexivity | reflexivity | reflexivity]).
Qed.

(** X27.  A command poll of the running service in which the cloud has
    nothing to deliver, because the request for commands fails or because
    it answers with an empty list, resolves after that single request: no
    request to the controller and no change to the adapter or to the
    service's state. *)
Theorem idle_poll_is_contained fuel w :
  isRunning (service w) = true ->
  match fst (cloud GetCommands (net w)) with
  | CloudResponded st data =>
      ((200 <=? st) && (st <? 300))%bool = true -> CloudData.commands data = []
  | _ => True
  end ->
  exists w' evs,
    commandPollTick fuel w = (Ok tt, w') /\
    adapter w' = adapter w /\ service w' = service w /\
    trace w' = trace w ++ evs /\
    cloudCalls evs = [GetCommands] /\ exchanges evs = [].
Proof.
  intros Hrun Hidle.
  unfold commandPollTick. rewrite bind_run. cbn [getService]. rewrite Hrun. cbn [negb].
  rewrite tryCatch_run. unfold processCommands. rewrite bind_run.
  unfold SyncService.log at 1. cbn [emit]. rewrite bind_run.
  unfold VorioClient.getCommands. rewrite bind_run.
  match goal with |- context [VorioClient.request ?c ?W] =>
    destruct (cloud_request_run c W) as (w1 & evs1 & Hsnd & Ht1 & Hcc1 & Hex1 & Ha1 & Hs1 & _ & Hout);
    pose proof (client_request_halts c W) as Hh;
    destruct (VorioClient.request c W) as [[data|e|] w1'] eqn:Er
  end; cbn [fst snd net adapter service trace] in *; subst w1'; [| |congruence].
  - cbn [ret].
    assert (Hnone : CloudData.commands data = []).
    { destruct (cloud GetCommands (net w)) as [[st d|c m|m] n]; cbn in Hout, Hidle;
        try discriminate.
      destruct ((200 <=? st) && (st <? 300))%bool; [|destruct Hout as (? & ? & _); discriminate].
      inversion Hout; subst. auto. }
    rewrite Hnone. cbn [ret].
    eexists _, _. split; [reflexivity|]. split; [exact Ha1|]. split; [exact Hs1|].
    split; [rewrite Ht1, <- app_assoc; reflexivity|].
    split; [rewrite cloudCalls_app, Hcc1; reflexivity|].
    rewrite exchanges_app, Hex1. reflexivity.
  - rewrite bind_run. unfold SyncService.log at 1. cbn [emit].
    match goal with |- context [logError e ?W] =>
      destruct (logError_logs e W) as (w2 & logs & Hl & Hs2 & Ha2 & Ht2 & Hcc2 & Hex2)
    end.
    rewrite Hl. cbn [adapter service trace] in *.
    eexists _, _. split; [reflexivity|]. split; [congruence|]. split; [congruence|].
    split; [rewrite Ht2, Ht1; repeat rewrite <- app_assoc; reflexivity|].
    cbn [app].
    split.
    + repeat (rewrite cloudCalls_app || cbn [cloudCalls flat_map app]).
      fold (cloudCalls evs1). fold (cloudCalls logs). rewrite Hcc1, Hcc2. reflexivity.
    + unfold exchanges in *. cbn [flat_map app]. repeat rewrite flat_map_app.
      cbn [flat_map app]. rewrite Hex1, Hex2. reflexivity.
Qed.

End Polling.

(* ---------------------------------------------------------------------- *)
(** ** An acknowledgement that the cloud refuses *)

Section RefusedAcknowledgement.
Context `{Environment}.
Import SyncService.

#[local] Arguments formatErrorForUser : simpl never.
#[local] Arguments statusError : simpl never.
#[local] Arguments String.append : simpl never.
#[local] Arguments String.concat : simpl never.
#[local] Arguments cloudUrl : simpl never.
#[local] Arguments showZ : simpl never.

(** X28.  When the cloud delivers a non-empty batch and then refuses the
    acknowledgement of its first command, the command poll of the running
    service ends there and still resolves: that command is neither
    dispatched nor completed, the remaining commands are not acknowledged
    or processed at all, the controller is not contacted, and the adapter
    and the service's state are unchanged. *)
Theorem refused_acknowledgement_ends_the_batch fuel command rest w st data n :
  isRunning (service w) = true ->
  cloud GetCommands (net w) = (CloudResponded st data, n) ->
  ((200 <=? st) && (st <? 300))%bool = true ->
  CloudData.commands data = command :: rest ->
  match fst (cloud (PostAck (VorioCommand.id command)) n) with
  | CloudResponded st' _ => ((200 <=? st') && (st' <? 300))%bool = false
  | _ => True
  end ->
  exists w' evs,
    commandPollTick fuel w = (Ok tt, w') /\
    adapter w' = adapter w /\ service w' = service w /\
    trace w' = trace w ++ evs /\
    cloudCalls evs = [GetCommands; PostAck (VorioCommand.id command)] /\
    exchanges evs = [].
Proof.
  intros Hrun Hget Hst Hcmds Hack.
  unfold commandPollTick. rewrite bind_run. cbn [getService]. rewrite Hrun. cbn [negb].
  rewrite tryCatch_run. unfold processCommands. rewrite bind_run.
  unfold SyncService.log at 1. cbn [emit]. rewrite bind_run.
  unfold VorioClient.getCommands. rewrite bind_run.
  match goal with |- context [VorioClient.request ?c ?W] =>
    destruct (cloud_request_run c W)
      as (w1 & evs1 & Hsnd & Ht1 & Hcc1 & Hex1 & Ha1 & Hs1 & _ & Hout);
    assert (Hn1 : net (snd (VorioClient.request c W)) = n)
      by (unfold VorioClient.request, bind, exchange, emit; cbn [net];
          rewrite Hget; cbn; rewrite Hst; reflexivity);
    destruct (VorioClient.request c W) as [[d|e|] w1'] eqn:Er
  end; cbn [fst snd net adapter service trace] in *; subst w1';
    rewrite Hget in Hout; cbn [fst] in Hout; rewrite Hst in Hout;
    [|discriminate|discriminate].
  inversion Hout; subst d. clear Hout.
  cbn [ret]. rewrite Hcmds. rewrite bind_run. unfold SyncService.log at 1. cbn [emit].
  cbn [forEachCommand]. rewrite bind_run. unfold processCommand. rewrite bind_run.
  unfold SyncService.log at 1. cbn [emit]. rewrite bind_run.
  unfold VorioClient.acknowledgeCommand. rewrite bind_run.
  unfold VorioClient.log at 1. cbn [emit]. rewrite bind_run.
  match goal with |- context [VorioClient.request ?c ?W] =>
    destruct (cloud_request_run c W)
      as (w2 & evs2 & Hsnd2 & Ht2 & Hcc2 & Hex2 & Ha2 & Hs2 & _ & Hout2);
    pose proof (client_request_halts c W) as Hh2;
    destruct (VorioClient.request c W) as [[d|e|] w2'] eqn:Er2
  end; cbn [fst snd net adapter service trace] in *; subst w2'; [| |congruence].
  { exfalso. rewrite Hn1 in Hout2.
    destruct (cloud (PostAck (VorioCommand.id command)) n) as [[st' d'|c' m'|m'] n'];
      cbn [fst] in *; try discriminate.
    rewrite Hack in Hout2. destruct Hout2 as (? & ? & _). discriminate. }
  rewrite bind_run. unfold SyncService.log at 1. cbn [emit].
  match goal with |- context [logError e ?W] =>
    destruct (logError_logs e W) as (w3 & logs & Hl & Hs3 & Ha3 & Ht3 & Hcc3 & Hex3)
  end.
  rewrite Hl. cbn [adapter service trace] in *.
  eexists _, _. split; [reflexivity|]. split; [congruence|]. split; [congruence|].
  split; [rewrite Ht3, Ht2, Ht1; repeat rewrite <- app_assoc; reflexivity|].
  cbn [app].
  split.
  - repeat (rewrite cloudCalls_app || cbn [cloudCalls flat_map app]).
    fold (cloudCalls evs1). fold (cloudCalls evs2). fold (cloudCalls logs).
    rewrite Hcc1, Hcc2, Hcc3. reflexivity.
  - repeat (rewrite exchanges_app || cbn [exchanges flat_map app]).
    fold (exchanges evs1). fold (exchanges evs2). fold (exchanges logs).
    rewrite Hex1, Hex2, Hex3. reflexivity.
Qed.

End RefusedAcknowledgement.

(* ---------------------------------------------------------------------- *)
(** ** Batches of commands *)

Section Batches.
Context `{Environment}.
Import SyncService.

#[local] Arguments formatErrorForUser : simpl never.
#[local] Arguments statusError : simpl never.
#[local] Arguments String.append : simpl never.
#[local] Arguments String.concat : simpl never.
#[local] Arguments cloudUrl : simpl never.
#[local] Arguments showZ : simpl never.
#[local] Arguments VorioClient.disconnect : simpl never.
#[local] Arguments UniFiAdapter.logout : simpl never.

(** The loop over [before ++ c :: after], by the outcome of its run over
    [before] and of the processing of [c]. *)
Lemma forEachCommand_at fuel before c after w :
  forEachCommand fuel (before ++ c :: after) w =
  match forEachCommand fuel before w with
  | (Ok _, w0) =>
      match processCommand fuel c w0 with
      | (Ok _, w3) => forEachCommand fuel after w3
      | (Throw e, w3) => (Throw e, w3)
      | (Diverge, w3) => (Diverge, w3)
      end
  | (Throw e, w0) => (Throw e, w0)
  | (Diverge, w0) => (Diverge, w0)
  end.
Proof.
  rewrite forEachCommand_app.
  destruct (forEachCommand fuel before w) as [[[]|e|] w0]; reflexivity.
Qed.

(** Claim C4, as the code has it.  In a batch of commands processed in
    one tick, with a cloud that accepts acknowledgements and completion
    reports, every command [c] that the loop reaches is acknowledged
    first, then dispatched, then reported: a dispatch that returns is
    completed with [success = true], a dispatch that throws [e] is
    completed with [success = false] and the message of [e], and a
    [disconnect] command is the exception, for which no completion is
    reported at all.  The dispatch itself sends no acknowledgement and no
    completion.  In these three cases the loop goes on with the rest of
    the batch from where the command left it.  The one thing that keeps
    the rest from being processed is a dispatch that does not come to an
    end: the command is then acknowledged and never completed, and the
    loop does not come to an end either; this is also the only way for
    the loop not to reach [c].  The loop never throws, and a run of it
    that comes to an end is the same under every larger bound. *)
Theorem batch_processing fuel before c after w :
  reportsAccepted ->
  let whole := forEachCommand fuel (before ++ c :: after) w in
  match forEachCommand fuel before w with
  | (Ok _, w0) =>
      exists w1 d w2 w3 effects report,
        (* [c] is acknowledged first *)
        (SyncService.log info "Processing command" ;;
         VorioClient.acknowledgeCommand (VorioCommand.id c)) w0 = (Ok tt, w1) /\
        trace w1 = trace w0 ++
          [ Logged "Sync" info "Processing command";
            Logged "Vorio" debug "Acknowledging command";
            CloudHttp (PostAck (VorioCommand.id c))
              (fst (cloud (PostAck (VorioCommand.id c)) (net w0))) ] /\
        (* then dispatched, which makes no report by itself *)
        dispatchCommand fuel c w1 = (d, w2) /\
        trace w2 = trace w1 ++ effects /\ Forall quiet effects /\
        (* then reported according to the outcome of the dispatch *)
        trace w3 = trace w2 ++ report /\
        match d with
        | Ok true =>
            VorioCommand.type c <> "disconnect" /\
            cloudCalls report = [PostComplete (VorioCommand.id c) true None] /\
            processCommand fuel c w0 = (Ok tt, w3) /\
            whole = forEachCommand fuel after w3
        | Ok false =>
            VorioCommand.type c = "disconnect" /\
            report = [] /\
            processCommand fuel c w0 = (Ok tt, w3) /\
            whole = forEachCommand fuel after w3
        | Throw e =>
            VorioCommand.type c <> "disconnect" /\
            cloudCalls report =
              [PostComplete (VorioCommand.id c) false (Some (getErrorMessage e))] /\
            processCommand fuel c w0 = (Ok tt, w3) /\
            whole = forEachCommand fuel after w3
        | Diverge =>
            VorioCommand.type c <> "disconnect" /\
            cloudCalls report = [] /\
            processCommand fuel c w0 = (Diverge, w3) /\
            whole = (Diverge, w3)
        end
  | (Throw _, _) => False
  | (Diverge, w0) => whole = (Diverge, w0)
  end /\
  (fst whole = Ok tt \/ fst whole = Diverge) /\
  (forall fuel', (fuel <= fuel')%nat -> fst whole <> Diverge ->
                 forEachCommand fuel' (before ++ c :: after) w = whole).
Proof.
  intros Hacc whole. subst whole.
  split; [|split].
  - rewrite forEachCommand_at.
    pose proof (forEachCommand_outcome fuel before w Hacc) as Hb.
    destruct (forEachCommand fuel before w) as [[[]|e|] w0] eqn:Eb; cbn [fst] in Hb;
      [|destruct Hb; discriminate|reflexivity].
    destruct (processCommand_run fuel c w0 Hacc) as (w1 & Hack & _ & _ & Htr1 & Hd).
    destruct (dispatchCommand fuel c w1) as [d w2] eqn:Ed.
    destruct (Hd d w2 eq_refl) as (w3 & report & Hp & _ & _ & Htr3 & Hcc & Hnil).
    destruct (dispatchCommand_step fuel c w1) as [(effects & Hte & Hq) _].
    rewrite Ed in Hte. cbn [snd] in Hte.
    exists w1, d, w2, w3, effects, report.
    repeat (split; [assumption|]).
    rewrite Hp.
    destruct (String.eqb_spec (VorioCommand.type c) "disconnect") as [Hty|Hty].
    + destruct (dispatchCommand_disconnect fuel c w1 Hty) as (w' & _ & Hdis).
      rewrite Ed in Hdis. inversion Hdis; subst.
      destruct (Hnil eq_refl) as [_ ->]. auto.
    + pose proof (dispatchCommand_other fuel c w1 Hty) as Hnot. rewrite Ed in Hnot.
      destruct d as [[|]|e|]; cbn [fst] in Hnot; auto.
      exfalso. apply Hnot. reflexivity.
  - apply forEachCommand_outcome. exact Hacc.
  - intros fuel' Hle Hend.
    destruct (forEachCommand fuel (before ++ c :: after) w) as [r w_end] eqn:Erun.
    exact (@forEachCommand_more _ fuel fuel' _ Hle _ _ _ Erun Hend).
Qed.

(** A [disconnect] command whose acknowledgement the cloud accepts. *)
Lemma processCommand_disconnect fuel c w st data n :
  VorioCommand.type c = "disconnect" ->
  cloud (PostAck (VorioCommand.id c)) (net w) = (CloudResponded st data, n) ->
  ((200 <=? st) && (st <? 300))%bool = true ->
  exists w1 w2,
    (SyncService.log info "Processing command" ;;
     VorioClient.acknowledgeCommand (VorioCommand.id c)) w = (Ok tt, w1) /\
    service w1 = service w /\
    trace w1 = trace w ++
      [ Logged "Sync" info "Processing command";
        Logged "Vorio" debug "Acknowledging command";
        CloudHttp (PostAck (VorioCommand.id c)) (CloudResponded st data) ] /\
    handleDisconnectCommand w1 = (Ok tt, w2) /\
    processCommand fuel c w = (Ok tt, w2).
Proof.
  intros Hty Hc Hst.
  assert (Hack : exists w1,
             (SyncService.log info "Processing command" ;;
              VorioClient.acknowledgeCommand (VorioCommand.id c)) w = (Ok tt, w1) /\
             service w1 = service w /\
             trace w1 = trace w ++
               [ Logged "Sync" info "Processing command";
                 Logged "Vorio" debug "Acknowledging command";
                 CloudHttp (PostAck (VorioCommand.id c)) (CloudResponded st data) ]).
  { unfold VorioClient.acknowledgeCommand, VorioClient.request, VorioClient.log,
      SyncService.log, bind, exchange, emit, ret.
    cbn. rewrite Hc. cbn. rewrite Hst. cbn.
    eexists. split; [reflexivity|]. split; [reflexivity|].
    cbn. repeat rewrite app_one. reflexivity. }
  destruct Hack as (w1 & Hack & Hs1 & Ht1).
  destruct (dispatchCommand_disconnect fuel c w1 Hty) as (w2 & Hh & Hdis).
  exists w1, w2. repeat (split; [assumption|]).
  unfold processCommand. rewrite bind_run.
  rewrite bind_run in Hack.
  destruct (SyncService.log info "Processing command" w) as [[[]|e|] w'] eqn:El;
    try discriminate.
  rewrite bind_run, Hack, tryCatch_run, bind_run, Hdis. reflexivity.
Qed.

(** A command whose acknowledgement the cloud refuses is not dispatched. *)
Lemma processCommand_refused fuel c w :
  match fst (cloud (PostAck (VorioCommand.id c)) (net w)) with
  | CloudResponded st _ => ((200 <=? st) && (st <? 300))%bool = false
  | _ => True
  end ->
  exists e w1 evs,
    processCommand fuel c w = (Throw e, w1) /\
    service w1 = service w /\ adapter w1 = adapter w /\
    trace w1 = trace w ++ evs /\
    cloudCalls evs = [PostAck (VorioCommand.id c)] /\ exchanges evs = [].
Proof.
  intros Href.
  unfold processCommand. rewrite bind_run. unfold SyncService.log at 1. cbn [emit].
  rewrite bind_run. unfold VorioClient.acknowledgeCommand. rewrite bind_run.
  unfold VorioClient.log at 1. cbn [emit]. rewrite bind_run.
  match goal with |- context [VorioClient.request ?q ?W] =>
    destruct (cloud_request_run q W)
      as (w2 & evs2 & Hsnd2 & Ht2 & Hcc2 & Hex2 & Ha2 & Hs2 & _ & Hout2);
    pose proof (client_request_halts q W) as Hh2;
    destruct (VorioClient.request q W) as [[d|e|] w2'] eqn:Er2
  end; cbn [fst snd net adapter service trace] in *; subst w2'; [| |congruence].
  { exfalso.
    destruct (cloud (PostAck (VorioCommand.id c)) (net w)) as [[st' d'|c' m'|m'] n'];
      cbn [fst] in *; try discriminate.
    rewrite Href in Hout2. destruct Hout2 as (? & ? & _). discriminate. }
  eexists e, w2, _. split; [reflexivity|]. split; [exact Hs2|]. split; [exact Ha2|].
  split; [rewrite Ht2; repeat rewrite <- app_assoc; reflexivity|].
  cbn [app]. split.
  - repeat (rewrite cloudCalls_app || cbn [cloudCalls flat_map app]).
    fold (cloudCalls evs2). rewrite Hcc2. reflexivity.
  - repeat (rewrite exchanges_app || cbn [exchanges flat_map app]).
    fold (exchanges evs2). rewrite Hex2. reflexivity.
Qed.

(** The stop sequence that a [disconnect] command runs, from a service
    that is running or already at rest. *)
Lemma handleDisconnectCommand_run w w2 :
  isRunning (service w) = true \/ stopped (service w) ->
  handleDisconnectCommand w = (Ok tt, w2) ->
  exists halting,
    trace w2 = trace w ++ halting /\ Forall quiet halting /\
    stopped (service w2) /\
    (isRunning (service w) = true ->
       In (Logged "Sync" info "Stopping sync service...") halting /\
       (forall h, commandPollInterval (service w) = Some h -> In (ClearInterval h) halting) /\
       (forall h, syncInterval (service w) = Some h -> In (ClearInterval h) halting) /\
       In PostDisconnect (cloudCalls halting) /\
       isLoggedIn (adapter w2) = false).
Proof.
  intros Hinv Hh.
  unfold handleDisconnectCommand in Hh. rewrite bind_run in Hh.
  unfold SyncService.log in Hh. cbn [emit] in Hh.
  set (w' := {| adapter := adapter w; vorioClient := vorioClient w;
                service := service w; net := net w;
                trace := trace w ++ [Logged "Sync" info "Received disconnect command"] |})
    in Hh.
  destruct (isRunning (service w)) eqn:Hr0.
  - assert (Hr1 : isRunning (service w') = true) by exact Hr0.
    destruct (stop_running w' Hr1)
      as (w3 & evs & Hs & Hst & Hout & Ht & Hq & Hlog & Hc1 & Hc2 & Hdc).
    rewrite Hs in Hh. inversion Hh; subst w3.
    exists (Logged "Sync" info "Received disconnect command" :: evs).
    split; [rewrite Ht; cbn; rewrite app_one; reflexivity|].
    split; [constructor; [exact I|exact Hq]|].
    split; [exact Hst|].
    intros _. unfold w' in Hc1, Hc2. cbn [service] in Hc1, Hc2.
    split; [right; exact Hlog|].
    split; [intros h Hh'; right; auto|].
    split; [intros h Hh'; right; auto|].
    split; [exact Hdc|exact Hout].
  - assert (Hr1 : isRunning (service w') = false) by exact Hr0.
    rewrite (stop_idle w' Hr1) in Hh. inversion Hh; subst w2.
    exists [Logged "Sync" info "Received disconnect command"].
    split; [reflexivity|]. split; [repeat constructor|].
    split; [|discriminate].
    unfold w'. cbn [service].
    destruct Hinv as [Habs|Hst]; [congruence|exact Hst].
Qed.

(** Claim C5, as the code has it.  A [disconnect] command in a batch
    that a running service processes.  No completion is ever reported
    for it, whatever becomes of the batch: not by its own processing and
    not, its identifier being its own, by the rest of the batch.  When
    the loop reaches the command and the cloud accepts its
    acknowledgement, its dispatch runs the stop sequence (the stop is
    announced, both timers are cleared, the cloud is told of the
    disconnection, the adapter is logged out) and leaves the service
    stopped; [processCommand] returns from there, the loop goes on with
    the rest of the batch, and the service is still stopped at its end.
    When the cloud refuses the acknowledgement, [processCommand] throws
    before the dispatch: the stop sequence does not run, the service is
    left as it was, and the loop ends with that error.  The loop does not
    reach the command when it has ended before it. *)
Theorem disconnect_stops_without_completion fuel before c after w :
  VorioCommand.type c = "disconnect" ->
  isRunning (service w) = true ->
  ~ In (VorioCommand.id c) (map VorioCommand.id (before ++ after)) ->
  let whole := forEachCommand fuel (before ++ c :: after) w in
  exists events,
    trace (snd whole) = trace w ++ events /\
    (* no completion is ever sent for the command *)
    (forall success error,
       ~ In (PostComplete (VorioCommand.id c) success error) (cloudCalls events)) /\
    match forEachCommand fuel before w with
    | (Ok _, w0) =>
        (* the loop reaches the command and asks the cloud to acknowledge it *)
        In (PostAck (VorioCommand.id c)) (cloudCalls events) /\
        ((match fst (cloud (PostAck (VorioCommand.id c)) (net w0)) with
          | CloudResponded st _ => ((200 <=? st) && (st <? 300))%bool
          | _ => false
          end = true /\
         exists w1 w2 halting,
          (SyncService.log info "Processing command" ;;
           VorioClient.acknowledgeCommand (VorioCommand.id c)) w0 = (Ok tt, w1) /\
          (* the dispatch runs the stop sequence, which leaves the service at rest *)
          handleDisconnectCommand w1 = (Ok tt, w2) /\
          trace w2 = trace w1 ++ halting /\
          Forall quiet halting /\
          stopped (service w2) /\
          (isRunning (service w0) = true ->
             In (Logged "Sync" info "Stopping sync service...") halting /\
             (forall h, commandPollInterval (service w0) = Some h ->
                        In (ClearInterval h) halting) /\
             (forall h, syncInterval (service w0) = Some h -> In (ClearInterval h) halting) /\
             In PostDisconnect (cloudCalls halting) /\
             isLoggedIn (adapter w2) = false) /\
          (* and [processCommand] returns from there, without a completion *)
          processCommand fuel c w0 = (Ok tt, w2) /\
          whole = forEachCommand fuel after w2 /\
          stopped (service (snd whole)))
         \/
         (match fst (cloud (PostAck (VorioCommand.id c)) (net w0)) with
          | CloudResponded st _ => ((200 <=? st) && (st <? 300))%bool
          | _ => false
          end = false /\
          exists e w1,
            (* the acknowledgement is refused: no dispatch, no stop *)
            processCommand fuel c w0 = (Throw e, w1) /\
            service w1 = service w0 /\ adapter w1 = adapter w0 /\
            whole = (Throw e, w1)))
    | (Throw e, w0) => whole = (Throw e, w0)
    | (Diverge, w0) => whole = (Diverge, w0)
    end.
Proof.
  intros Hty Hrunning Hfresh whole. subst whole.
  assert (Hfb : ~ In (VorioCommand.id c) (map VorioCommand.id before)).
  { intros Hin. apply Hfresh. rewrite map_app. apply in_or_app. auto. }
  assert (Hfa : ~ In (VorioCommand.id c) (map VorioCommand.id after)).
  { intros Hin. apply Hfresh. rewrite map_app. apply in_or_app. auto. }
  destruct (@forEachCommand_step _ fuel before (VorioCommand.id c) Hfb w)
    as [(evb & Htb & Hqb) [_ Hinv0]].
  specialize (Hinv0 (or_introl Hrunning)).
  rewrite forEachCommand_at.
  destruct (forEachCommand fuel before w) as [[[]|e|] w0] eqn:Eb;
    cbn [snd] in Htb, Hinv0.
  2, 3: exists evb; split; [exact Htb|]; split;
    [apply no_completion_reported; exact Hqb|reflexivity].
  destruct (cloud (PostAck (VorioCommand.id c)) (net w0)) as [out n] eqn:Ec.
  assert (Hcases :
            (exists st data, out = CloudResponded st data /\
                             ((200 <=? st) && (st <? 300))%bool = true) \/
            match out with
            | CloudResponded st _ => ((200 <=? st) && (st <? 300))%bool = false
            | _ => True
            end).
  { destruct out as [st data|code m|m]; auto.
    destruct ((200 <=? st) && (st <? 300))%bool eqn:Est; [left; eauto|right; reflexivity]. }
  destruct Hcases as [(st & data & -> & Hst)|Href].
  - destruct (processCommand_disconnect fuel c w0 Hty Ec Hst)
      as (w1 & w2 & Hack & Hs1 & Ht1 & Hh & Hp).
    assert (Hinv1 : isRunning (service w1) = true \/ stopped (service w1))
      by (rewrite Hs1; exact Hinv0).
    destruct (@handleDisconnectCommand_run w1 w2 Hinv1 Hh) as (halting & Hth & Hqh & Hst2 & Hev).
    rewrite Hs1 in Hev.
    destruct (@forEachCommand_step _ fuel after (VorioCommand.id c) Hfa w2)
      as [(eva & Hta & Hqa) [Hrest _]].
    rewrite Hp. cbv beta iota.
    exists (evb ++ [ Logged "Sync" info "Processing command";
                     Logged "Vorio" debug "Acknowledging command";
                     CloudHttp (PostAck (VorioCommand.id c)) (CloudResponded st data) ]
                ++ halting ++ eva).
    split; [rewrite Hta, Hth, Ht1, Htb; repeat rewrite <- app_assoc; reflexivity|].
    split.
    { apply no_completion_reported.
      repeat (apply Forall_app; split); auto.
      - repeat constructor.
      - eapply Forall_impl; [|exact Hqh]. intros ev. apply quiet_notCompletionOf. }
    split.
    { rewrite !cloudCalls_app. apply in_or_app. right. apply in_or_app. left.
      cbn. auto. }
    left. cbn [fst]. split; [exact Hst|].
    exists w1, w2, halting. repeat (split; [first [assumption|reflexivity]|]).
    apply Hrest. exact Hst2.
  - assert (Href' : match fst (cloud (PostAck (VorioCommand.id c)) (net w0)) with
                    | CloudResponded st _ => ((200 <=? st) && (st <? 300))%bool = false
                    | _ => True
                    end) by (rewrite Ec; exact Href).
    destruct (processCommand_refused fuel c w0 Href')
      as (e & w1 & evs & Hp & Hs1 & Ha1 & Ht1 & Hcc1 & _).
    rewrite Hp. cbv beta iota. cbn [snd].
    exists (evb ++ evs).
    split; [rewrite Ht1, Htb, app_assoc; reflexivity|].
    split.
    { intros success error Hin. rewrite cloudCalls_app, Hcc1 in Hin.
      apply in_app_or in Hin. destruct Hin as [Hin|[Hin|[]]]; [|discriminate].
      exact (no_completion_reported Hqb success error Hin). }
    split.
    { rewrite cloudCalls_app, Hcc1. apply in_or_app. right. left. reflexivity. }
    right. cbn [fst]. split.
    { destruct out as [st data|code m|m]; auto. }
    exists e, w1. auto.
Qed.

End Batches.

(* ---------------------------------------------------------------------- *)
(** ** Further runs on scenarios *)

Section More_runs_on_scenarios.
Import Scenario Cases.

Lemma answers_scripted c ctl cld call out :
  (forall n, ctl n call = out) -> @answers (scripted c ctl cld) call out.
Proof. intros Hctl req n Hc. cbn. rewrite Hc. apply Hctl. Qed.

Lemma testConnectivity_any_answer_witness :
  fst (@UniFiAdapter.testConnectivity polling (start polling 0%nat false false)) = Ok true.
Proof.
  destruct (proj1 (@testConnectivity_any_answer polling)
              (start polling 0%nat false false)
              {| Response.status := 200; Response.setCookie := None;
                 Response.xCsrfToken := None; Response.data := None |}
              1%nat eq_refl) as (w' & Hrun & _).
  rewrite Hrun. reflexivity.
Defined.

Lemma other_errors_are_not_retried_witness :
  fst (@UniFiAdapter.deleteVoucher polling 2 "v-404" (start polling 0%nat true true)) =
  Throw (statusError 404).
Proof.
  erewrite (proj2 (@other_errors_are_not_retried polling) 1%nat "v-404"
              (start polling 0%nat true true)).
  - reflexivity.
  - reflexivity.
  - vm_compute. reflexivity.
  - reflexivity.
Defined.

Lemma logout_clears_session_witness :
  exists w',
    @UniFiAdapter.logout selfHosted (start selfHosted 0%nat true true) = (Ok tt, w') /\
    isLoggedIn (adapter w') = false /\ cookies (adapter w') = [].
Proof.
  destruct (@logout_clears_session selfHosted (start selfHosted 0%nat true true))
    as (w' & evs & Hrun & _ & Hout & _ & _ & _ & _ & _ & Hin).
  exists w'. split; [exact Hrun|]. split; [exact Hout|]. apply Hin. reflexivity.
Defined.

Lemma delete_accepts_200_and_204_only_witness :
  fst (@UniFiAdapter.deleteVoucherNewApi noWlans "v-1" (start noWlans 0%nat true true)) = Ok tt.
Proof.
  destruct (@delete_accepts_200_and_204_only noWlans "v-1" (start noWlans 0%nat true true)
              {| Response.status := 200; Response.setCookie := None;
                 Response.xCsrfToken := None; Response.data := None |}
              1%nat eq_refl) as (w' & Hrun & _).
  rewrite Hrun. reflexivity.
Defined.

Lemma session_cookies_are_sent_back_witness :
  exists w',
    @UniFiAdapter.request selfHosted (PostLogin "admin" "secret")
      (start selfHosted 0%nat false false) = (Ok sessionCookie, w') /\
    CtlRequest.cookie (@UniFiAdapter.outgoing selfHosted (adapter w') PostLogout) =
      Some "unifises=abc123".
Proof.
  destruct (@session_cookies_are_sent_back selfHosted (PostLogin "admin" "secret")
              (start selfHosted 0%nat false false) sessionCookie 1%nat eq_refl)
    as (w' & Hrun & _ & _ & Hsession).
  exists w'. split; [exact Hrun|].
  destruct (Hsession eq_refl ltac:(cbn; lia)) as (_ & _ & Hcookies).
  destruct (Hcookies _ eq_refl) as (_ & Hsent). exact (Hsent PostLogout).
Defined.

Lemma pages_are_fetched_in_sequence_witness :
  exists evs,
    trace (snd (@UniFiAdapter.fetchVouchersNewApi paged 3 (start paged 0%nat true true))) = evs /\
    [usedOnce; unused] = List.concat (map snd (voucherPages evs)) /\
    contiguous 0 (voucherPages evs).
Proof.
  destruct (@pages_are_fetched_in_sequence paged 3 (start paged 0%nat true true)
              [usedOnce; unused]
              (snd (@UniFiAdapter.fetchVouchersNewApi paged 3 (start paged 0%nat true true))))
    as (evs & Htr & Hres & Hcont).
  - vm_compute. reflexivity.
  - exists evs. split; [exact Htr|]. split; [exact Hres|exact Hcont].
Defined.

Lemma paging_stops_at_the_last_page_witness :
  fst (@UniFiAdapter.fetchPages polling 1 [] 0 (start polling 0%nat true true)) =
  Ok [usedOnce; unused].
Proof.
  destruct (@paging_stops_at_the_last_page polling 0%nat [] 0 (start polling 0%nat true true)
              {| Response.status := 200; Response.setCookie := None;
                 Response.xCsrfToken := None; Response.data := Some vouchersBody |}
              1%nat eq_refl ltac:(cbn; lia) ltac:(right; cbn; lia))
    as (w' & Hrun & _).
  rewrite Hrun. reflexivity.
Defined.

Lemma listed_wlans_are_the_enabled_ones_witness :
  fst (@UniFiAdapter.getAvailableWLANs broadcasting (start broadcasting 0%nat true true)) =
  Ok [UniFiAdapter.mapWLAN guestWlan].
Proof.
  destruct (@listed_wlans_are_the_enabled_ones broadcasting
              (start broadcasting 0%nat true true) [guestWlan; officeWlan]
              (snd (@UniFiAdapter.fetchWLANs broadcasting
                      (snd (@UniFiAdapter.log broadcasting info "Fetching available WLANs..."
                              (start broadcasting 0%nat true true))))))
    as (Hrun & _).
  - reflexivity.
  - vm_compute. reflexivity.
  - rewrite Hrun. reflexivity.
Defined.

Lemma security_mode_is_normalised_witness :
  UniFiAdapter.mapSecurityMode wpaWlan = UniFiAdapter.mapSecurityMode officeWlan.
Proof.
  apply (proj2 (proj2 (proj2 (security_mode_is_normalised officeWlan)))).
  reflexivity.
Defined.

Lemma stop_is_final_witness :
  exists w',
    @SyncService.stop polling (start polling 0%nat true true) = (Ok tt, w') /\
    stopped (service w') /\
    @SyncService.commandPollTick polling 3 w' = (Ok tt, w').
Proof.
  destruct (@stop_is_final polling 3 (start polling 0%nat true true))
    as (w' & Hrun & _ & _ & Hstop & _ & Htick & _).
  exists w'. split; [exact Hrun|]. split; [apply Hstop; reflexivity|exact Htick].
Defined.

Lemma sync_failure_is_reported_witness :
  exists w',
    @SyncService.syncTick refusing 2 (start refusing 0%nat false true) = (Ok tt, w') /\
    lastError (status (service w')) =
      Some (@UniFiAdapter.getConnectionErrorMessage refusing "ECONNREFUSED").
Proof.
  destruct (@sync_failure_is_reported refusing 2 (start refusing 0%nat false true)
              (ConnectionError (@UniFiAdapter.getConnectionErrorMessage refusing "ECONNREFUSED")
                 "unifi" (Some "192.168.1.1") (Some 8443) (Some "ECONNREFUSED"))
              (snd (@SyncService.syncCycle refusing 2 (start refusing 0%nat false true))))
    as (w' & evs & Hrun & Herr & _).
  - reflexivity.
  - vm_compute. reflexivity.
  - exists w'. split; [exact Hrun|exact Herr].
Defined.

Lemma polling_accepts c : @accepts polling c.
Proof. intros n. destruct c; cbn; lia. Qed.

Lemma commands_without_effect_are_completed_witness :
  exists w' evs,
    @SyncService.processCommand polling 1 reboot (start polling 0%nat true true) = (Ok tt, w') /\
    cloudCalls evs = [PostAck "cmd-9"; PostComplete "cmd-9" true None].
Proof.
  destruct (@commands_without_effect_are_completed polling 1 reboot
              (start polling 0%nat true true)
              (polling_accepts _) (polling_accepts _))
    as (w' & evs & Hrun & _ & _ & _ & Hcc & _).
  - left. repeat split; discriminate.
  - exists w', evs. split; [exact Hrun|exact Hcc].
Defined.

Lemma api_key_login_selects_the_site_witness :
  exists w',
    @UniFiAdapter.login polling (start polling 0%nat false false) = (Ok tt, w') /\
    siteId (adapter w') = Some "site-1".
Proof.
  destruct (@api_key_login_selects_the_site polling (start polling 0%nat false false)
              {| Response.status := 200; Response.setCookie := None;
                 Response.xCsrfToken := None; Response.data := None |}
              {| Response.status := 200; Response.setCookie := None;
                 Response.xCsrfToken := None; Response.data := Some sitesBody |}
              sitesBody
              {| Site.name := Some "default"; Site.desc := None; Site.id := Some "site-1" |}
              [])
    as (w' & evs & Hrun & _ & Hsite & _).
  - reflexivity.
  - apply answers_scripted. reflexivity.
  - apply answers_scripted. reflexivity.
  - reflexivity.
  - reflexivity.
  - reflexivity.
  - exists w'. split; [exact Hrun|exact Hsite].
Defined.

Lemma api_key_login_failures_witness :
  exists w',
    @UniFiAdapter.login revoked (start revoked 0%nat false false) =
      (Throw (AuthenticationError "API key is invalid or expired" "unifi" api_key), w').
Proof.
  destruct (@api_key_login_failures revoked (start revoked 0%nat false false)
              {| Response.status := 200; Response.setCookie := None;
                 Response.xCsrfToken := None; Response.data := None |}
              (answer 401 None) "API key is invalid or expired")
    as (w' & evs & Hrun & _).
  - reflexivity.
  - apply answers_scripted. reflexivity.
  - apply answers_scripted. reflexivity.
  - left. split; reflexivity.
  - exists w'. exact Hrun.
Defined.

Lemma credentials_login_falls_back_witness :
  exists w' evs,
    @UniFiAdapter.login selfHosted (start selfHosted 0%nat false false) = (Ok tt, w') /\
    isLoggedIn (adapter w') = true /\
    map fst (exchanges evs) =
      [GetRoot; PostAuthLogin "admin" "secret" true; PostLogin "admin" "secret"].
Proof.
  destruct (@credentials_login_falls_back selfHosted (start selfHosted 0%nat false false)
              {| Response.status := 200; Response.setCookie := None;
                 Response.xCsrfToken := None; Response.data := None |}
              (answer 404 None) (Responded sessionCookie))
    as (w' & evs & Hrun & Hin & _ & Hcalls).
  - reflexivity.
  - apply answers_scripted. reflexivity.
  - apply answers_scripted. reflexivity.
  - apply answers_scripted. reflexivity.
  - exists w', evs. split; [exact Hrun|]. split; [exact Hin|exact Hcalls].
Defined.

Lemma operations_end_authenticated_witness :
  isLoggedIn (adapter (snd (@UniFiAdapter.getVouchers polling 2
                              (start polling 0%nat false false)))) = true.
Proof.
  apply (proj1 (@operations_end_authenticated polling) 2%nat (start polling 0%nat false false)
           (match fst (@UniFiAdapter.getVouchers polling 2 (start polling 0%nat false false))
            with Ok vouchers => vouchers | _ => [] end)).
  vm_compute. reflexivity.
Defined.

Lemma reported_vouchers_are_well_formed_witness :
  Forall wellFormed
    (match fst (@UniFiAdapter.getVouchers polling 2 (start polling 0%nat true true))
     with Ok vouchers => vouchers | _ => [] end).
Proof.
  destruct (@reported_vouchers_are_well_formed polling 2 (start polling 0%nat true true)
              (match fst (@UniFiAdapter.getVouchers polling 2 (start polling 0%nat true true))
               with Ok vouchers => vouchers | _ => [] end)
              (snd (@UniFiAdapter.getVouchers polling 2 (start polling 0%nat true true))))
    as (raw & w1 & _ & _ & Hall & _).
  - vm_compute. reflexivity.
  - exact Hall.
Defined.

Lemma idle_poll_is_contained_witness :
  exists w' evs,
    @SyncService.commandPollTick expiring 1 (start expiring 0%nat true true) = (Ok tt, w') /\
    cloudCalls evs = [GetCommands].
Proof.
  destruct (@idle_poll_is_contained expiring 1 (start expiring 0%nat true true))
    as (w' & evs & Hrun & _ & _ & _ & Hcc & _).
  - reflexivity.
  - cbn. intros _. reflexivity.
  - exists w', evs. split; [exact Hrun|exact Hcc].
Defined.

Lemma sync_cycle_reports_the_synced_count_witness :
  exists w' vouchers data evs,
    @SyncService.syncTick polling 2 (start polling 0%nat true true) = (Ok tt, w') /\
    cloudCalls evs =
      [PostSync vouchers;
       PostHeartbeat (Some (CloudData.syncedCount data)) (Some "ok") None] /\
    voucherCount (status (service w')) = CloudData.syncedCount data.
Proof.
  destruct (@sync_cycle_reports_the_synced_count polling 2 (start polling 0%nat true true)
              (snd (@SyncService.syncCycle polling 2 (start polling 0%nat true true))))
    as (vouchers & w1 & st & data & evs & _ & Htick & _ & Hcc & _ & Hcount & _).
  - reflexivity.
  - vm_compute. reflexivity.
  - eexists _, vouchers, data, evs. split; [exact Htick|]. split; [exact Hcc|exact Hcount].
Defined.

Lemma legacy_answers_are_judged_by_rc_witness :
  exists w',
    @UniFiAdapter.deleteVoucher selfHosted 1 "v-1" (start selfHosted 0%nat true true) =
      (Throw (ControllerError "Failed to delete voucher" "unifi"), w').
Proof.
  destruct (proj2 (@legacy_answers_are_judged_by_rc selfHosted eq_refl) 0%nat "v-1"
              (start selfHosted 0%nat true true)
              {| Response.status := 200; Response.setCookie := None;
                 Response.xCsrfToken := None; Response.data := None |}
              1%nat eq_refl eq_refl ltac:(cbn; lia))
    as (w' & evs & Hrun & _).
  exists w'. exact Hrun.
Defined.

Lemma wlans_fall_back_to_the_direct_path_witness :
  exists w' evs,
    @UniFiAdapter.fetchWLANs noWlans (start noWlans 0%nat true true) =
      (Throw (AxiosError "socket hang up" (Some "ECONNRESET") None), w') /\
    map fst (exchanges evs) = [GetProxyWlanconf "default"; GetWlanconf "default"].
Proof.
  destruct (@wlans_fall_back_to_the_direct_path noWlans (start noWlans 0%nat true true)
              (answer 404 None) (NetworkError (Some "ECONNRESET") "socket hang up"))
    as (w' & evs & Hrun & _ & _ & Hcalls).
  - apply answers_scripted. reflexivity.
  - apply answers_scripted. reflexivity.
  - exists w', evs. split; [exact Hrun|exact Hcalls].
Defined.

Lemma refused_acknowledgement_ends_the_batch_witness :
  exists w' evs,
    @SyncService.commandPollTick unacknowledged 2 (start unacknowledged 0%nat true true) =
      (Ok tt, w') /\
    cloudCalls evs = [GetCommands; PostAck "cmd-1"].
Proof.
  destruct (@refused_acknowledgement_ends_the_batch unacknowledged 2
              (command "cmd-1" "sync_now" None) (tl batch)
              (start unacknowledged 0%nat true true) 200
              {| CloudData.error := None; CloudData.message := None;
                 CloudData.commands := batch; CloudData.syncedCount := 0 |}
              1%nat)
    as (w' & evs & Hrun & _ & _ & _ & Hcc & _).
  - reflexivity.
  - reflexivity.
  - reflexivity.
  - reflexivity.
  - reflexivity.
  - exists w', evs. split; [exact Hrun|exact Hcc].
Defined.

End More_runs_on_scenarios.

(* ---------------------------------------------------------------------- *)
(** ** Runs of the session protocol and of batches *)

Section Runs_of_the_protocols.
Import Scenario Cases.
Import UniFiAdapter.

#[local] Arguments formatErrorForUser : simpl never.
#[local] Arguments statusError : simpl never.
#[local] Arguments String.append : simpl never.

(** Against the controller whose sessions keep expiring, [login] always
    succeeds and a deletion is always answered with a 401. *)
Lemma expiring_login (w : @World expiring) : exists w', login w = (Ok tt, w').
Proof. destruct w as [a c s n t]. eexists. vm_compute. reflexivity. Qed.

Lemma expiring_deletion voucherId (w : @World expiring) :
  fst (deleteVoucherOnce voucherId w) = Throw (statusError 401).
Proof. destruct w as [a c s n t]. reflexivity. Qed.

(** The retry of [deleteVoucher] has no bound of its own: against that
    controller the deletion does not come to an end under any bound. *)
Lemma deletion_never_ends_while_sessions_expire voucherId fuel :
  forall w : @World expiring,
    isLoggedIn (adapter w) = true ->
    fst (deleteVoucher fuel voucherId w) = Diverge.
Proof.
  induction fuel as [|fuel IH]; intros w Hin; [reflexivity|].
  change (deleteVoucher (S fuel) voucherId w) with
    ((current <- getAdapter ;;
      (if negb (isLoggedIn current) then login else ret tt) ;;
      UniFiAdapter.log info "Deleting voucher..." ;;
      tryCatch (deleteVoucherOnce voucherId)
        (fun e => if isSessionExpired e then
                    UniFiAdapter.log info "Session expired, re-authenticating..." ;;
                    setLoggedOut ;; login ;; deleteVoucher fuel voucherId
                  else throw e)) w).
  pose proof (expiring_deletion voucherId
                (snd (UniFiAdapter.log info "Deleting voucher..." w))) as Hfirst.
  destruct (deleteVoucherOnce voucherId (snd (UniFiAdapter.log info "Deleting voucher..." w)))
    as [r w1] eqn:E. cbn [fst] in Hfirst. subst r.
  rewrite (expired_session_run _ _ _ _ Hin E eq_refl).
  destruct (expiring_login (afterExpiry w1)) as (w2 & Hlogin). rewrite Hlogin.
  apply IH. exact (login_logs_in _ Hlogin).
Qed.

Lemma expiring_reportsAccepted : @reportsAccepted expiring.
Proof. split; intros; intros n; cbn; lia. Qed.

(** A batch whose first command is such a deletion: the command is
    acknowledged, its dispatch does not come to an end, and the rest of
    the batch is never reached, under any bound. *)
Lemma batch_stalls_while_sessions_expire fuel rest :
  let deletion :=
    command "cmd-2" "delete_voucher"
      (Some {| Payload.voucherId := Some "v-1"; Payload.voucherCode := None |}) in
  let r := @SyncService.forEachCommand expiring fuel (deletion :: rest)
             (start expiring 0%nat true true) in
  fst r = Diverge /\
  lifecycle (trace (snd r)) = [PostAck "cmd-2"].
Proof.
  cbv zeta. cbn [SyncService.forEachCommand]. rewrite bind_run.
  match goal with |- context [SyncService.processCommand fuel ?c ?w] =>
    destruct (@processCommand_run expiring fuel c w expiring_reportsAccepted)
      as (w1 & Hack & Hs1 & Ha1 & Ht1 & Hd);
    destruct (SyncService.dispatchCommand fuel c w1) as [d w2] eqn:Ed;
    destruct (Hd d w2 eq_refl) as (w3 & report & Hp & _ & _ & Ht3 & Hcc & _);
    destruct (@dispatchCommand_step expiring fuel c w1) as [(effects & Hte & Hq) _]
  end.
  rewrite Ed in Hte. cbn [snd] in Hte.
  assert (Hdiv : d = Diverge).
  { unfold SyncService.dispatchCommand, SyncService.handleDeleteVoucherCommand in Ed.
    cbn [VorioCommand.type VorioCommand.payload command String.eqb Ascii.eqb Bool.eqb
         Payload.voucherId Payload.voucherCode] in Ed.
    rewrite bind_run in Ed. cbv zeta in Ed. rewrite bind_run in Ed.
    unfold SyncService.log at 1 in Ed. cbn [emit ifTruthy truthy truthy_string] in Ed.
    match type of Ed with context [deleteVoucher fuel ?v ?W] =>
      pose proof (@deletion_never_ends_while_sessions_expire v fuel W) as Hnever;
      destruct (deleteVoucher fuel v W) as [r' w'] eqn:Edel
    end.
    cbn [fst adapter] in Hnever. rewrite Ha1 in Hnever. specialize (Hnever eq_refl).
    subst r'. inversion Ed. reflexivity. }
  subst d. rewrite Hp. cbn [fst snd]. split; [reflexivity|].
  rewrite Ht3, Hte, Ht1. cbn [trace start app].
  assert (Hl : forall evs, Forall quiet evs -> lifecycle evs = []).
  { induction 1 as [|ev evs Hev _ IHl]; [reflexivity|].
    unfold lifecycle in *. cbn [flat_map]. rewrite IHl.
    destruct ev as [| |[] ?|]; cbn in Hev |- *; try reflexivity; contradiction. }
  assert (Hr : lifecycle report = []).
  { assert (Hsub : forall evs, cloudCalls evs = [] -> lifecycle evs = []).
    { induction evs as [|ev evs IHe]; [reflexivity|].
      unfold lifecycle, cloudCalls in *. cbn [flat_map].
      destruct ev as [| |call out|]; cbn; auto. discriminate. }
    apply Hsub. exact Hcc. }
  unfold lifecycle in *. cbn [flat_map app VorioCommand.id command].
  rewrite flat_map_app, (Hl _ Hq), Hr. reflexivity.
Qed.


(** Claim C4 on the batch of three, at its second command. *)
Lemma batch_processing_witness :
  exists w0 w3 : @World polling,
    @SyncService.processCommand polling 3
      (command "cmd-2" "delete_voucher"
         (Some {| Payload.voucherId := Some "v-404"; Payload.voucherCode := None |}))
      w0 = (Ok tt, w3) /\
    exists (w2 : @World polling) report,
      trace w3 = trace w2 ++ report /\
      cloudCalls report =
        [PostComplete "cmd-2" false (Some "Request failed with status code 404")] /\
      @SyncService.forEachCommand polling 3 batch (start polling 1%nat true true) =
      @SyncService.forEachCommand polling 3 [command "cmd-3" "disconnect" None] w3.
Proof.
  destruct (@batch_processing polling 3
              [command "cmd-1" "sync_now" None]
              (command "cmd-2" "delete_voucher"
                 (Some {| Payload.voucherId := Some "v-404"; Payload.voucherCode := None |}))
              [command "cmd-3" "disconnect" None]
              (start polling 1%nat true true)
              polling_reportsAccepted)
    as [Hreached _].
  destruct (SyncService.forEachCommand 3 [command "cmd-1" "sync_now" None] _)
    as [[[]|e|] w0] eqn:Hb in Hreached;
    vm_compute in Hb; try discriminate Hb.
  inversion Hb; subst w0. clear Hb.
  destruct Hreached as (w1 & d & w2 & w3 & effects & report & Hack & _ & Hd & _ & _ & Htr & Hm).
  vm_compute in Hack. inversion Hack; subst w1. clear Hack.
  vm_compute in Hd. inversion Hd; subst d w2. clear Hd.
  destruct Hm as (_ & Hcc & Hp & Hrest).
  eexists _, w3. split; [exact Hp|]. eexists _, report.
  split; [exact Htr|]. split; [exact Hcc|exact Hrest].
Defined.

(** Claim C5 on the batch of three, at its last command. *)
Lemma disconnect_stops_without_completion_witness :
  exists events,
    trace (snd (@SyncService.forEachCommand polling 3 batch (start polling 1%nat true true)))
      = events /\
    stopped (service (snd (@SyncService.forEachCommand polling 3 batch
                             (start polling 1%nat true true)))) /\
    In (PostAck "cmd-3") (cloudCalls events) /\
    forall success error, ~ In (PostComplete "cmd-3" success error) (cloudCalls events).
Proof.
  destruct (@disconnect_stops_without_completion polling 3
              [command "cmd-1" "sync_now" None;
               command "cmd-2" "delete_voucher"
                 (Some {| Payload.voucherId := Some "v-404"; Payload.voucherCode := None |})]
              (command "cmd-3" "disconnect" None)
              []
              (start polling 1%nat true true))
    as (events & Htr & Hno & Hreached).
  - reflexivity.
  - reflexivity.
  - cbn. intros [E|[E|[]]]; discriminate E.
  - exists events. split; [exact Htr|].
    destruct (SyncService.forEachCommand 3 _ _) as [[[]|e|] w0] eqn:Hb in Hreached;
      vm_compute in Hb; try discriminate Hb.
    inversion Hb; subst w0. clear Hb.
    destruct Hreached
      as [Hack [[_ (w1 & w2 & halting & _ & _ & _ & _ & _ & _ & _ & _ & Hstopped)]|[Href _]]].
    + split; [exact Hstopped|]. split; [exact Hack|exact Hno].
    + vm_compute in Href. discriminate Href.
Defined.

(** Claim C5, a [disconnect] command whose acknowledgement the cloud
    refuses: the acknowledgement is the only call, nothing is dispatched,
    and the service is running as before. *)
Lemma refused_disconnect_does_not_stop :
  let r := @SyncService.forEachCommand unacknowledged 3 [command "cmd-3" "disconnect" None]
             (start unacknowledged 0%nat true true) in
  fst r = Throw (VorioApiError "Internal error" (Some 500)
                   (Some "/api/agent/commands/cmd-3/ack")) /\
  cloudCalls (trace (snd r)) = [PostAck "cmd-3"] /\
  service (snd r) = service (start unacknowledged 0%nat true true) /\
  isRunning (service (snd r)) = true /\
  adapter (snd r) = adapter (start unacknowledged 0%nat true true).
Proof. vm_compute. repeat split. Qed.

End Runs_of_the_protocols.
